(** * DioDashboard: stream cache, subscription bus, canvas zoom, auto-layout

    A shallow embedding of the reactive core of the dashboard
    (js/views/*.js, js/utils/websocket.js, js/utils/formatting.js,
    js/utils/auto-layout.js, js/components/canvas.js, js/widgets/log-widget.js)
    and the properties its specification states about it, followed by
    further properties of the same code and of what it calls
    (js/utils/drag-drop.js, js/utils/storage.js, js/widgets/base-widget.js,
    js/widgets/telemetry-widget.js).

    Conventions of the embedding:
    - a JavaScript value is a [value]; numbers are exact rationals ([Q]), so
      NaN, the infinities and rounding of IEEE doubles are outside the model;
    - strings are byte strings; [toLowerCase] and [toUpperCase] change ASCII
      letters only;
    - builtins of the runtime that are not part of the repository
      ([JSON.parse], [JSON.stringify], [Number.prototype.toString],
      [Math.sqrt]) are the fields of the class [Runtime], and every
      statement holds for every runtime; [Set.prototype.forEach] is written
      out as the language standard defines it;
    - [console.*] calls have no effect on the modelled state and are dropped;
    - code that can throw is written in a state-and-exception monad, so the
      mutations done before a throw stay visible after the [catch]. *)

From Stdlib Require Import QArith Qabs Qround ZArith Lia Lqa List Ascii String DecimalString.
From Stdlib Require DecimalPos.
From stdpp Require Import gmap strings list.

Local Open Scope string_scope.
Set Warnings "-register-all".

(** ** JavaScript values *)

Inductive value : Type :=
| VUndef
| VNull
| VBool (b : bool)
| VNum (q : Q)
| VStr (s : string)
| VArr (l : list value)
| VObj (fields : list (string * value)).

(** [!v] is [negb (truthy v)]. *)
Definition truthy (v : value) : bool :=
  match v with
  | VUndef | VNull => false
  | VBool b => b
  | VNum q => negb (Qeq_bool q 0)
  | VStr s => negb (String.eqb s "")
  | VArr _ | VObj _ => true
  end.

(** [typeof v === 'object'] *)
Definition typeof_object (v : value) : bool :=
  match v with
  | VNull | VArr _ | VObj _ => true
  | _ => false
  end.

Definition Array_isArray (v : value) : bool :=
  match v with VArr _ => true | _ => false end.

Fixpoint assoc (k : string) (fields : list (string * value)) : value :=
  match fields with
  | [] => VUndef
  | (k', v) :: rest => if String.eqb k k' then v else assoc k rest
  end.

(** [v.k] / [v[k]] for the property names the code reads.  None of them is
    an array index, [length] or a member of a builtin prototype, so only
    objects have them. *)
Definition get (v : value) (k : string) : value :=
  match v with
  | VObj fields => assoc k fields
  | _ => VUndef
  end.

(** Destructuring default: [{ k = d } = v]. *)
Definition get_default (v : value) (k : string) (d : value) : value :=
  match get v k with
  | VUndef => d
  | x => x
  end.

(** Property assignment on an object literal value: an existing property
    keeps its place, a new one goes last. *)
Fixpoint set_field (k : string) (v : value) (fields : list (string * value))
  : list (string * value) :=
  match fields with
  | [] => [(k, v)]
  | (k', v') :: rest =>
      if String.eqb k k' then (k, v) :: rest else (k', v') :: set_field k v rest
  end.

(** ** Completions and the state-and-exception monad *)

Inductive completion (A : Type) : Type :=
| Normal (a : A)
| Throw (error : string).
Arguments Normal {A} a.
Arguments Throw {A} error.

Definition Eff (S A : Type) : Type := S -> completion A * S.

Definition ret {S A} (a : A) : Eff S A := fun s => (Normal a, s).
Definition throw {S A} (e : string) : Eff S A := fun s => (Throw e, s).
Definition bind {S A B} (m : Eff S A) (f : A -> Eff S B) : Eff S B :=
  fun s =>
    match m s with
    | (Normal a, s') => f a s'
    | (Throw e, s') => (Throw e, s')
    end.
Definition modify {S} (f : S -> S) : Eff S unit := fun s => (Normal tt, f s).
Definition lift {S A} (c : completion A) : Eff S A := fun s => (c, s).

(** [try { body } catch (error) { handler }]: the state reached at the
    throw is the one the handler starts from. *)
Definition try_catch {S} (body : Eff S unit) (handler : string -> Eff S unit)
  : Eff S unit :=
  fun s =>
    match body s with
    | (Normal a, s') => (Normal a, s')
    | (Throw e, s') => handler e s'
    end.

(** The handlers of this code base only write to the console. *)
Definition console_error {S} (error : string) : Eff S unit := ret tt.

Declare Scope eff_scope.
Delimit Scope eff_scope with eff.
Notation "'do' x <- m ; k" := (bind m (fun x => k))
  (at level 10, x name, m at level 100, k at level 200) : eff_scope.
Notation "'run' m ; k" := (bind m (fun _ => k))
  (at level 10, m at level 100, k at level 200) : eff_scope.

(** [xs.forEach(f)] for a callback that may throw. *)
Fixpoint forEach {S A} (f : A -> Eff S unit) (xs : list A) : Eff S unit :=
  match xs with
  | [] => ret tt
  | x :: rest => bind (f x) (fun _ => forEach f rest)
  end.

(** ** Strings *)

Definition lower_ascii (c : ascii) : ascii :=
  let n := nat_of_ascii c in
  if (65 <=? n)%nat && (n <=? 90)%nat then ascii_of_nat (n + 32) else c.

Fixpoint toLowerCase (s : string) : string :=
  match s with
  | EmptyString => EmptyString
  | String c rest => String (lower_ascii c) (toLowerCase rest)
  end.

Fixpoint startsWith (p s : string) : bool :=
  match p, s with
  | EmptyString, _ => true
  | String a p', String b s' => Ascii.eqb a b && startsWith p' s'
  | String _ _, EmptyString => false
  end.

(** [s.includes(p)] *)
Fixpoint includes (s p : string) : bool :=
  startsWith p s ||
  match s with
  | EmptyString => false
  | String _ rest => includes rest p
  end.

(** [patterns.some(pattern => name.includes(pattern))] *)
Definition some_included (name : string) (patterns : list string) : bool :=
  existsb (includes name) patterns.

(** The in-memory stores [telemetryData], [balanceData], [systemData] are
    object literals used as dictionaries.  Assigning the key [__proto__]
    does not create a property: it replaces the prototype (the values
    assigned here are always objects). *)
Record dict : Type := { own : gmap string value; proto : option value }.

Definition dict_empty : dict := {| own := ∅; proto := None |}.

Definition dict_assign (k : string) (v : value) (d : dict) : dict :=
  if String.eqb k "__proto__"
  then {| own := own d; proto := Some v |}
  else {| own := <[k := v]> (own d); proto := proto d |}.

(** ** data/state.js *)

Record cache : Type := {
  telemetryData : dict;
  balanceData : dict;
  openOrdersData : list value;
  systemData : dict
}.

Definition initial_cache : cache :=
  {| telemetryData := dict_empty; balanceData := dict_empty;
     openOrdersData := []; systemData := dict_empty |}.

Definition set_telemetryData (f : dict -> dict) (c : cache) : cache :=
  {| telemetryData := f (telemetryData c); balanceData := balanceData c;
     openOrdersData := openOrdersData c; systemData := systemData c |}.
Definition set_balanceData (f : dict -> dict) (c : cache) : cache :=
  {| telemetryData := telemetryData c; balanceData := f (balanceData c);
     openOrdersData := openOrdersData c; systemData := systemData c |}.
Definition set_openOrdersData (f : list value -> list value) (c : cache) : cache :=
  {| telemetryData := telemetryData c; balanceData := balanceData c;
     openOrdersData := f (openOrdersData c); systemData := systemData c |}.
Definition set_systemData (f : dict -> dict) (c : cache) : cache :=
  {| telemetryData := telemetryData c; balanceData := balanceData c;
     openOrdersData := openOrdersData c; systemData := f (systemData c) |}.

(** ** utils/formatting.js: getMetricType *)

Definition unit_is_time (unit : string) : bool :=
  includes unit "second" || includes unit "sec" || String.eqb unit "s" ||
  includes unit "minute" || String.eqb unit "m" ||
  includes unit "hour" || String.eqb unit "h" ||
  includes unit "millisecond" || String.eqb unit "ms" ||
  includes unit "microsecond" || String.eqb unit "μs" || String.eqb unit "us" ||
  includes unit "nanosecond" || String.eqb unit "ns" ||
  includes unit "time" || includes unit "duration" ||
  includes unit "latency" || includes unit "delay".

Definition unit_is_memory (unit : string) : bool :=
  includes unit "byte" || String.eqb unit "b" ||
  includes unit "kilobyte" || String.eqb unit "kb" ||
  includes unit "megabyte" || String.eqb unit "mb" ||
  includes unit "gigabyte" || String.eqb unit "gb" ||
  includes unit "terabyte" || String.eqb unit "tb" ||
  includes unit "memory" || includes unit "mem" ||
  includes unit "size" || includes unit "allocated" ||
  includes unit "used" || includes unit "buffer" ||
  includes unit "cache".

Definition unitFields : list string := ["unit"; "metric_unit"; "type_hint"; "units"].
Definition timePatterns : list string :=
  ["time"; "duration"; "latency"; "elapsed"; "wait"; "delay"; "period";
   "interval"; "seconds"; "sec"].
Definition memoryPatterns : list string :=
  ["memory"; "mem"; "bytes"; "size"; "allocated"; "used"; "buffer"; "cache"].

(** [x.toLowerCase()]: a method of strings only; on any other (truthy)
    value the call is a TypeError. *)
Definition call_toLowerCase (x : value) : completion string :=
  match x with
  | VStr s => Normal (toLowerCase s)
  | _ => Throw "TypeError: toLowerCase is not a function"
  end.

(** Fall back to name pattern matching. *)
Definition metric_type_by_name (metricName : value) : completion string :=
  if truthy metricName then
    match call_toLowerCase metricName with
    | Throw e => Throw e
    | Normal name =>
        if some_included name timePatterns then Normal "time"
        else if some_included name memoryPatterns then Normal "memory"
        else Normal "number"
    end
  else Normal "number".

(** The loop over [unitFields]; [None] when no field decided. *)
Fixpoint metric_type_by_fields (metric : value) (fields : list string)
  : completion (option string) :=
  match fields with
  | [] => Normal None
  | field :: rest =>
      if truthy (get metric field) then
        match call_toLowerCase (get metric field) with
        | Throw e => Throw e
        | Normal unit =>
            if unit_is_time unit then Normal (Some "time")
            else if unit_is_memory unit then Normal (Some "memory")
            else metric_type_by_fields metric rest
        end
      else metric_type_by_fields metric rest
  end.

Definition getMetricType (metric metricName : value) : completion string :=
  match (if truthy metric then metric_type_by_fields metric unitFields
         else Normal None) with
  | Throw e => Throw e
  | Normal (Some t) => Normal t
  | Normal None => metric_type_by_name metricName
  end.

(** ** The JavaScript runtime

    Builtins the code calls but the repository does not define.
    [JSON_parse] returns [None] where [JSON.parse] throws a SyntaxError. *)
Class Runtime : Type := {
  JSON_parse : string -> option value;
  JSON_stringify : value -> string;
  Number_toString : Q -> string;
  Math_sqrt : Q -> Q
}.

Section WithRuntime.
Context `{RT : Runtime}.

(** [String(v)] / [`${v}`] / the conversion of a computed property key,
    where the conversion completes ([converts] below says where). *)
Fixpoint String_of (v : value) : string :=
  match v with
  | VUndef => "undefined"
  | VNull => "null"
  | VBool true => "true"
  | VBool false => "false"
  | VNum q => Number_toString q
  | VStr s => s
  | VArr l =>
      (fix join (l : list value) : string :=
         match l with
         | [] => ""
         | x :: rest =>
             (match x with VUndef | VNull => "" | _ => String_of x end) ++
             (match rest with [] => "" | _ => "," ++ join rest end)
         end) l
  | VObj _ => "[object Object]"
  end.

(** ** views/telemetry.js *)

(** The composite key of a metric item: [`${name}|${JSON.stringify(labels)}`]
    with [labels = {}] when the item has none. *)
Definition item_key (item : value) : string :=
  let name := get item "name" in
  let labels := get_default item "labels" (VObj []) in
  let labelsStr := JSON_stringify labels in
  String_of name ++ "|" ++ labelsStr.

(** [value !== undefined ? value : null], then the KB-to-bytes conversion of
    numbers classified as memory. *)
Definition processedValue (metric_type name : value) : completion value :=
  let value := get metric_type "value" in
  let processedValue := match value with VUndef => VNull | _ => value end in
  match processedValue with
  | VNum q =>
      match getMetricType metric_type name with
      | Throw e => Throw e
      | Normal metricType =>
          if String.eqb metricType "memory"
          then Normal (VNum (q * 1024)%Q)
          else Normal processedValue
      end
  | _ => Normal processedValue
  end.

Definition is_string (v : value) (s : string) : bool :=
  match v with VStr s' => String.eqb s' s | _ => false end.

(** The callback of [metrics.forEach]. *)
Definition telemetry_item (item : value) : Eff cache unit :=
  if negb (truthy item) || negb (typeof_object item) then ret tt else
  let name := get item "name" in
  let labels := get_default item "labels" (VObj []) in
  let last_updated := get item "last_updated" in
  let cached_rate := get_default item "cached_rate" (VNum 0) in
  let metric_type := get item "metric_type" in
  if negb (truthy name) || negb (truthy metric_type) then ret tt else
  let type := get metric_type "type" in
  if negb (is_string type "gauge") && negb (is_string type "counter")
     && negb (is_string type "histogram") then ret tt else
  let key := item_key item in
  (do v <- lift (processedValue metric_type name);
   modify (set_telemetryData (dict_assign key
     (VObj [("name", name); ("labels", labels); ("value", v);
            ("cached_rate", cached_rate); ("last_updated", last_updated);
            ("metric_type", metric_type); ("key", VStr key)]))))%eff.

(** The [metrics] array of a decoded message: the message itself when it is
    an array, its [metrics] field when that is one, otherwise the format is
    not recognized. *)
Definition telemetry_metrics (data : value) : option (list value) :=
  match data with
  | VArr metrics => Some metrics
  | _ =>
      if truthy data && typeof_object data then
        match get data "metrics" with
        | VArr metrics => Some metrics
        | _ => None
        end
      else None
  end.

Definition parseTelemetryMessage_try (msg : string) : Eff cache unit :=
  match JSON_parse msg with
  | None => throw "SyntaxError"
  | Some data =>
      match telemetry_metrics data with
      | None => ret tt
      | Some metrics =>
          if (length metrics =? 0)%nat then ret tt
          else forEach telemetry_item metrics
      end
  end.

Definition parseTelemetryMessage (msg : string) : Eff cache unit :=
  try_catch (parseTelemetryMessage_try msg) console_error.

(** The metric items a text message carries (none when it does not decode). *)
Definition message_metrics (msg : string) : list value :=
  match JSON_parse msg with
  | Some data => default [] (telemetry_metrics data)
  | None => []
  end.

(** A message omits key [k] when no item of it has that composite key. *)
Definition message_omits (k : string) (msg : string) : Prop :=
  Forall (fun item => item_key item <> k) (message_metrics msg).

(** ** views/balance.js *)

(** [{ ...v }]: the own enumerable properties of [v]. *)
Definition index_fields {A} (f : A -> value) (xs : list A) : list (string * value) :=
  imap (fun i x => (NilEmpty.string_of_uint (Nat.to_uint i), f x)) xs.

Definition spread (v : value) : list (string * value) :=
  match v with
  | VObj fields => fields
  | VArr l => index_fields (fun x => x) l
  | VStr s => index_fields (fun c => VStr (String c EmptyString)) (list_ascii_of_string s)
  | _ => []
  end.

(** The callback of [open_orders.forEach] (its warnings dropped). *)
Definition balance_order (order : value) : Eff cache unit :=
  if truthy order
  then modify (set_openOrdersData (fun orders => (orders ++ [VObj (spread order)])%list))
  else ret tt.

(** The callback of [balances.forEach]. *)
Definition balance_entry (last_updated : value) (balance : value) : Eff cache unit :=
  if negb (truthy balance) || negb (truthy (get balance "asset")) then ret tt
  else modify (set_balanceData (dict_assign (String_of (get balance "asset"))
         (VObj (set_field "last_updated" last_updated (spread balance))))).

(** [xs.forEach(f)] where [xs] is any value: only arrays have the method. *)
Definition call_forEach {S} (xs : value) (f : value -> Eff S unit) : Eff S unit :=
  match xs with
  | VArr l => forEach f l
  | _ => throw "TypeError: forEach is not a function"
  end.

Definition parseBalanceMessage_try (msg : string) : Eff cache unit :=
  match JSON_parse msg with
  | None => throw "SyntaxError"
  | Some data =>
      if negb (truthy data) || negb (typeof_object data) then ret tt else
      let balances := get_default data "balances" (VArr []) in
      let open_orders := get_default data "open_orders" (VArr []) in
      let timestamp := get data "timestamp" in
      let last_updated := timestamp in
      (run modify (set_openOrdersData (fun _ => []));
       run call_forEach open_orders balance_order;
       call_forEach balances (balance_entry last_updated))%eff
  end.

Definition parseBalanceMessage (msg : string) : Eff cache unit :=
  try_catch (parseBalanceMessage_try msg) console_error.

(** The [open_orders] array of a decoded message ([[]] when absent). *)
Definition message_open_orders (data : value) : value :=
  get_default data "open_orders" (VArr []).

(** ** views/system.js *)

(** [Object.entries(data)] *)
Definition Object_entries (data : value) : list (string * value) := spread data.

(** The callback of [Object.entries(data).forEach]. *)
Definition system_entry (last_updated : value) (kv : string * value) : Eff cache unit :=
  let '(key, value) := kv in
  if String.eqb key "type" || String.eqb key "timestamp" then ret tt else
  if Array_isArray value then
    modify (set_systemData (dict_assign key
      (VObj [("name", VStr key); ("value", value); ("last_updated", last_updated)])))
  else if typeof_object value && negb (match value with VNull => true | _ => false end)
  then ret tt
  else
    modify (set_systemData (dict_assign key
      (VObj [("name", VStr key); ("value", value); ("last_updated", last_updated)]))).

Definition parseSystemMessage_try (msg : string) : Eff cache unit :=
  match JSON_parse msg with
  | None => throw "SyntaxError"
  | Some data =>
      if negb (truthy data) || negb (typeof_object data) then ret tt else
      let timestamp := get data "timestamp" in
      let last_updated := timestamp in
      forEach (system_entry last_updated) (Object_entries data)
  end.

Definition parseSystemMessage (msg : string) : Eff cache unit :=
  try_catch (parseSystemMessage_try msg) console_error.

(** ** utils/formatting.js: number formatting *)

(** Decimal digits of a natural number. *)
Definition digits (n : N) : string := NilEmpty.string_of_uint (N.to_uint n).

Fixpoint zeros (n : nat) : string :=
  match n with
  | O => ""
  | S n' => String "0" (zeros n')
  end.

(** [x.toFixed(f)]: the sign, then for a magnitude of [10^21] or more its
    [String], otherwise the integer [n] with [n / 10^f] nearest to the
    magnitude (the larger one on a tie) written with [f] digits after the
    point. *)
Definition toFixed (x : Q) (f : nat) : string :=
  let s := if Qlt_le_dec x 0 then "-" else "" in
  let x := Qabs x in
  if Qle_bool (inject_Z (10 ^ 21)) x then s ++ Number_toString x else
  let n := Z.to_N (Qfloor (x * inject_Z (10 ^ Z.of_nat f) + (1 # 2))%Q) in
  let m := digits n in
  let m := zeros (S f - String.length m) ++ m in
  let k := String.length m in
  if (f =? 0)%nat then s ++ m
  else s ++ substring 0 (k - f) m ++ "." ++ substring (k - f) f m.

Fixpoint all_zeros (s : string) : bool :=
  match s with
  | EmptyString => true
  | String c rest => Ascii.eqb c "0" && all_zeros rest
  end.

(** Does the whole of [s] match [\.?0+] (so that [\.?0+$] matches here)? *)
Definition trailing_zeros_here (s : string) : bool :=
  match s with
  | EmptyString => false
  | String c rest =>
      (Ascii.eqb c "." && negb (String.eqb rest "") && all_zeros rest)
      || all_zeros s
  end.

(** [s.replace(/\.?0+$/, '')]: the leftmost position where the pattern
    matches up to the end of the string is cut off. *)
Fixpoint strip_trailing_zeros (s : string) : string :=
  if trailing_zeros_here s then "" else
  match s with
  | EmptyString => ""
  | String c rest => String c (strip_trailing_zeros rest)
  end.

(** [a >= b] *)
Definition geq (a b : Q) : bool := Qle_bool b a.

(** [scaled >= 10 ? 0 : scaled >= 1 ? 1 : 2] *)
Definition time_decimals (scaled : Q) : nat :=
  if geq scaled 10 then 0%nat else if geq scaled 1 then 1%nat else 2%nat.

Definition formatTime (value : Q) : string :=
  if Qeq_bool value 0 then "0 s" else
  let absValue := Qabs value in
  let '(unit, scaled, decimals) :=
    if geq absValue 3600 then
      let scaled := (absValue / 3600)%Q in ("h", scaled, time_decimals scaled)
    else if geq absValue 60 then
      let scaled := (absValue / 60)%Q in ("m", scaled, time_decimals scaled)
    else if geq absValue 1 then
      let scaled := (absValue / 1)%Q in ("s", scaled, time_decimals scaled)
    else if geq absValue (1 # 1000) then
      ("ms", (absValue / (1 # 1000))%Q, 3%nat)
    else if geq absValue (1 # 1000000) then
      ("μs", (absValue / (1 # 1000000))%Q, 3%nat)
    else
      ("ns", (absValue / (1 # 1000000000))%Q, 0%nat) in
  let formatted := toFixed scaled decimals in
  let formatted := strip_trailing_zeros formatted in
  let formatted := if String.eqb formatted "." then "0" else formatted in
  (if Qlt_le_dec value 0 then "-" else "") ++ formatted ++ " " ++ unit.

(** The [units] table of [formatMemory], largest first (the loop runs from
    the last index down). *)
Definition memory_units_desc : list (string * Q) :=
  [("TB", 1024 * 1024 * 1024 * 1024); ("GB", 1024 * 1024 * 1024);
   ("MB", 1024 * 1024); ("KB", 1024); ("B", 1)]%Q.

(** The loop of [formatMemory]: the first unit, going down, that
    [absValue] reaches. *)
Fixpoint select_unit (absValue : Q) (units : list (string * Q))
  : option (string * Q) :=
  match units with
  | [] => None
  | unit :: rest =>
      if geq absValue (snd unit) then Some unit else select_unit absValue rest
  end.

(** The number [formatMemory] scales before it picks a unit:
    [Math.abs(value) * 1024]. *)
Definition memory_absValue (value : Q) : Q := (Qabs value * 1024)%Q.

(** The three parts [formatMemory] concatenates: sign, digits, unit name. *)
Definition formatMemory_parts (value : Q) : string * string * string :=
  let absValue := memory_absValue value in
  let sign := if Qlt_le_dec value 0 then "-" else "" in
  match select_unit absValue memory_units_desc with
  | Some unit =>
      let scaled := (absValue / snd unit)%Q in
      let formatted :=
        if geq scaled 100 then toFixed scaled 0
        else if geq scaled 10 then toFixed scaled 1
        else toFixed scaled 2 in
      let formatted := strip_trailing_zeros formatted in
      (sign, formatted, fst unit)
  | None => (sign, toFixed absValue 0, "B")
  end.

Definition formatMemory (value : Q) : string :=
  if Qeq_bool value 0 then "0 B" else
  let '(sign, formatted, unit) := formatMemory_parts value in
  sign ++ formatted ++ " " ++ unit.

(** [value % 1 === 0] *)
Definition is_integer (q : Q) : bool := Qeq_bool q (inject_Z (Qfloor q)).

Fixpoint join (sep : string) (parts : list string) : string :=
  match parts with
  | [] => ""
  | [x] => x
  | x :: rest => x ++ sep ++ join sep rest
  end.

Definition formatValue (value metricName metric : value) : completion string :=
  match value with
  | VNull | VUndef => Normal "N/A"
  | VArr l =>
      if (length l =? 0)%nat then Normal "[]"
      else if (length l <=? 5)%nat then
        Normal (join ", " (map (fun v => match v with
                                         | VNum q => toFixed q 2
                                         | _ => String_of v
                                         end) l))
      else Normal ("[" ++ digits (N.of_nat (length l)) ++ " items]")
  | VObj _ =>
      let text := JSON_stringify value in
      Normal (substring 0 50 text ++
              (if (50 <? String.length text)%nat then "..." else ""))
  | VNum q =>
      match getMetricType metric metricName with
      | Throw e => Throw e
      | Normal metricType =>
          if String.eqb metricType "time" then Normal (formatTime q)
          else if String.eqb metricType "memory" then Normal (formatMemory q)
          else if is_integer q then Normal (Number_toString q)
          else Normal (strip_trailing_zeros (toFixed q 6))
      end
  | VBool _ | VStr _ => Normal (String_of value)
  end.

(** What the telemetry view and widgets show for a cached metric:
    [formatValue(metric.value, metric.name, metric)]. *)
Definition display_metric (metric : value) : completion string :=
  formatValue (get metric "value") (get metric "name") metric.

(** The unit [formatMemory] prints. *)
Definition memory_unit (value : Q) : string := snd (formatMemory_parts value).

(** The guards of the [metrics.forEach] callback: the item is an object
    with a name and a [metric_type] of one of the three kinds. *)
Definition accepted (item : value) : bool :=
  truthy item && typeof_object item
  && truthy (get item "name") && truthy (get item "metric_type")
  && (is_string (get (get item "metric_type") "type") "gauge"
      || is_string (get (get item "metric_type") "type") "counter"
      || is_string (get (get item "metric_type") "type") "histogram").

(** ** The three cached streams together *)

Inductive stream : Type := Telemetry | Balance | System.

Definition parse (s : stream) : string -> Eff cache unit :=
  match s with
  | Telemetry => parseTelemetryMessage
  | Balance => parseBalanceMessage
  | System => parseSystemMessage
  end.

(** Messages in order, each parsed to completion before the next. *)
Definition process (s : stream) (msgs : list string) (c : cache) : cache :=
  fold_left (fun c msg => snd (parse s msg c)) msgs c.

(** The decode faults a parser detects before it touches the cache: the
    text is not JSON, or the decoded value is not of the stream's top-level
    shape (telemetry: an array or an object with a [metrics] array;
    balance and system: a non-null object). *)
Definition rejected_at_decode (s : stream) (msg : string) : bool :=
  match JSON_parse msg with
  | None => true
  | Some data =>
      match s with
      | Telemetry => match telemetry_metrics data with None => true | Some _ => false end
      | Balance | System => negb (truthy data) || negb (typeof_object data)
      end
  end.

Definition is_object (v : value) : bool :=
  match v with VObj _ => true | _ => false end.

(** A message of the balance grammar, as far as its orders go: an object
    whose [open_orders], when present, is an array of objects. *)
Definition balance_orders_wellformed (msg : string) : bool :=
  match JSON_parse msg with
  | None => false
  | Some data =>
      truthy data && typeof_object data &&
      match message_open_orders data with
      | VArr orders => forallb is_object orders
      | _ => false
      end
  end.

(** The [open_orders] array of a text message. *)
Definition open_orders_of (msg : string) : list value :=
  match JSON_parse msg with
  | Some data =>
      match message_open_orders data with VArr orders => orders | _ => [] end
  | None => []
  end.

End WithRuntime.

(** ** utils/websocket.js: the subscription bus *)

Module Bus.

Inductive channel : Type := telemetry | balance | system | log.

Definition channel_name (ch : channel) : string :=
  match ch with
  | telemetry => "telemetry"
  | balance => "balance"
  | system => "system"
  | log => "log"
  end.

Definition channel_eqb (a b : channel) : bool :=
  match a, b with
  | telemetry, telemetry | balance, balance | system, system | log, log => true
  | _, _ => false
  end.

(** A callback is a function object; the Set compares them by identity. *)
Definition callback : Type := nat.

(** A JavaScript [Set]: the list of its entries in insertion order.
    Deleting an entry leaves an empty slot ([None]) behind, so that an
    iteration in progress keeps its position. *)
Abbreviation jsset := (list (option callback)).

Definition entry_is (c : callback) (e : option callback) : bool :=
  match e with
  | Some c' => Nat.eqb c' c
  | None => false
  end.

Definition Set_has (c : callback) (s : jsset) : bool := existsb (entry_is c) s.

(** [s.add(c)] *)
Definition Set_add (c : callback) (s : jsset) : jsset :=
  if Set_has c s then s else (s ++ [Some c])%list.

(** [s.delete(c)] *)
Fixpoint Set_delete (c : callback) (s : jsset) : jsset :=
  match s with
  | [] => []
  | e :: rest => if entry_is c e then None :: rest else e :: Set_delete c rest
  end.

(** The callbacks in the set, in insertion order. *)
Definition members (s : jsset) : list callback := omap (fun e => e) s.
Arguments members : simpl never.

(** [const widgetSubscribers = { telemetry: new Set(), ... }] *)
Record registry : Type := {
  telemetry_set : jsset;
  balance_set : jsset;
  system_set : jsset;
  log_set : jsset
}.

Definition widgetSubscribers_init : registry :=
  {| telemetry_set := []; balance_set := []; system_set := []; log_set := [] |}.

Definition subscribers (ch : channel) (r : registry) : jsset :=
  match ch with
  | telemetry => telemetry_set r
  | balance => balance_set r
  | system => system_set r
  | log => log_set r
  end.

Definition update_subscribers (ch : channel) (f : jsset -> jsset) (r : registry)
  : registry :=
  match ch with
  | telemetry => {| telemetry_set := f (telemetry_set r); balance_set := balance_set r;
                    system_set := system_set r; log_set := log_set r |}
  | balance => {| telemetry_set := telemetry_set r; balance_set := f (balance_set r);
                  system_set := system_set r; log_set := log_set r |}
  | system => {| telemetry_set := telemetry_set r; balance_set := balance_set r;
                 system_set := f (system_set r); log_set := log_set r |}
  | log => {| telemetry_set := telemetry_set r; balance_set := balance_set r;
              system_set := system_set r; log_set := f (log_set r) |}
  end.

(** What [widgetSubscribers[streamName]] evaluates to.  The registry is an
    object literal, so besides its four own properties it answers to the
    members of [Object.prototype], whose values are truthy and are not
    Sets. *)
Inductive property : Type :=
| OwnSet (ch : channel)
| Inherited
| Undefined.

Definition Object_prototype_names : list string :=
  ["constructor"; "__defineGetter__"; "__defineSetter__"; "hasOwnProperty";
   "__lookupGetter__"; "__lookupSetter__"; "isPrototypeOf";
   "propertyIsEnumerable"; "toString"; "valueOf"; "__proto__";
   "toLocaleString"].

Definition lookup_stream (streamName : string) : property :=
  if String.eqb streamName "telemetry" then OwnSet telemetry
  else if String.eqb streamName "balance" then OwnSet balance
  else if String.eqb streamName "system" then OwnSet system
  else if String.eqb streamName "log" then OwnSet log
  else if existsb (String.eqb streamName) Object_prototype_names then Inherited
  else Undefined.

Definition subscribeToStream (streamName : string) (callback : callback)
  : Eff registry unit :=
  match lookup_stream streamName with
  | OwnSet ch => modify (update_subscribers ch (Set_add callback))
  | Inherited => throw "TypeError: widgetSubscribers[streamName].add is not a function"
  | Undefined => ret tt
  end.

Definition unsubscribeFromStream (streamName : string) (callback : callback)
  : Eff registry unit :=
  match lookup_stream streamName with
  | OwnSet ch => modify (update_subscribers ch (Set_delete callback))
  | Inherited => throw "TypeError: widgetSubscribers[streamName].delete is not a function"
  | Undefined => ret tt
  end.

(** *** Callbacks

    The registry is private to the module: a callback can change it only
    through the two exported functions, and cannot read it.  What one call
    of a callback does is therefore: a sequence of subscribe/unsubscribe
    calls, a change of the rest of the program state, and a normal or
    abrupt completion. *)
Inductive bus_call : Type :=
| Subscribe (ch : channel) (c : callback)
| Unsubscribe (ch : channel) (c : callback).

Definition on_channel (ch : channel) (op : bus_call) : bool :=
  match op with
  | Subscribe ch' _ | Unsubscribe ch' _ => channel_eqb ch' ch
  end.

Definition do_bus_call (op : bus_call) (r : registry) : registry :=
  match op with
  | Subscribe ch c => snd (subscribeToStream (channel_name ch) c r)
  | Unsubscribe ch c => snd (unsubscribeFromStream (channel_name ch) c r)
  end.

(** What a call does to the set of its channel. *)
Definition on_set (op : bus_call) : jsset -> jsset :=
  match op with
  | Subscribe _ c => Set_add c
  | Unsubscribe _ c => Set_delete c
  end.

(** Every Set the two functions can build holds a callback at most once. *)
Definition well_formed (s : jsset) : Prop := NoDup (members s).

Section Publish.
Context {P S : Type}.

Record reaction : Type := {
  bus_calls : list bus_call;
  state_after : S;
  throws : bool
}.

(** What each callback does when called with a payload in a program state. *)
Definition behaviour : Type := callback -> P -> S -> reaction.

(** The registry, the rest of the program state, and the record of the
    callback invocations made so far (kept for the statements below; the
    code has no such field). *)
Record world : Type := {
  widgetSubscribers : registry;
  program : S;
  invoked : list (callback * P)
}.

(** [callback(data)] *)
Definition call (beh : behaviour) (c : callback) (data : P) : Eff world unit :=
  fun w =>
    let r := beh c data (program w) in
    (if throws r then Throw "Error" else Normal tt,
     {| widgetSubscribers := fold_left (fun reg op => do_bus_call op reg)
                               (bus_calls r) (widgetSubscribers w);
        program := state_after r;
        invoked := (invoked w ++ [(c, data)])%list |}).

(** The body of the arrow function passed to [forEach]. *)
Definition notify_one (beh : behaviour) (data : P) (c : callback) : Eff world unit :=
  try_catch (call beh c data) console_error.

(** [Set.prototype.forEach]: walk the entries by index, re-reading the
    entry list at every step, until the index reaches its current length;
    empty slots are skipped.  A callback may append entries while the walk
    runs, so the walk need not end: [fuel] bounds the number of steps and
    [None] means it ran out. *)
Fixpoint Set_forEach (fuel : nat) (ch : channel) (f : callback -> Eff world unit)
  (index : nat) (w : world) : option (completion unit * world) :=
  match fuel with
  | O => None
  | Datatypes.S fuel' =>
      let entries := subscribers ch (widgetSubscribers w) in
      match entries !! index with
      | None => Some (Normal tt, w)
      | Some None => Set_forEach fuel' ch f (Datatypes.S index) w
      | Some (Some c) =>
          match f c w with
          | (Normal _, w') => Set_forEach fuel' ch f (Datatypes.S index) w'
          | (Throw e, w') => Some (Throw e, w')
          end
      end
  end.

Definition notifyWidgets (fuel : nat) (beh : behaviour) (streamName : string)
  (data : P) (w : world) : option (completion unit * world) :=
  match lookup_stream streamName with
  | OwnSet ch => Set_forEach fuel ch (notify_one beh data) 0 w
  | Inherited => Some (Throw "TypeError: widgetSubscribers[streamName].forEach is not a function", w)
  | Undefined => Some (Normal tt, w)
  end.

(** The invocations a publish added to the record. *)
Definition new_calls (before after : world) : list (callback * P) :=
  drop (length (invoked before)) (invoked after).

(** A callback that never changes the subscriptions of [ch]. *)
Definition quiet_on (beh : behaviour) (ch : channel) (c : callback) : Prop :=
  forall data s, List.filter (on_channel ch) (bus_calls (beh c data s)) = [].

(** A callback whose only change to the subscriptions of [ch], every time
    it runs, is the one call [op]. *)
Definition only_call_on (beh : behaviour) (ch : channel) (c : callback)
  (op : bus_call) : Prop :=
  forall data s, List.filter (on_channel ch) (bus_calls (beh c data s)) = [op].

(** The same callbacks, with every abrupt completion replaced by a normal
    one. *)
Definition without_throws (beh : behaviour) : behaviour :=
  fun c data s =>
    let r := beh c data s in
    {| bus_calls := bus_calls r; state_after := state_after r; throws := false |}.

(** The callbacks a publish invoked, in order. *)
Definition invoked_by (before after : world) : list callback :=
  map fst (new_calls before after).

End Publish.

Arguments reaction : clear implicits.
Arguments behaviour : clear implicits.
Arguments world : clear implicits.

End Bus.

(** ** components/canvas.js: zoom state *)

Module Canvas.

Local Open Scope Q_scope.

Record canvas : Type := {
  scale : Q;
  minScale : Q;
  maxScale : Q;
  isZooming : bool;
  lastTouchDistance : Q
}.

(** The zoom fields as the constructor sets them. *)
Definition constructor : canvas :=
  {| scale := 1; minScale := 1 # 4; maxScale := 2;
     isZooming := false; lastTouchDistance := 0 |}.

Definition Math_min (a b : Q) : Q := if Qle_bool a b then a else b.
Definition Math_max (a b : Q) : Q := if Qle_bool a b then b else a.

(** [setScale]: the assignment; [updateCanvasSize] and the console output
    that follow touch the DOM only. *)
Definition setScale (newScale : Q) (c : canvas) : canvas :=
  {| scale := newScale; minScale := minScale c; maxScale := maxScale c;
     isZooming := isZooming c; lastTouchDistance := lastTouchDistance c |}.

Record KeyboardEvent : Type := { ctrlKey : bool; metaKey : bool; key : string }.

Definition handleKeyDown (e : KeyboardEvent) (c : canvas) : canvas :=
  if (ctrlKey e || metaKey e) && (String.eqb (key e) "=" || String.eqb (key e) "+") then
    let newScale := Math_min (maxScale c) (scale c * (12 # 10)) in
    setScale newScale c
  else if (ctrlKey e || metaKey e) && String.eqb (key e) "-" then
    let newScale := Math_max (minScale c) (scale c / (12 # 10)) in
    setScale newScale c
  else if (ctrlKey e || metaKey e) && String.eqb (key e) "0" then
    setScale 1 c
  else c.

Record Touch : Type := { clientX : Q; clientY : Q }.

Definition no_touch : Touch := {| clientX := 0; clientY := 0 |}.

Section Touches.
Context `{RT : Runtime}.

Definition getTouchDistance (touch1 touch2 : Touch) : Q :=
  let dx := clientX touch1 - clientX touch2 in
  let dy := clientY touch1 - clientY touch2 in
  Math_sqrt (dx * dx + dy * dy).

Definition handleTouchStart (touches : list Touch) (c : canvas) : canvas :=
  if (2 <=? length touches)%nat then
    let touch1 := nth 0 touches no_touch in
    let touch2 := nth 1 touches no_touch in
    {| scale := scale c; minScale := minScale c; maxScale := maxScale c;
       isZooming := true; lastTouchDistance := getTouchDistance touch1 touch2 |}
  else c.

Definition handleTouchMove (touches : list Touch) (c : canvas) : canvas :=
  if isZooming c && (2 <=? length touches)%nat then
    let touch1 := nth 0 touches no_touch in
    let touch2 := nth 1 touches no_touch in
    let currentDistance := getTouchDistance touch1 touch2 in
    let c :=
      if Qlt_le_dec 0 (lastTouchDistance c) then
        let scaleChange := currentDistance / lastTouchDistance c in
        let newScale := scale c * scaleChange in
        let newScale := Math_max (minScale c) (Math_min (maxScale c) newScale) in
        setScale newScale c
      else c in
    {| scale := scale c; minScale := minScale c; maxScale := maxScale c;
       isZooming := isZooming c; lastTouchDistance := currentDistance |}
  else c.

(** [handleTouchEnd], the zoom fields only. *)
Definition handleTouchEnd (touches : list Touch) (c : canvas) : canvas :=
  if (length touches <? 2)%nat then
    {| scale := scale c; minScale := minScale c; maxScale := maxScale c;
       isZooming := false; lastTouchDistance := 0 |}
  else c.

(** The listeners [setupEventListeners] registers that reach the zoom
    state. *)
Inductive event : Type :=
| keydown (e : KeyboardEvent)
| touchstart (touches : list Touch)
| touchmove (touches : list Touch)
| touchend (touches : list Touch).

Definition dispatch (c : canvas) (ev : event) : canvas :=
  match ev with
  | keydown e => handleKeyDown e c
  | touchstart ts => handleTouchStart ts c
  | touchmove ts => handleTouchMove ts c
  | touchend ts => handleTouchEnd ts c
  end.

End Touches.

(** The zoom interval of the specification. *)
Definition in_zoom_bounds (s : Q) : Prop := (1 # 4) <= s /\ s <= 2.

(** The zoom state the handlers keep: the two limits as the constructor
    set them, and a scale between them. *)
Definition zoom_ok (c : canvas) : Prop :=
  minScale c = 1 # 4 /\ maxScale c = 2 /\ in_zoom_bounds (scale c).

End Canvas.

(** ** utils/auto-layout.js *)

Module AutoLayout.

Local Open Scope Z_scope.

Definition GRID_SIZE : Z := 20.

Record size_t : Type := { width : Z; height : Z }.
Record widget : Type := { size : size_t }.
Record position : Type := { x : Z; y : Z }.

(** [this.margin = 1]: grid units between widgets. *)
Definition margin : Z := 1.

Record cursor : Type := {
  currentX : Z;
  currentY : Z;
  maxHeightInRow : Z;
  positions : list position
}.

(** One turn of the [for (const widget of widgets)] loop. *)
Definition place (canvasWidth canvasHeight : Z) (st : cursor) (w : widget) : cursor :=
  let widgetWidth := width (size w) in
  let widgetHeight := height (size w) in
  (* Check if widget fits in current row *)
  let '(currentX, currentY, maxHeightInRow) :=
    if canvasWidth <? currentX st + widgetWidth
    then (0, currentY st + maxHeightInRow st + margin, 0)
    else (currentX st, currentY st, maxHeightInRow st) in
  (* Check if widget fits in canvas height *)
  let currentY :=
    if canvasHeight <? currentY + widgetHeight
    then Z.max (currentY + widgetHeight + margin * 2) (currentY + 4)
    else currentY in
  {| currentX := currentX + widgetWidth + margin;
     currentY := currentY;
     maxHeightInRow := Z.max maxHeightInRow widgetHeight;
     positions := (positions st ++ [{| x := currentX; y := currentY |}])%list |}.

Definition start : cursor :=
  {| currentX := 0; currentY := 0; maxHeightInRow := 0; positions := [] |}.

(** [calculateLayout] on a canvas element of the given client size. *)
Definition calculateLayout (clientWidth clientHeight : Z) (widgets : list widget)
  : list position :=
  let canvasWidth := clientWidth / GRID_SIZE in
  let canvasHeight := clientHeight / GRID_SIZE in
  positions (fold_left (place canvasWidth canvasHeight) widgets start).

Definition getOptimalLayout (widgets : list widget) (canvasWidth canvasHeight : Z)
  : list position :=
  calculateLayout canvasWidth canvasHeight widgets.

(** The grid rectangles [[x, x+w) x [y, y+h)] of two placed widgets have no
    cell in common. *)
Definition disjoint (p : position) (s : size_t) (p' : position) (s' : size_t) : Prop :=
  x p + width s <= x p' \/ x p' + width s' <= x p \/
  y p + height s <= y p' \/ y p' + height s' <= y p.

(** Where the loop stands relative to a widget it has placed: the widget
    is in the current row, left of the cursor and no taller than the row,
    or it lies wholly above the current row. *)
Definition behind (st : cursor) (p : position) (s : size_t) : Prop :=
  (x p + width s <= currentX st /\
   y p + height s <= currentY st + maxHeightInRow st)
  \/ y p + height s <= currentY st.

(** The loop invariant: one position per placed widget, each behind the
    cursor, and no two overlapping. *)
Definition packed (st : cursor) (placed : list widget) : Prop :=
  length (positions st) = length placed
  /\ 0 <= maxHeightInRow st
  /\ (forall i p w, positions st !! i = Some p -> placed !! i = Some w ->
        behind st p (size w))
  /\ (forall i j pi pj wi wj, i <> j ->
        positions st !! i = Some pi -> placed !! i = Some wi ->
        positions st !! j = Some pj -> placed !! j = Some wj ->
        disjoint pi (size wi) pj (size wj)).

Definition positive (w : widget) : Prop := 0 < width (size w) /\ 0 < height (size w).

End AutoLayout.

(** ** Conversions to a primitive

    [String(v)], a template literal, a computed property key, arithmetic
    on [v], the DOM taking [v] for a string: an object is converted
    through its [toString] and [valueOf].  The values here are decoded
    from JSON and hold no function, so an object with an own [toString]
    property cannot be converted (the [valueOf] it inherits gives the
    object back): a TypeError.  Any other object answers
    [[object Object]]; an array joins the conversions of its elements. *)
Fixpoint converts (v : value) : bool :=
  match v with
  | VObj fields => negb (existsb (fun kv => String.eqb (fst kv) "toString") fields)
  | VArr l => forallb converts l
  | _ => true
  end.

(** [xs.map(f)] for a callback that may throw. *)
Fixpoint Array_map {A B : Type} (f : A -> completion B) (xs : list A)
  : completion (list B) :=
  match xs with
  | [] => Normal []
  | x :: rest =>
      match f x with
      | Throw e => Throw e
      | Normal y =>
          match Array_map f rest with
          | Throw e => Throw e
          | Normal ys => Normal (y :: ys)
          end
      end
  end.

Definition upper_ascii (c : ascii) : ascii :=
  let n := nat_of_ascii c in
  if (97 <=? n)%nat && (n <=? 122)%nat then ascii_of_nat (n - 32) else c.

Fixpoint toUpperCase (s : string) : string :=
  match s with
  | EmptyString => EmptyString
  | String c rest => String (upper_ascii c) (toUpperCase rest)
  end.

Fixpoint spaces (n : nat) : string :=
  match n with
  | O => ""
  | S n' => String " " (spaces n')
  end.

(** [s.padEnd(n)] *)
Definition padEnd (n : nat) (s : string) : string :=
  s ++ spaces (n - String.length s).

Section Conversions.
Context `{RT : Runtime}.

Definition ToString (v : value) : completion string :=
  if converts v then Normal (String_of v)
  else Throw "TypeError: Cannot convert object to primitive value".

(** [v ? `${v}` : ...] *)
Definition ToString_if_truthy (v : value) : completion (option string) :=
  if truthy v then
    match ToString v with
    | Throw e => Throw e
    | Normal s => Normal (Some s)
    end
  else Normal None.

End Conversions.

(** ** widgets/log-widget.js *)

Module LogStreamWidget.

(** A line as [formatLogLine] lays it out: the text of a string entry, or
    the six parts of a structured one.  [timeStr] is [None] where the
    line shows the time of rendering ([new Date().toLocaleTimeString()]),
    [id] is [None] where the line has no id part.  The texts are kept as
    the page shows them: [escapeHtml] writes the markup that shows its
    argument. *)
Inductive line : Type :=
| text_line (text : string)
| entry_line (timeStr : option string) (levelClass levelStr sectionStr : string)
    (id : option string) (text : string).

(** What the [.widget-content] element of the widget holds: the remove
    button [BaseWidget.createElement] puts there, the notice of
    [updateContent], or log lines. *)
Inductive content : Type :=
| remove_button
| waiting
| log_lines (logHtml : list line).

(** [element] is [null] until [createElement]. *)
Record t : Type := {
  maxLines : nat;
  logLines : list value;
  element : option content
}.

Definition constructor : t := {| maxLines := 50; logLines := []; element := None |}.

Definition set_logLines (lines : list value) (w : t) : t :=
  {| maxLines := maxLines w; logLines := lines; element := element w |}.

Definition set_innerHTML (c : content) (w : t) : t :=
  {| maxLines := maxLines w; logLines := logLines w; element := Some c |}.

(** [lines.slice(-n)]; [slice(-0)] is [slice(0)], the whole array. *)
Definition slice_last (n : nat) (lines : list value) : list value :=
  match n with
  | O => lines
  | _ => drop (length lines - n) lines
  end.

(** The [switch] on [level.toUpperCase()]. *)
Definition levelClass_of (level : string) : string :=
  let upper := toUpperCase level in
  if String.eqb upper "ERROR" then "text-red-300"
  else if String.eqb upper "WARN" || String.eqb upper "WARNING" then "text-yellow-300"
  else if String.eqb upper "INFO" then "text-blue-300"
  else if String.eqb upper "DEBUG" then "text-gray-300"
  else "text-slate-300".

Section WithRuntime.
Context `{RT : Runtime}.

(** [formatLogLine].  Destructuring [null] or [undefined] is a TypeError,
    and so are [level.toUpperCase()] and [section.padEnd(10)] on anything
    but a string, and the conversion of an object that has none. *)
Definition formatLogLine (logEntry : value) : completion line :=
  match logEntry with
  | VStr text => Normal (text_line text)
  | VUndef | VNull => Throw "TypeError: Cannot destructure a null or undefined entry"
  | _ =>
      (* Handle structured log entries *)
      let timestamp := get logEntry "timestamp" in
      let level := get_default logEntry "level" (VStr "INFO") in
      let section := get_default logEntry "section" (VStr "unknown") in
      let message := get logEntry "message" in
      let id := get logEntry "id" in
      match level with
      | VStr level =>
          let levelClass := levelClass_of level in
          let levelStr := padEnd 5 level in
          match section with
          | VStr section =>
              let sectionStr := substring 0 10 (padEnd 10 section) in
              match ToString_if_truthy timestamp with
              | Throw e => Throw e
              | Normal timeStr =>
                  match ToString_if_truthy id with
                  | Throw e => Throw e
                  | Normal id =>
                      match ToString (if truthy message then message else logEntry) with
                      | Throw e => Throw e
                      | Normal text =>
                          Normal (entry_line timeStr levelClass levelStr sectionStr id text)
                      end
                  end
              end
          | _ => Throw "TypeError: section.padEnd is not a function"
          end
      | _ => Throw "TypeError: level.toUpperCase is not a function"
      end
  end.

(** [updateContent]: the lines are formatted before [innerHTML] is
    assigned, so a line that cannot be formatted leaves the content as it
    was.  (The remove button [ensureCloseButton] puts back and the scroll
    position are not kept.) *)
Definition updateContent : Eff t unit :=
  fun w =>
    match element w with
    | None => (Throw "TypeError: this.element is null", w)
    | Some _ =>
        if (length (logLines w) =? 0)%nat then (Normal tt, set_innerHTML waiting w)
        else
          match Array_map formatLogLine (slice_last (maxLines w) (logLines w)) with
          | Throw e => (Throw e, w)
          | Normal logHtml => (Normal tt, set_innerHTML (log_lines logHtml) w)
          end
    end.

(** [createElement]: the element of [BaseWidget.createElement], then
    [updateContent]; [subscribeToUpdates] follows and subscribes [update]
    to the log channel. *)
Definition createElement : Eff t unit :=
  fun w => updateContent (set_innerHTML remove_button w).

Definition addLogEntry (entry : value) : Eff t unit :=
  fun w =>
    let logLines := (logLines w ++ [entry])%list in
    (* Keep only the last maxLines entries *)
    let logLines :=
      if (maxLines w * 2 <? length logLines)%nat
      then slice_last (maxLines w) logLines
      else logLines in
    updateContent (set_logLines logLines w).


Definition update (data : value) : Eff t unit :=
  if truthy data then addLogEntry data else ret tt.


(** A widget with its element. *)
Definition created : t := snd (createElement constructor).

(** A widget after the given log entries, oldest first, however each call
    of [addLogEntry] completes. *)
Definition after_entries (start : t) (entries : list value) : t :=
  fold_left (fun w entry => snd (addLogEntry entry w)) entries start.

(** The content is what [updateContent] would put there now, unless a
    line of the buffer cannot be formatted. *)
Definition up_to_date (w : t) : Prop :=
  exists c,
    element w = Some c
    /\ match logLines w with
       | [] => c = waiting
       | _ =>
           forall logHtml,
             Array_map formatLogLine (slice_last (maxLines w) (logLines w))
             = Normal logHtml ->
             c = log_lines logHtml
       end.

(** The lines shown are at most [maxLines]. *)
Definition short_view (w : t) : Prop :=
  forall logHtml, element w = Some (log_lines logHtml) ->
    (length logHtml <= maxLines w)%nat.

(** The buffer is the tail of the history, and is the whole history until
    it has been trimmed (after which it never drops below [maxLines]). *)
Definition retains (w : t) (history : list value) : Prop :=
  maxLines w = 50%nat
  /\ (length (logLines w) <= 100)%nat
  /\ exists older,
       history = (older ++ logLines w)%list
       /\ (older = [] \/ (50 <= length (logLines w))%nat).

(** What every call leaves: a buffer that is the tail of the history, at
    most [maxLines] lines shown and, once the widget has its element, a
    content that is up to date unless a line cannot be formatted. *)
Definition kept (w : t) (history : list value) : Prop :=
  retains w history /\ short_view w /\ (is_Some (element w) -> up_to_date w).

End WithRuntime.

End LogStreamWidget.

(** ** A runtime for the examples

    [plain] is a small stand-in for the builtins: it prints integers and
    short decimals, serializes without escapes in field order, and decodes
    the handful of messages the examples below send.  Each message is
    referred to by a short name that stands for its JSON text; any other
    text does not decode. *)

Module Examples.

Definition quote : string := String (ascii_of_nat 34) EmptyString.

Definition show_number (q : Q) : string :=
  let sign := if Qlt_le_dec q 0 then "-" else "" in
  let n := Z.to_N (Qfloor (Qabs q * inject_Z 1000000 + (1 # 2))%Q) in
  let whole := (n / 1000000)%N in
  let frac := (n mod 1000000)%N in
  if (frac =? 0)%N then sign ++ digits whole
  else
    let text := digits frac in
    sign ++ digits whole ++ "."
      ++ strip_trailing_zeros (zeros (6 - String.length text) ++ text).

Fixpoint stringify (v : value) : string :=
  match v with
  | VUndef | VNull => "null"
  | VBool true => "true"
  | VBool false => "false"
  | VNum q => show_number q
  | VStr s => quote ++ s ++ quote
  | VArr l =>
      "[" ++ (fix items (l : list value) : string :=
                match l with
                | [] => ""
                | x :: rest =>
                    stringify x ++ (match rest with [] => "" | _ => "," ++ items rest end)
                end) l ++ "]"
  | VObj fields =>
      "{" ++ (fix items (l : list (string * value)) : string :=
                match l with
                | [] => ""
                | (k, x) :: rest =>
                    quote ++ k ++ quote ++ ":" ++ stringify x
                      ++ (match rest with [] => "" | _ => "," ++ items rest end)
                end) fields ++ "}"
  end.

(** The messages of the examples: text and decoded value. *)
Definition cpu_temp_item : value :=
  VObj [("name", VStr "cpu_temp"); ("labels", VObj []);
        ("metric_type", VObj [("type", VStr "gauge"); ("value", VNum (85 # 2))]);
        ("last_updated", VNum 1000)].
Definition cpu_temp_message : value := VObj [("metrics", VArr [cpu_temp_item])].
Definition empty_metrics_message : value := VObj [("metrics", VArr [])].

(** A metric whose name marks it as memory, sent as 1 (KB). *)
Definition heap_item : value :=
  VObj [("name", VStr "heap_memory"); ("labels", VObj []);
        ("metric_type", VObj [("type", VStr "gauge"); ("value", VNum 1)]);
        ("last_updated", VNum 1000)].
(** A metric marked as memory by a unit hint only. *)
Definition hinted_item : value :=
  VObj [("name", VStr "foo"); ("labels", VObj []);
        ("metric_type", VObj [("type", VStr "gauge"); ("value", VNum 1);
                              ("unit", VStr "bytes")]);
        ("last_updated", VNum 1000)].
(** Two items, the second with a number where the name should be. *)
Definition half_bad_metrics : value :=
  VArr [heap_item;
        VObj [("name", VNum 5);
              ("metric_type", VObj [("type", VStr "gauge"); ("value", VNum 1)])]].

Definition order_btc : value :=
  VObj [("symbol", VStr "BTC/USD"); ("side", VStr "buy");
        ("order_qty", VNum 1); ("limit_price", VNum 50000)].
Definition order_eth : value :=
  VObj [("symbol", VStr "ETH/USD"); ("side", VStr "sell");
        ("qty", VNum 2); ("price", VNum 3000)].
Definition balance_message : value :=
  VObj [("balances", VArr [VObj [("asset", VStr "BTC"); ("total_balance", VNum 3)]]);
        ("open_orders", VArr [order_eth]);
        ("timestamp", VNum 1000)].
Definition bad_orders_message : value := VObj [("open_orders", VNum 5)].

Definition decode (msg : string) : option value :=
  if String.eqb msg "cpu_temp" then Some cpu_temp_message
  else if String.eqb msg "empty_metrics" then Some empty_metrics_message
  else if String.eqb msg "heap" then Some (VArr [heap_item])
  else if String.eqb msg "hinted" then Some (VArr [hinted_item])
  else if String.eqb msg "half_bad_metrics" then Some half_bad_metrics
  else if String.eqb msg "balance" then Some balance_message
  else if String.eqb msg "bad_orders" then Some bad_orders_message
  else if String.eqb msg "5" then Some (VNum 5)
  else None.

(** The square root of the perfect squares the examples use. *)
Definition sqrt_floor (q : Q) : Q := inject_Z (Z.sqrt (Qfloor q)).

Definition plain : Runtime :=
  {| JSON_parse := decode; JSON_stringify := stringify;
     Number_toString := show_number; Math_sqrt := sqrt_floor |}.

(** A cache holding one open order from an earlier message. *)
Definition cache_with_order : cache :=
  {| telemetryData := dict_empty; balanceData := dict_empty;
     openOrdersData := [order_btc]; systemData := dict_empty |}.

(** Three widgets subscribed to the telemetry channel, in this order. *)
Definition three_subscribers : Bus.registry :=
  {| Bus.telemetry_set := [Some 0%nat; Some 1%nat; Some 2%nat];
     Bus.balance_set := []; Bus.system_set := []; Bus.log_set := [] |}.

Definition world_of (r : Bus.registry) : Bus.world unit unit :=
  {| Bus.widgetSubscribers := r; Bus.program := tt; Bus.invoked := [] |}.

(** Callback [bad] throws; nobody touches the subscriptions. *)
Definition one_throws (bad : Bus.callback) : Bus.behaviour unit unit :=
  fun c _ s =>
    {| Bus.bus_calls := []; Bus.state_after := s; Bus.throws := Nat.eqb c bad |}.

(** Callback [a] makes the bus call [op] every time it runs. *)
Definition one_calls (a : Bus.callback) (op : Bus.bus_call) : Bus.behaviour unit unit :=
  fun c _ s =>
    {| Bus.bus_calls := if Nat.eqb c a then [op] else [];
       Bus.state_after := s; Bus.throws := false |}.

(** A pinch with the two fingers 30 px apart, then 300 px apart. *)
Definition fingers_near : list Canvas.Touch :=
  [{| Canvas.clientX := 0; Canvas.clientY := 0 |};
   {| Canvas.clientX := 30; Canvas.clientY := 0 |}].
Definition fingers_far : list Canvas.Touch :=
  [{| Canvas.clientX := 0; Canvas.clientY := 0 |};
   {| Canvas.clientX := 300; Canvas.clientY := 0 |}].

Definition widget_4x3 : AutoLayout.widget :=
  {| AutoLayout.size := {| AutoLayout.width := 4; AutoLayout.height := 3 |} |}.

End Examples.

(** ** Runs of the subscription bus *)

Module BusRuns.
Import Bus.

(** The registry after a sequence of calls of the two exported functions,
    starting from the initial one. *)
Definition replay (ops : list bus_call) : registry :=
  fold_left (fun reg op => do_bus_call op reg) ops widgetSubscribers_init.

(** [callbacks.forEach(c => subscribeToStream(streamName, c))] *)
Definition subscribe_all (streamName : string) (cs : list callback) (r : registry)
  : registry :=
  fold_left (fun r c => snd (subscribeToStream streamName c r)) cs r.

(** A world around a registry, with nothing invoked yet. *)
Definition fresh_world {P S : Type} (r : registry) (s : S) : world P S :=
  {| widgetSubscribers := r; program := s; invoked := [] |}.

(** A callback that, every time it runs, unsubscribes itself from [ch] and
    subscribes itself again (and does nothing else to [ch]). *)
Definition resubscribes_itself {P S : Type} (beh : behaviour P S) (ch : channel)
  (a : callback) : Prop :=
  forall data s,
    List.filter (on_channel ch) (bus_calls (beh a data s))
    = [Unsubscribe ch a; Subscribe ch a].

End BusRuns.

Module BusSamples.

(** Callback [a] unsubscribes and re-subscribes itself on the telemetry
    channel every time it runs. *)
Definition restless (a : Bus.callback) : Bus.behaviour unit unit :=
  fun c _ s =>
    {| Bus.bus_calls :=
         if Nat.eqb c a
         then [Bus.Unsubscribe Bus.telemetry a; Bus.Subscribe Bus.telemetry a]
         else [];
       Bus.state_after := s; Bus.throws := false |}.

(** Nobody throws, nobody touches the subscriptions. *)
Definition calm : Bus.behaviour unit unit :=
  fun _ _ s => {| Bus.bus_calls := []; Bus.state_after := s; Bus.throws := false |}.

End BusSamples.

(** ** Reading the cached streams' messages *)

Section MessageFields.
Context `{RT : Runtime}.

(** The fields [parseSystemMessage] does not cache: the reserved keys and
    nested objects (arrays and null are cached). *)
Definition system_skips (kv : string * value) : bool :=
  let '(key, value) := kv in
  String.eqb key "type" || String.eqb key "timestamp"
  || (negb (Array_isArray value) && typeof_object value
      && negb (match value with VNull => true | _ => false end)).

(** The top-level fields of a system message (none when the text does not
    decode to an object). *)
Definition system_fields (msg : string) : list (string * value) :=
  match JSON_parse msg with
  | Some data =>
      if negb (truthy data) || negb (typeof_object data) then []
      else Object_entries data
  | None => []
  end.

(** The [timestamp] of a message ([undefined] when it has none). *)
Definition message_timestamp (msg : string) : value :=
  match JSON_parse msg with
  | Some data => get data "timestamp"
  | None => VUndef
  end.

(** The entry [parseSystemMessage] builds for a field. *)
Definition system_record (key : string) (v last_updated : value) : value :=
  VObj [("name", VStr key); ("value", v); ("last_updated", last_updated)].

(** The keys of the three dictionaries of the cache. *)
Definition telemetry_keys (c : cache) : gset string := dom (own (telemetryData c)).
Definition balance_keys (c : cache) : gset string := dom (own (balanceData c)).
Definition system_keys (c : cache) : gset string := dom (own (systemData c)).

(** The keys of the second cache include those of the first. *)
Definition grows (c c' : cache) : Prop :=
  telemetry_keys c ⊆ telemetry_keys c'
  /\ balance_keys c ⊆ balance_keys c'
  /\ system_keys c ⊆ system_keys c'.

(** A sequence of property assignments on a dictionary, oldest first. *)
Definition assign_all (writes : list (string * value)) (d : dict) : dict :=
  fold_left (fun d kv => dict_assign (fst kv) (snd kv) d) writes d.


End MessageFields.

(** ** System messages of the examples *)

Module SystemSamples.

Definition system_message : value :=
  VObj [("type", VStr "system"); ("timestamp", VNum 1000);
        ("cpu_usage", VNum 12); ("core_usages", VArr [VNum 10; VNum 14]);
        ("disk", VObj [("free", VNum 5)])].

(** A later message without [cpu_usage]. *)
Definition uptime_message : value :=
  VObj [("type", VStr "system"); ("timestamp", VNum 2000); ("uptime", VNum 77)].

Definition decode (msg : string) : option value :=
  if String.eqb msg "system" then Some system_message
  else if String.eqb msg "uptime" then Some uptime_message
  else if String.eqb msg "5" then Some (VNum 5)
  else None.

Definition runtime : Runtime :=
  {| JSON_parse := decode; JSON_stringify := Examples.stringify;
     Number_toString := Examples.show_number; Math_sqrt := Examples.sqrt_floor |}.

End SystemSamples.

(** ** components/canvas.js, utils/drag-drop.js: widgets on the grid

    Widget objects live in a store and are named by reference: the canvas
    map and the drag manager both point at the same objects.  Distinct
    widgets have distinct [position] objects.  Of the DOM, the model keeps
    the [left] and [top] of each widget element's style (always written by
    the code as a number of pixels); sizes the browser reports
    ([offsetWidth], [getBoundingClientRect]) are arguments. *)

Module Page.

Local Open Scope Q_scope.

Definition GRID_SIZE : Q := 20.

(** [Math.round]: the nearest integer, the larger one on a tie. *)
Definition Math_round (v : Q) : Q := inject_Z (Qfloor (v + (1 # 2))).

Record point : Type := { x : Q; y : Q }.
Record size_t : Type := { width : Q; height : Q }.

(** [element.style.left] and [element.style.top], in pixels. *)
Record CSSStyle : Type := { left_px : Q; top_px : Q }.

(** widgets/base-widget.js: [element] is [null] until [createElement]. *)
Record widget : Type := {
  id : string;
  position : point;
  size : size_t;
  element : option CSSStyle
}.

(** The fields of a widget configuration the constructor reads. *)
Record widgetConfig : Type := {
  config_id : option string;
  config_position : option point;
  config_size : option size_t
}.

(** [new BaseWidget(config)]; [generated] is what [generateId()] returns. *)
Definition BaseWidget (generated : string) (config : widgetConfig) : widget :=
  {| id := match config_id config with
           | Some s => if String.eqb s "" then generated else s
           | None => generated
           end;
     position := match config_position config with
                 | Some p => p
                 | None => {| x := 0; y := 0 |}
                 end;
     size := match config_size config with
             | Some s => s
             | None => {| width := 4; height := 3 |}
             end;
     element := None |}.

(** [BaseWidget.createElement], the style it sets. *)
Definition createElement (w : widget) : widget :=
  {| id := id w; position := position w; size := size w;
     element := Some {| left_px := x (position w) * GRID_SIZE;
                        top_px := y (position w) * GRID_SIZE |} |}.

(** [Math.ceil] *)
Definition Math_ceil (v : Q) : Q := inject_Z (Qceiling v).

(** [BaseWidget.autoSize]; [scrollWidth] and [scrollHeight] are those of
    the widget's content element. *)
Definition autoSize (scrollWidth scrollHeight : Q) (w : widget) : widget :=
  match element w with
  | None => w
  | Some _ =>
      let gridWidth := Math_ceil (scrollWidth / GRID_SIZE) in
      let gridHeight := Math_ceil (scrollHeight / GRID_SIZE) in
      if negb (Qeq_bool gridWidth (width (size w)))
         || negb (Qeq_bool gridHeight (height (size w)))
      then {| id := id w; position := position w;
              size := {| width := gridWidth; height := gridHeight |};
              element := element w |}
      else w
  end.

Record DragDropManager : Type := {
  draggedWidget : option nat;
  dragOffset : point;
  isDragging : bool;
  justFinishedDrag : bool;
  (** how many times [startDrag] has added its four listeners to
      [document] *)
  document_listeners : nat
}.

Record page : Type := {
  objects : list widget;
  zoom : Canvas.canvas;
  (** [canvas.widgets]: a Map from id to widget, in insertion order *)
  widgets : list (string * nat);
  baseWidth : Q;
  baseHeight : Q;
  dragDropManager : DragDropManager
}.

Definition set_objects (objs : list widget) (pg : page) : page :=
  {| objects := objs; zoom := zoom pg; widgets := widgets pg;
     baseWidth := baseWidth pg; baseHeight := baseHeight pg;
     dragDropManager := dragDropManager pg |}.

Definition set_zoom (z : Canvas.canvas) (pg : page) : page :=
  {| objects := objects pg; zoom := z; widgets := widgets pg;
     baseWidth := baseWidth pg; baseHeight := baseHeight pg;
     dragDropManager := dragDropManager pg |}.

Definition set_widgets (ws : list (string * nat)) (pg : page) : page :=
  {| objects := objects pg; zoom := zoom pg; widgets := ws;
     baseWidth := baseWidth pg; baseHeight := baseHeight pg;
     dragDropManager := dragDropManager pg |}.

Definition set_base (w h : Q) (pg : page) : page :=
  {| objects := objects pg; zoom := zoom pg; widgets := widgets pg;
     baseWidth := w; baseHeight := h;
     dragDropManager := dragDropManager pg |}.

Definition set_manager (m : DragDropManager) (pg : page) : page :=
  {| objects := objects pg; zoom := zoom pg; widgets := widgets pg;
     baseWidth := baseWidth pg; baseHeight := baseHeight pg;
     dragDropManager := m |}.

(** [new Canvas(container)] on a container of the given size: no widgets,
    the zoom of the constructor, a fresh drag manager. *)
Definition constructor (objs : list widget) (container : size_t) : page :=
  {| objects := objs; zoom := Canvas.constructor; widgets := [];
     baseWidth := width container; baseHeight := height container;
     dragDropManager :=
       {| draggedWidget := None; dragOffset := {| x := 0; y := 0 |};
          isDragging := false; justFinishedDrag := false;
          document_listeners := 0 |} |}.

(** *** The Map of widgets *)

Definition Map_has (k : string) (m : list (string * nat)) : bool :=
  existsb (fun e => String.eqb (fst e) k) m.

Definition Map_get (k : string) (m : list (string * nat)) : option nat :=
  option_map snd (List.find (fun e => String.eqb (fst e) k) m).

Definition Map_set (k : string) (r : nat) (m : list (string * nat))
  : list (string * nat) :=
  if Map_has k m
  then map (fun e => if String.eqb (fst e) k then (k, r) else e) m
  else (m ++ [(k, r)])%list.

Definition Map_delete (k : string) (m : list (string * nat)) : list (string * nat) :=
  List.filter (fun e => negb (String.eqb (fst e) k)) m.

(** *** Canvas *)

Definition snapToGrid (x y : Q) : point :=
  {| x := Math_round (x / GRID_SIZE) * GRID_SIZE;
     y := Math_round (y / GRID_SIZE) * GRID_SIZE |}.

Record DOMRect : Type := { rect_left : Q; rect_top : Q }.

(** [canvasRect] is [this.element.getBoundingClientRect()]. *)
Definition getGridPosition (canvasRect : DOMRect) (clientX clientY : Q) (pg : page)
  : point :=
  let canvasX := (clientX - rect_left canvasRect) / Canvas.scale (zoom pg) in
  let canvasY := (clientY - rect_top canvasRect) / Canvas.scale (zoom pg) in
  {| x := Math_round (canvasX / GRID_SIZE); y := Math_round (canvasY / GRID_SIZE) |}.

Definition constrainWidgetToBounds (r : nat) : Eff page unit :=
  fun pg =>
    match objects pg !! r with
    | None => (Normal tt, pg)
    | Some w =>
        let position := {| x := Canvas.Math_max 0 (x (position w));
                           y := Canvas.Math_max 0 (y (position w)) |} in
        match element w with
        | None =>
            (Throw "TypeError: widget.element is null",
             set_objects (<[r := {| id := id w; position := position; size := size w;
                                    element := None |}]> (objects pg)) pg)
        | Some _ =>
            (Normal tt,
             set_objects
               (<[r := {| id := id w; position := position; size := size w;
                          element := Some {| left_px := x position * GRID_SIZE;
                                             top_px := y position * GRID_SIZE |} |}]>
                  (objects pg)) pg)
        end
    end.

(** [container] is the canvas container, of which the code reads
    [offsetWidth] and [offsetHeight]. *)
Definition calculateWidgetBounds (container : size_t) (pg : page) : size_t :=
  if (length (widgets pg) =? 0)%nat then container
  else
    let edges :=
      fold_left
        (fun (m : Q * Q) (e : string * nat) =>
           match objects pg !! snd e with
           | Some w =>
               let widgetRight := x (position w) + width (size w) in
               let widgetBottom := y (position w) + height (size w) in
               (Canvas.Math_max (fst m) widgetRight, Canvas.Math_max (snd m) widgetBottom)
           | None => m
           end)
        (widgets pg) (0, 0) in
    let padding := 2 in
    {| width := (fst edges + padding) * GRID_SIZE;
       height := (snd edges + padding) * GRID_SIZE |}.

Definition updateCanvasToFitWidgets (container : size_t) (pg : page) : page :=
  let widgetBounds := calculateWidgetBounds container pg in
  let viewportWidth := width container in
  let viewportHeight := height container in
  set_base (Canvas.Math_max (width widgetBounds) viewportWidth)
           (Canvas.Math_max (height widgetBounds) viewportHeight) pg.

Definition addWidget (container : size_t) (r : nat) : Eff page unit :=
  fun pg =>
    match objects pg !! r with
    | None => (Normal tt, pg)
    | Some w =>
        if Map_has (id w) (widgets pg) then (Normal tt, pg) else
        (* Create widget element if it doesn't exist *)
        let pg := match element w with
                  | None => set_objects (<[r := createElement w]> (objects pg)) pg
                  | Some _ => pg
                  end in
        let pg := set_widgets (Map_set (id w) r (widgets pg)) pg in
        (run constrainWidgetToBounds r;
         modify (updateCanvasToFitWidgets container))%eff pg
    end.

(** [removeWidget]: the canvas part (the widget is also taken out of the
    persistent storage, asynchronously). *)
Definition removeWidget (container : size_t) (widgetId : string) (pg : page) : page :=
  match Map_get widgetId (widgets pg) with
  | Some _ =>
      updateCanvasToFitWidgets container
        (set_widgets (Map_delete widgetId (widgets pg)) pg)
  | None => pg
  end.

Definition handleResize (container : size_t) : Eff page unit :=
  fun pg =>
    let pg := updateCanvasToFitWidgets container pg in
    forEach (fun e => constrainWidgetToBounds (snd e)) (widgets pg) pg.

(** *** DragDropManager *)

(** A mouse event, or a touch event with at least one touch (as
    [touchstart] and [touchmove] have). *)
Inductive pointer_event : Type :=
| MouseEvent (clientX clientY : Q)
| TouchEvent (touch : Q * Q) (others : list (Q * Q)).

Definition getEventCoordinates (e : pointer_event) : Q * Q :=
  match e with
  | TouchEvent touch _ => touch
  | MouseEvent clientX clientY => (clientX, clientY)
  end.

Record coordinates : Type := {
  canvasX : Q; canvasY : Q; viewportX : Q; viewportY : Q
}.

Definition getCanvasCoordinates (canvasRect : DOMRect) (e : pointer_event) (pg : page)
  : coordinates :=
  let viewportCoords := getEventCoordinates e in
  {| canvasX := (fst viewportCoords - rect_left canvasRect) / Canvas.scale (zoom pg);
     canvasY := (snd viewportCoords - rect_top canvasRect) / Canvas.scale (zoom pg);
     viewportX := fst viewportCoords;
     viewportY := snd viewportCoords |}.

(** [parseFloat(widget.element.style.left) || 0] reads back the number
    the code wrote before [px]. *)
Definition startDrag (canvasRect : DOMRect) (e : pointer_event) (r : nat)
  : Eff page unit :=
  fun pg =>
    let m := dragDropManager pg in
    let pg := set_manager
                {| draggedWidget := Some r; dragOffset := dragOffset m;
                   isDragging := true; justFinishedDrag := justFinishedDrag m;
                   document_listeners := document_listeners m |} pg in
    let coords := getCanvasCoordinates canvasRect e pg in
    match objects pg !! r with
    | None => (Normal tt, pg)
    | Some w =>
        match element w with
        | None => (Throw "TypeError: widget.element is null", pg)
        | Some style =>
            let widgetLeft := left_px style in
            let widgetTop := top_px style in
            (Normal tt,
             set_manager
               {| draggedWidget := Some r;
                  dragOffset := {| x := canvasX coords - widgetLeft;
                                   y := canvasY coords - widgetTop |};
                  isDragging := true; justFinishedDrag := justFinishedDrag m;
                  document_listeners := Datatypes.S (document_listeners m) |} pg)
        end
    end.

(** [e.touches] of a touch event. *)
Definition touches (e : pointer_event) : list (Q * Q) :=
  match e with
  | MouseEvent _ _ => []
  | TouchEvent touch others => touch :: others
  end.

(** The [mousedown] listener [makeWidgetDraggable] puts on the element of
    widget [r]; [onRemoveButton] is
    [e.target.classList.contains('widget-remove-btn')]. *)
Definition mousedown (onRemoveButton : bool) (canvasRect : DOMRect) (e : pointer_event)
  (r : nat) : Eff page unit :=
  if onRemoveButton then ret tt else startDrag canvasRect e r.

(** Its [touchstart] listener. *)
Definition touchstart (onRemoveButton : bool) (canvasRect : DOMRect) (e : pointer_event)
  (r : nat) : Eff page unit :=
  fun pg =>
    if onRemoveButton then (Normal tt, pg)
    (* Don't start drag if canvas is currently in pinch-to-zoom gesture *)
    else if Canvas.isZooming (zoom pg) then (Normal tt, pg)
    (* Don't start drag if this might be part of a multi-touch gesture *)
    else if (1 <? length (touches e))%nat then (Normal tt, pg)
    else startDrag canvasRect e r pg.

Definition handleDrag (canvasRect : DOMRect) (e : pointer_event) : Eff page unit :=
  fun pg =>
    let m := dragDropManager pg in
    match isDragging m, draggedWidget m with
    | true, Some r =>
        let coords := getCanvasCoordinates canvasRect e pg in
        (* Calculate new position in canvas pixels *)
        let newX := canvasX coords - x (dragOffset m) in
        let newY := canvasY coords - y (dragOffset m) in
        (* Snap to grid *)
        let newX := Math_round (newX / GRID_SIZE) * GRID_SIZE in
        let newY := Math_round (newY / GRID_SIZE) * GRID_SIZE in
        let newX := Canvas.Math_max 0 newX in
        let newY := Canvas.Math_max 0 newY in
        match objects pg !! r with
        | None => (Normal tt, pg)
        | Some w =>
            match element w with
            | None => (Throw "TypeError: widget.element is null", pg)
            | Some _ =>
                (Normal tt,
                 set_objects
                   (<[r := {| id := id w;
                              position := {| x := Math_round (newX / GRID_SIZE);
                                             y := Math_round (newY / GRID_SIZE) |};
                              size := size w;
                              element := Some {| left_px := newX; top_px := newY |} |}]>
                      (objects pg)) pg)
            end
        end
    | _, _ => (Normal tt, pg)
    end.

(** [saved] is how [this.draggedWidget.savePosition()] completes (it
    writes to the persistent storage).  [bind] makes a new function at
    each call, so the four [removeEventListener] calls name listeners that
    were never added, and remove none. *)
Definition endDrag (container : size_t) (saved : completion unit) : Eff page unit :=
  fun pg =>
    let m := dragDropManager pg in
    match isDragging m, draggedWidget m with
    | true, Some r =>
        let stopped :=
          {| draggedWidget := Some r; dragOffset := dragOffset m;
             isDragging := false; justFinishedDrag := justFinishedDrag m;
             document_listeners := document_listeners m |} in
        match option_map element (objects pg !! r) with
        | Some None => (Throw "TypeError: widget.element is null", set_manager stopped pg)
        | _ =>
            match saved with
            | Throw error => (Throw error, set_manager stopped pg)
            | Normal _ =>
                (Normal tt,
                 set_manager
                   {| draggedWidget := None; dragOffset := dragOffset m;
                      isDragging := false; justFinishedDrag := true;
                      document_listeners := document_listeners m |}
                   (updateCanvasToFitWidgets container pg))
            end
        end
    | _, _ => (Normal tt, pg)
    end.

(** The callback of the [setTimeout] of [endDrag]. *)
Definition clear_justFinishedDrag (pg : page) : page :=
  let m := dragDropManager pg in
  set_manager
    {| draggedWidget := draggedWidget m; dragOffset := dragOffset m;
       isDragging := isDragging m; justFinishedDrag := false;
       document_listeners := document_listeners m |} pg.

(** The listeners of one kind that [document] holds all run on an event,
    one after the other, whether or not one of them throws. *)
Definition run_listeners (n : nat) (listener : Eff page unit) (pg : page) : page :=
  Nat.iter n (fun pg => snd (listener pg)) pg.

Section Events.
Context `{RT : Runtime}.

(** What can happen to the page: widgets are made and put on the canvas
    or taken off it, the window is resized, the canvas handles a zoom
    event, a widget resizes itself to its content, a widget element gets
    a [mousedown] or a [touchstart] (on its remove button or elsewhere),
    the document gets a move or an up event, the timer of [endDrag]
    fires. *)
Inductive event : Type :=
| NewWidget (generated : string) (config : widgetConfig)
| AddWidget (container : size_t) (r : nat)
| RemoveWidget (container : size_t) (widgetId : string)
| Resize (container : size_t)
| Zoom (ev : Canvas.event)
| AutoSize (scrollWidth scrollHeight : Q) (r : nat)
| PointerDown (onRemoveButton : bool) (canvasRect : DOMRect) (e : pointer_event) (r : nat)
| PointerMove (canvasRect : DOMRect) (e : pointer_event)
| PointerUp (container : size_t) (saved : completion unit)
| Timer.

Definition step (pg : page) (ev : event) : page :=
  match ev with
  | NewWidget generated config =>
      set_objects (objects pg ++ [BaseWidget generated config])%list pg
  | AddWidget container r => snd (addWidget container r pg)
  | RemoveWidget container widgetId => removeWidget container widgetId pg
  | Resize container => snd (handleResize container pg)
  | Zoom ev => set_zoom (Canvas.dispatch (zoom pg) ev) pg
  | AutoSize scrollWidth scrollHeight r =>
      set_objects (alter (autoSize scrollWidth scrollHeight) r (objects pg)) pg
  | PointerDown onRemoveButton canvasRect e r =>
      match e with
      | MouseEvent _ _ => snd (mousedown onRemoveButton canvasRect e r pg)
      | TouchEvent _ _ => snd (touchstart onRemoveButton canvasRect e r pg)
      end
  | PointerMove canvasRect e =>
      run_listeners (document_listeners (dragDropManager pg)) (handleDrag canvasRect e) pg
  | PointerUp container saved =>
      run_listeners (document_listeners (dragDropManager pg)) (endDrag container saved) pg
  | Timer => clear_justFinishedDrag pg
  end.

Definition play (evs : list event) (pg : page) : page := fold_left step evs pg.

End Events.

(** A widget of the canvas map. *)
Definition on_canvas (pg : page) (r : nat) (w : widget) : Prop :=
  (exists k, In (k, r) (widgets pg)) /\ objects pg !! r = Some w.

(** A widget with an element, drawn where its position says, and not left
    of or above the origin. *)
Definition in_place (w : widget) : Prop :=
  0 <= x (position w) /\ 0 <= y (position w)
  /\ exists style,
       element w = Some style
       /\ left_px style == x (position w) * GRID_SIZE
       /\ top_px style == y (position w) * GRID_SIZE.

(** Every entry of the canvas map points at a widget in place. *)
Definition tidy (pg : page) : Prop :=
  forall k r, In (k, r) (widgets pg) ->
    exists w, objects pg !! r = Some w /\ in_place w.

(** The base size of the canvas holds the widget with two cells to
    spare. *)
Definition holds (pg : page) (w : widget) : Prop :=
  (x (position w) + width (size w) + 2) * GRID_SIZE <= baseWidth pg
  /\ (y (position w) + height (size w) + 2) * GRID_SIZE <= baseHeight pg.

End Page.

Module PageSamples.

Definition viewport : Page.size_t := {| Page.width := 800; Page.height := 600 |}.

(** A widget configured at cell (2, 3), four cells by three. *)
Definition config : Page.widgetConfig :=
  {| Page.config_id := Some "w1";
     Page.config_position := Some {| Page.x := 2; Page.y := 3 |};
     Page.config_size := Some {| Page.width := 4; Page.height := 3 |} |}.

Definition zoom_in : Canvas.event :=
  Canvas.keydown {| Canvas.ctrlKey := true; Canvas.metaKey := false; Canvas.key := "+" |}.

(** The widget is made and put on the canvas, and the canvas is zoomed
    in once (to 120%). *)
Definition history : list Page.event :=
  [Page.NewWidget "generated" config; Page.AddWidget viewport 0; Page.Zoom zoom_in].

Definition canvasRect : Page.DOMRect := {| Page.rect_left := 100; Page.rect_top := 50 |}.

End PageSamples.

(** ** Runs of the log widget *)

Module LogRuns.
Import LogStreamWidget.

(** What reaches a log widget: a payload from the log stream, the
    periodic cleanup, a call of [clearLogs]. *)
Inductive op : Type :=
| Update (data : value)
| Cleanup
| ClearLogs.

Section WithRuntime.
Context `{RT : Runtime}.



End WithRuntime.


End LogRuns.

Module LogSamples.

(** A structured entry whose level is a number. *)
Definition level_five : value := VObj [("level", VNum 5); ("message", VStr "m")].

(** Fifty lines of text, then the entry that cannot be formatted. *)
Definition fifty_then_level_five : list value :=
  (VStr "first" :: replicate 49 (VStr "line") ++ [level_five])%list.

(** A structured entry as the log stream sends them. *)
Definition disk_full : value :=
  VObj [("type", VStr "log"); ("timestamp", VStr "12:00:01"); ("level", VStr "warn");
        ("section", VStr "storage"); ("message", VStr "disk full"); ("id", VNum 7)].

End LogSamples.

(** ** widgets/telemetry-widget.js: TelemetryMetricWidget *)

Module TelemetryMetricWidget.

(** What [telemetryData[key]] evaluates to: a value found on the
    dictionary or through the entry that replaced its prototype, a member
    of [Object.prototype] (or that prototype itself), or nothing. *)
Inductive looked_up : Type :=
| Found (v : value)
| Member
| Missing.

Definition dict_read (d : dict) (k : string) : looked_up :=
  if String.eqb k "__proto__" then
    match proto d with
    | Some p => Found p
    | None => Member
    end
  else
  match own d !! k with
  | Some v => Found v
  | None =>
      match match proto d with Some p => get p k | None => VUndef end with
      | VUndef =>
          if existsb (String.eqb k) Bus.Object_prototype_names then Member else Missing
      | v => Found v
      end
  end.

(** What the [.widget-content] element of the widget holds: the remove
    button [BaseWidget.createElement] puts there, the notice that there
    are no metrics, or the template of [updateContent] filled in from a
    metric. *)
Inductive content : Type :=
| remove_button
| no_metrics
| metric_card (metric : value).

(** [element] is [null] until [createElement]. *)
Record t : Type := {
  targetKey : value;
  selectedMetric : value;
  element : option content
}.

Definition set_selectedMetric (metric : value) (w : t) : t :=
  {| targetKey := targetKey w; selectedMetric := metric; element := element w |}.

Definition set_innerHTML (c : content) (w : t) : t :=
  {| targetKey := targetKey w; selectedMetric := selectedMetric w; element := Some c |}.

(** [name.replace(/_/g, ' ')] *)
Fixpoint replace_underscores (s : string) : string :=
  match s with
  | EmptyString => EmptyString
  | String c rest =>
      String (if Ascii.eqb c "_" then " "%char else c) (replace_underscores rest)
  end.

(** [String(v)] on the elements of an array of one to five, as
    [formatValue] calls it on those that are no numbers. *)
Definition short_array_converts (value : value) : bool :=
  match value with
  | VArr l =>
      if (length l =? 0)%nat then true
      else if (length l <=? 5)%nat
      then forallb (fun v => match v with VNum _ => true | _ => converts v end) l
      else true
  | _ => true
  end.

Section WithRuntime.
Context `{RT : Runtime}.

(** [Object.values]: the values of the own properties, in property
    order, which the dictionary model does not record. *)
Variable Object_values : dict -> list value.

(** The fields the constructor sets from [config.config?.key] and
    [config.config?.metricKey]. *)
Definition constructor (key metricKey : value) : t :=
  {| targetKey := if truthy key then key
                  else if truthy metricKey then metricKey else VNull;
     selectedMetric := VNull;
     element := None |}.

(** [this.targetKey && telemetryData[this.targetKey]]; the key is
    converted to a property name. *)
Definition target_metric (telemetryData : dict) (w : t) : completion looked_up :=
  if truthy (targetKey w) then
    match ToString (targetKey w) with
    | Throw e => Throw e
    | Normal key =>
        match dict_read telemetryData key with
        | Found v => Normal (if truthy v then Found v else Missing)
        | other => Normal other
        end
    end
  else Normal Missing.

(** The [labelsStr] of the template: [Object.keys] of [undefined] or
    [null] is a TypeError. *)
Definition labelsStr (labels : value) : completion string :=
  match labels with
  | VUndef | VNull => Throw "TypeError: Cannot convert undefined or null to object"
  | _ =>
      if (0 <? length (Object_entries labels))%nat then
        match Array_map
                (fun kv : string * value =>
                   match ToString (snd kv) with
                   | Throw e => Throw e
                   | Normal v => Normal (fst kv ++ ": " ++ v)
                   end)
                (Object_entries labels) with
        | Throw e => Throw e
        | Normal parts => Normal (join ", " parts)
        end
      else Normal ""
  end.

(** [formatValue] as the template calls it, with the conversion of array
    elements that can fail. *)
Definition call_formatValue (value metricName metric : value) : completion string :=
  if short_array_converts value then formatValue value metricName metric
  else Throw "TypeError: Cannot convert object to primitive value".

(** How [formatTimestamp(timestamp)] completes.  Its text is the local
    time of the machine; the multiplication converts the timestamp, and
    the [catch] calls the [toString] that the conversion found
    missing. *)
Definition formatTimestamp (timestamp : value) : completion unit :=
  if truthy timestamp && negb (converts timestamp)
  then Throw "TypeError: timestamp.toString is not a function"
  else Normal tt.

(** How the rate line of the template completes:
    [getMetricType(metric, name) === 'time' ? formatTime(cached_rate)
     : formatValue(cached_rate, name + '_rate', metric)];
    [formatTime] takes the absolute value of its argument first. *)
Definition rate_line (metric : value) (name : string) : completion unit :=
  let cached_rate := get metric "cached_rate" in
  if truthy cached_rate then
    match getMetricType metric (VStr name) with
    | Throw e => Throw e
    | Normal metricType =>
        if String.eqb metricType "time" then
          if converts cached_rate then Normal tt
          else Throw "TypeError: Cannot convert object to primitive value"
        else
          match call_formatValue cached_rate (VStr (name ++ "_rate")) metric with
          | Throw e => Throw e
          | Normal _ => Normal tt
          end
    end
  else Normal tt.

(** How the evaluation of the template for [metric] completes, part by
    part in the order of the source.  Only a string has [replace]. *)
Definition template (metric : value) : completion unit :=
  match labelsStr (get metric "labels") with
  | Throw e => Throw e
  | Normal _ =>
      match get metric "name" with
      | VStr name =>
          match call_formatValue (get metric "value") (VStr name) metric with
          | Throw e => Throw e
          | Normal _ =>
              match formatTimestamp (get metric "last_updated") with
              | Throw e => Throw e
              | Normal _ => rate_line metric name
              end
          end
      | _ => Throw "TypeError: metric.name.replace is not a function"
      end
  end.

(** The template is evaluated before [innerHTML] is assigned: a metric
    it fails on leaves the content as it was.  ([ensureCloseButton] and
    [autoSize] follow; they touch the remove button and the size of the
    widget.) *)
Definition show (metric : value) : Eff t unit :=
  fun w =>
    match template metric with
    | Throw e => (Throw e, w)
    | Normal _ => (Normal tt, set_innerHTML (metric_card metric) w)
    end.

(** [updateContent], given the telemetry cache.  A member of
    [Object.prototype] taken for a metric has no labels. *)
Definition updateContent (telemetryData : dict) : Eff t unit :=
  fun w =>
    match element w with
    | None => (Throw "TypeError: this.element is null", w)
    | Some _ =>
        match target_metric telemetryData w with
        | Throw e => (Throw e, w)
        | Normal (Found metric) => show metric w
        | Normal Member =>
            (Throw "TypeError: Cannot convert undefined or null to object", w)
        | Normal Missing =>
            (* Fallback: show first available metric *)
            let metrics := Object_values telemetryData in
            if (length metrics =? 0)%nat then (Normal tt, set_innerHTML no_metrics w)
            else
              let metric := if truthy (selectedMetric w) then selectedMetric w
                            else nth 0 metrics VUndef in
              show metric (set_selectedMetric metric w)
        end
    end.

(** A series of refreshes, one per state of the cache: how each
    completes and the widget it leaves. *)
Fixpoint refreshes (caches : list dict) (w : t) : list (completion unit * t) :=
  match caches with
  | [] => []
  | d :: rest =>
      let r := updateContent d w in
      r :: refreshes rest (snd r)
  end.

End WithRuntime.

End TelemetryMetricWidget.

Module MetricSamples.

Definition reading (labels : value) (q : Q) : value :=
  VObj [("metrics",
         VArr [VObj [("name", VStr "cpu_temp"); ("labels", labels);
                     ("metric_type", VObj [("type", VStr "gauge"); ("value", VNum q)]);
                     ("last_updated", VNum 1000)]])].

(** Two readings of the same gauge, and a reading whose labels are
    [null]. *)
Definition decode (msg : string) : option value :=
  if String.eqb msg "first" then Some (reading (VObj []) (85 # 2))
  else if String.eqb msg "second" then Some (reading (VObj []) (87 # 2))
  else if String.eqb msg "null labels" then Some (reading VNull (85 # 2))
  else None.

Definition runtime : Runtime :=
  {| JSON_parse := decode; JSON_stringify := Examples.stringify;
     Number_toString := Examples.show_number; Math_sqrt := Examples.sqrt_floor |}.

(** The values of a dictionary in the order of its keys. *)
Definition values_by_key (d : dict) : list value := map snd (map_to_list (own d)).

Definition after_first : dict :=
  telemetryData (process (RT := runtime) Telemetry ["first"] initial_cache).
Definition after_second : dict :=
  telemetryData (process (RT := runtime) Telemetry ["first"; "second"] initial_cache).
Definition after_null_labels : dict :=
  telemetryData (process (RT := runtime) Telemetry ["null labels"] initial_cache).

(** A widget made without a metric key, with the element
    [BaseWidget.createElement] gives it. *)
Definition keyless : TelemetryMetricWidget.t :=
  TelemetryMetricWidget.set_innerHTML TelemetryMetricWidget.remove_button
    (TelemetryMetricWidget.constructor VUndef VUndef).

End MetricSamples.

(** ** utils/websocket.js: the message handler of a stream *)

Module WebSocketStream.

(** White space and line terminators among the code units below 256. *)
Definition is_white_space (c : ascii) : bool :=
  let n := nat_of_ascii c in
  ((9 <=? n)%nat && (n <=? 13)%nat) || (n =? 32)%nat || (n =? 160)%nat.

Fixpoint all_white_space (s : string) : bool :=
  match s with
  | EmptyString => true
  | String c rest => is_white_space c && all_white_space rest
  end.

(** [!msg || msg.trim() === ''] *)
Definition is_blank (msg : string) : bool := all_white_space msg.

(** What the widgets of a stream are called with.  The three structured
    payloads hold the stores of the cache themselves. *)
Inductive payload : Type :=
| telemetry_update (telemetryData : dict)
| balance_update (balances : dict) (orders : list value)
| system_update (systemData : dict)
| log_entry (logData : value).

Section WithRuntime.
Context `{RT : Runtime} {S : Type}.

Record state : Type := { data : cache; bus : Bus.world payload S }.

(** The payload of a structured stream, read off the cache. *)
Definition update_of (s : stream) (c : cache) : payload :=
  match s with
  | Telemetry => telemetry_update (telemetryData c)
  | Balance => balance_update (balanceData c) (openOrdersData c)
  | System => system_update (systemData c)
  end.

Definition structured (streamName : string) : option stream :=
  if String.eqb streamName "telemetry" then Some Telemetry
  else if String.eqb streamName "balance" then Some Balance
  else if String.eqb streamName "system" then Some System
  else None.

(** [ws.onmessage] of [connectStream(streamName)] on a text message;
    [None] when the publish runs out of fuel.  Neither the parsers nor
    [notifyWidgets] on these names throw, so the outer [catch] is not
    reached. *)
Definition onmessage (fuel : nat) (beh : Bus.behaviour payload S) (streamName : string)
  (msg : string) (st : state) : option state :=
  if is_blank msg then Some st else
  if String.eqb streamName "log" then
    let logData := match JSON_parse msg with
                   | Some v => v
                   | None => VStr msg
                   end in
    match Bus.notifyWidgets fuel beh "log" (log_entry logData) (bus st) with
    | Some (_, w) => Some {| data := data st; bus := w |}
    | None => None
    end
  else
    match structured streamName with
    | Some s =>
        let c := snd (parse s msg (data st)) in
        match Bus.notifyWidgets fuel beh streamName (update_of s c) (bus st) with
        | Some (_, w) => Some {| data := c; bus := w |}
        | None => None
        end
    | None => Some st
    end.

Definition stream_channel (s : stream) : Bus.channel :=
  match s with
  | Telemetry => Bus.telemetry
  | Balance => Bus.balance
  | System => Bus.system
  end.

End WithRuntime.

Arguments state : clear implicits.

End WebSocketStream.

Module StreamSamples.
Import WebSocketStream.

(** Three widgets subscribed to the balance channel; nobody throws or
    touches the subscriptions. *)
Definition balance_subscribers : Bus.world payload unit :=
  {| Bus.widgetSubscribers :=
       {| Bus.telemetry_set := []; Bus.balance_set := [Some 0%nat; Some 1%nat; Some 2%nat];
          Bus.system_set := []; Bus.log_set := [] |};
     Bus.program := tt; Bus.invoked := [] |}.

(** One widget subscribed to the log channel. *)
Definition log_subscriber : Bus.world payload unit :=
  {| Bus.widgetSubscribers :=
       {| Bus.telemetry_set := []; Bus.balance_set := [];
          Bus.system_set := []; Bus.log_set := [Some 7%nat] |};
     Bus.program := tt; Bus.invoked := [] |}.

Definition calm : Bus.behaviour payload unit :=
  fun _ _ s => {| Bus.bus_calls := []; Bus.state_after := s; Bus.throws := false |}.

End StreamSamples.

(** ** utils/storage.js: StorageManager

    [this.config] is an object whose [widgets] property points at an
    array; [{ ...this.config }] copies the properties, so the copy points
    at the same array.  Arrays therefore live in a store and are named by
    reference.  The model covers the configurations the manager itself
    writes: an object with an array under [widgets].  The property names
    of widget objects are not array indices. *)

Module StorageManager.

(** The properties of a configuration object, in order: those before
    [widgets], the array [widgets] points at, those after. *)
Record config_t : Type := {
  before : list (string * value);
  widgets : nat;
  after : list (string * value)
}.

Record t : Type := {
  arrays : list (list value);
  config : config_t;
  (** the item under [STORAGE_KEY] *)
  localStorage : option string
}.

Definition array_at (arrays : list (list value)) (ref : nat) : list value :=
  default [] (arrays !! ref).

(** The configuration as a value, for [JSON.stringify]. *)
Definition config_value (arrays : list (list value)) (cfg : config_t) : value :=
  VObj (before cfg ++ [("widgets", VArr (array_at arrays (widgets cfg)))] ++ after cfg).

(** [w.id === widgetId] for the string [widgetId]; reading a property of
    [null] or [undefined] throws. *)
Definition has_id (widgetId : string) (w : value) : completion bool :=
  match w with
  | VNull | VUndef => Throw "TypeError: cannot read properties of null"
  | _ => Normal (is_string (get w "id") widgetId)
  end.

(** [ws.findIndex(w => w.id === widgetId)], from index [i] on. *)
Fixpoint findIndex (widgetId : string) (ws : list value) (i : nat)
  : completion (option nat) :=
  match ws with
  | [] => Normal None
  | w :: rest =>
      match has_id widgetId w with
      | Throw e => Throw e
      | Normal true => Normal (Some i)
      | Normal false => findIndex widgetId rest (Datatypes.S i)
      end
  end.

(** [ws.find(w => w.id === widgetId)] *)
Fixpoint find (widgetId : string) (ws : list value) : completion value :=
  match ws with
  | [] => Normal VUndef
  | w :: rest =>
      match has_id widgetId w with
      | Throw e => Throw e
      | Normal true => Normal w
      | Normal false => find widgetId rest
      end
  end.

(** [ws.filter(w => w.id !== widgetId)] *)
Fixpoint filter_out (widgetId : string) (ws : list value) : completion (list value) :=
  match ws with
  | [] => Normal []
  | w :: rest =>
      match has_id widgetId w with
      | Throw e => Throw e
      | Normal found =>
          match filter_out widgetId rest with
          | Throw e => Throw e
          | Normal kept => Normal (if found then kept else w :: kept)
          end
      end
  end.

(** [{ ...a, ...b }] *)
Definition merge (a b : value) : value :=
  VObj (fold_left (fun fields kv => set_field (fst kv) (snd kv) fields)
          (spread b) (spread a)).

Section WithRuntime.
Context `{RT : Runtime}.

(** A manager made when nothing usable is stored: the default
    configuration. *)
Definition constructor : t :=
  {| arrays := [[]];
     config := {| before := [("version", VStr "1.0")]; widgets := 0; after := [] |};
     localStorage := None |}.

(** [saveConfig]; [stored] tells whether [localStorage.setItem] accepts
    the text (it throws when the quota is exceeded, and the [catch] only
    logs). *)
Definition saveConfig (stored : bool) (cfg : config_t) (m : t) : t :=
  if stored
  then {| arrays := arrays m; config := cfg;
          localStorage := Some (JSON_stringify (config_value (arrays m) cfg)) |}
  else m.

Definition addWidget (stored : bool) (widgetConfig : value) (m : t) : t :=
  let config := config m in
  (* config.widgets.push(widgetConfig) *)
  let m := {| arrays := alter (fun ws => (ws ++ [widgetConfig])%list) (widgets config)
                          (arrays m);
              config := StorageManager.config m; localStorage := localStorage m |} in
  saveConfig stored config m.

Definition updateWidget (stored : bool) (widgetId : string) (updates : value)
  : Eff t unit :=
  fun m =>
    let config := config m in
    match findIndex widgetId (array_at (arrays m) (widgets config)) 0 with
    | Throw e => (Throw e, m)
    | Normal None => (Normal tt, m)
    | Normal (Some widgetIndex) =>
        let m := {| arrays :=
                      alter (alter (fun w => merge w updates) widgetIndex)
                        (widgets config) (arrays m);
                    config := StorageManager.config m;
                    localStorage := localStorage m |} in
        (Normal tt, saveConfig stored config m)
    end.

Definition removeWidget (stored : bool) (widgetId : string) : Eff t unit :=
  fun m =>
    match filter_out widgetId (array_at (arrays m) (widgets (config m))) with
    | Throw e => (Throw e, m)
    | Normal kept =>
        (* the filtered array is a new one *)
        let config := {| before := before (config m);
                         widgets := length (arrays m);
                         after := after (config m) |} in
        let m := {| arrays := (arrays m ++ [kept])%list;
                    config := StorageManager.config m;
                    localStorage := localStorage m |} in
        (Normal tt, saveConfig stored config m)
    end.

(** [this.config.widgets || []] *)
Definition getWidgets (m : t) : list value := array_at (arrays m) (widgets (config m)).

Definition getWidgetById (widgetId : string) (m : t) : completion value :=
  find widgetId (array_at (arrays m) (widgets (config m))).

Definition clearAll (stored : bool) (m : t) : t :=
  let config := {| before := [("version", VStr "1.0")];
                   widgets := length (arrays m); after := [] |} in
  saveConfig stored config
    {| arrays := (arrays m ++ [[]])%list; config := StorageManager.config m;
       localStorage := localStorage m |}.

(** The properties of an object before and after the first one named
    [widgets]. *)
Fixpoint around_widgets (fields : list (string * value))
  : list (string * value) * list (string * value) :=
  match fields with
  | [] => ([], [])
  | (k, v) :: rest =>
      if String.eqb k "widgets" then ([], rest)
      else let '(b, a) := around_widgets rest in ((k, v) :: b, a)
  end.

Definition importConfig (stored : bool) (jsonString : string) (m : t) : bool * t :=
  match JSON_parse jsonString with
  | Some (VObj fields) =>
      match truthy (get (VObj fields) "version"), get (VObj fields) "widgets" with
      | true, VArr ws =>
          let config := {| before := fst (around_widgets fields);
                           widgets := length (arrays m);
                           after := snd (around_widgets fields) |} in
          (true,
           saveConfig stored config
             {| arrays := (arrays m ++ [ws])%list; config := StorageManager.config m;
                localStorage := localStorage m |})
      | _, _ => (false, m)
      end
  | _ => (false, m)
  end.

(** What callers do to the manager. *)
Inductive call : Type :=
| AddWidget (stored : bool) (widgetConfig : value)
| UpdateWidget (stored : bool) (widgetId : string) (updates : value)
| RemoveWidget (stored : bool) (widgetId : string)
| ClearAll (stored : bool)
| ImportConfig (stored : bool) (jsonString : string).

Definition do_call (m : t) (c : call) : t :=
  match c with
  | AddWidget stored widgetConfig => addWidget stored widgetConfig m
  | UpdateWidget stored widgetId updates => snd (updateWidget stored widgetId updates m)
  | RemoveWidget stored widgetId => snd (removeWidget stored widgetId m)
  | ClearAll stored => clearAll stored m
  | ImportConfig stored jsonString => snd (importConfig stored jsonString m)
  end.

Definition after_calls (calls : list call) : t := fold_left do_call calls constructor.

(** What the storage would hold if the configuration in memory were
    saved now. *)
Definition in_memory (m : t) : string := JSON_stringify (config_value (arrays m) (config m)).

End WithRuntime.

End StorageManager.

Module StorageSamples.

Definition clock : value :=
  VObj [("id", VStr "clock"); ("type", VStr "log-stream");
        ("position", VObj [("x", VNum 0); ("y", VNum 0)])].
Definition gauge : value :=
  VObj [("id", VStr "gauge"); ("type", VStr "telemetry-metric");
        ("position", VObj [("x", VNum 5); ("y", VNum 0)])].

Definition meter : value :=
  VObj [("id", VStr "meter"); ("type", VStr "system-metric");
        ("position", VObj [("x", VNum 0); ("y", VNum 4)])].

(** The manager after two widgets were added and saved. *)
Definition two_widgets : StorageManager.t :=
  StorageManager.after_calls (RT := Examples.plain)
    [StorageManager.AddWidget true clock; StorageManager.AddWidget true gauge].

End StorageSamples.

(** ** Reading balance messages *)

Section BalanceFields.
Context `{RT : Runtime}.

(** The keys of [balanceData] a balance message can write: the [asset]
    of each entry of its [balances] array that has one. *)
Definition balance_assets (msg : string) : list string :=
  match JSON_parse msg with
  | Some data =>
      if negb (truthy data) || negb (typeof_object data) then []
      else
        match get_default data "balances" (VArr []) with
        | VArr balances =>
            omap (fun balance =>
                    if negb (truthy balance) || negb (truthy (get balance "asset"))
                    then None
                    else Some (String_of (get balance "asset")))
              balances
        | _ => []
        end
  | None => []
  end.

End BalanceFields.

Module HistogramSamples.

(** A histogram the server did not serialize. *)
Definition latency : value :=
  VObj [("name", VStr "latency"); ("labels", VObj []);
        ("metric_type",
         VObj [("type", VStr "histogram");
               ("data", VStr "histogram_data_not_serialized")]);
        ("last_updated", VNum 1000)].

End HistogramSamples.

(** * Properties *)

(** ** The monad *)

Lemma forEach_preserves {S A} (f : A -> Eff S unit) (Inv : S -> Prop) (xs : list A) :
  (forall x s, In x xs -> Inv s -> Inv (snd (f x s))) ->
  forall s, Inv s -> Inv (snd (forEach f xs s)).
Proof.
  induction xs as [|x xs IH]; intros Hstep s Hs; simpl; [exact Hs|].
  unfold bind. pose proof (Hstep x s (or_introl eq_refl) Hs) as Hx.
  destruct (f x s) as [[[]|e] s']; simpl in *; [|exact Hx].
  apply IH; [|exact Hx]. intros y t Hy. apply Hstep. now right.
Qed.

Lemma try_catch_console_normal {S} (body : Eff S unit) (s : S) :
  fst (try_catch body console_error s) = Normal tt.
Proof.
  unfold try_catch, console_error, ret.
  destruct (body s) as [[[]|e] s']; reflexivity.
Qed.

Lemma try_catch_console_state {S} (body : Eff S unit) (s : S) :
  snd (try_catch body console_error s) = snd (body s).
Proof.
  unfold try_catch, console_error, ret.
  destruct (body s) as [[[]|e] s']; reflexivity.
Qed.

(** ** The stream cache *)

Lemma dict_assign_other (k k' : string) (v : value) (d : dict) :
  k' <> k -> own (dict_assign k' v d) !! k = own d !! k.
Proof.
  intros Hne. unfold dict_assign.
  destruct (String.eqb k' "__proto__"); simpl; [reflexivity|].
  now rewrite lookup_insert_ne.
Qed.

Section CacheProperties.
Context `{RT : Runtime}.

(** One metric item either leaves the cache alone or assigns its own key. *)
Lemma telemetry_item_effect (item : value) (c : cache) :
  snd (telemetry_item item c) = c \/
  exists v, snd (telemetry_item item c)
            = set_telemetryData (dict_assign (item_key item) v) c.
Proof.
  unfold telemetry_item.
  destruct (negb (truthy item) || negb (typeof_object item)); [now left|].
  destruct (negb (truthy (get item "name")) || negb (truthy (get item "metric_type")));
    [now left|].
  destruct (negb (is_string _ "gauge") && negb (is_string _ "counter")
            && negb (is_string _ "histogram")); [now left|].
  unfold bind, lift, modify.
  destruct (processedValue _ _) as [v|e]; simpl; [right; eauto|now left].
Qed.

Lemma telemetry_item_frame (item : value) (k : string) (c : cache) :
  item_key item <> k ->
  own (telemetryData (snd (telemetry_item item c))) !! k = own (telemetryData c) !! k.
Proof.
  intros Hne. destruct (telemetry_item_effect item c) as [->|[v ->]]; [reflexivity|].
  simpl. now apply dict_assign_other.
Qed.

Lemma parseTelemetryMessage_frame (msg k : string) (c : cache) :
  message_omits k msg ->
  own (telemetryData (snd (parseTelemetryMessage msg c))) !! k
  = own (telemetryData c) !! k.
Proof.
  unfold message_omits, message_metrics, parseTelemetryMessage.
  rewrite try_catch_console_state. unfold parseTelemetryMessage_try.
  destruct (JSON_parse msg) as [data|]; [|reflexivity].
  destruct (telemetry_metrics data) as [metrics|]; [|reflexivity]. simpl.
  destruct (length metrics =? 0)%nat; [reflexivity|]. intros Homits.
  apply (forEach_preserves telemetry_item
           (fun c' => own (telemetryData c') !! k = own (telemetryData c) !! k));
    [|reflexivity].
  intros item c' Hin Hc'. rewrite telemetry_item_frame; [exact Hc'|].
  rewrite Forall_forall in Homits. apply Homits. now apply list_elem_of_In.
Qed.

(** C1 (telemetry cache is last-known-good).  Whatever state the cache is
    in, a key that holds an entry keeps exactly that entry while telemetry
    messages that omit the key are processed, however many of them and
    whatever else they carry (none, an empty metrics array, other keys,
    undecodable text). *)
Theorem telemetry_last_known_good (later : list string) (c : cache)
    (k : string) (entry : value) :
  own (telemetryData c) !! k = Some entry ->
  Forall (message_omits k) later ->
  own (telemetryData (process Telemetry later c)) !! k = Some entry.
Proof.
  revert c. induction later as [|msg later IH]; intros c Hk Homit; [exact Hk|].
  apply Forall_cons in Homit as [Hmsg Hlater]. simpl. apply IH; [|exact Hlater].
  rewrite parseTelemetryMessage_frame; assumption.
Qed.

End CacheProperties.

Section BalanceProperties.
Context `{RT : Runtime}.

(** The order loop appends a copy of every truthy element and cannot
    throw. *)
Lemma forEach_balance_order (orders : list value) (c : cache) :
  forEach balance_order orders c
  = (Normal tt,
     set_openOrdersData
       (fun os => (os ++ map (fun o => VObj (spread o)) (List.filter truthy orders))%list) c).
Proof.
  revert c. induction orders as [|o orders IH]; intros c; simpl.
  - unfold ret. f_equal. destruct c; unfold set_openOrdersData; simpl.
    now rewrite app_nil_r.
  - unfold bind, balance_order. destruct (truthy o); simpl.
    + unfold modify. rewrite IH. f_equal. destruct c; unfold set_openOrdersData; simpl.
      now rewrite <- app_assoc.
    + unfold ret. apply IH.
Qed.

Lemma copies_of_objects (orders : list value) :
  forallb is_object orders = true ->
  map (fun o => VObj (spread o)) (List.filter truthy orders) = orders.
Proof.
  induction orders as [|o orders IH]; simpl; [reflexivity|].
  destruct o; simpl; try discriminate. intros H. now rewrite IH.
Qed.

Lemma balance_entry_keeps_orders (last_updated balance : value) (c : cache) :
  openOrdersData (snd (balance_entry last_updated balance c)) = openOrdersData c.
Proof.
  unfold balance_entry.
  destruct (negb (truthy balance) || negb (truthy (get balance "asset")));
    reflexivity.
Qed.

Lemma balances_keep_orders (balances last_updated : value) (c : cache) :
  openOrdersData (snd (call_forEach balances (balance_entry last_updated) c))
  = openOrdersData c.
Proof.
  destruct balances; try reflexivity. simpl.
  apply (forEach_preserves (balance_entry last_updated)
           (fun c' => openOrdersData c' = openOrdersData c)); [|reflexivity].
  intros b c' _ Hc'. now rewrite balance_entry_keeps_orders.
Qed.

(** What [parseBalanceMessage] leaves in [openOrdersData] for any message
    that decodes to a non-null object with an array (or no) [open_orders]:
    copies of the truthy elements of that array, whatever was there
    before. *)
Lemma parseBalanceMessage_orders (msg : string) (data : value)
    (orders : list value) (c : cache) :
  JSON_parse msg = Some data ->
  truthy data && typeof_object data = true ->
  message_open_orders data = VArr orders ->
  openOrdersData (snd (parseBalanceMessage msg c))
  = map (fun o => VObj (spread o)) (List.filter truthy orders).
Proof.
  intros Hparse Hobj Horders. unfold parseBalanceMessage.
  rewrite try_catch_console_state. unfold parseBalanceMessage_try.
  rewrite Hparse.
  replace (negb (truthy data) || negb (typeof_object data)) with false
    by (destruct (truthy data), (typeof_object data); simpl in *; congruence).
  unfold message_open_orders in Horders. rewrite Horders.
  unfold bind at 1. unfold modify at 1. unfold bind at 1.
  simpl call_forEach at 1. rewrite forEach_balance_order.
  rewrite balances_keep_orders. reflexivity.
Qed.

(** C2 (orders are replaced wholesale).  For every message of the balance
    grammar (an object whose [open_orders], when present, is an array of
    order objects), the order list after [parseBalanceMessage] is exactly
    the [open_orders] array of that message: the result does not depend on
    the cache the call started from. *)
Theorem orders_replaced_wholesale (msg : string) (c : cache) :
  balance_orders_wellformed msg = true ->
  openOrdersData (snd (parseBalanceMessage msg c)) = open_orders_of msg.
Proof.
  unfold balance_orders_wellformed, open_orders_of.
  destruct (JSON_parse msg) as [data|] eqn:Hparse; [|discriminate].
  destruct (message_open_orders data) as [| | | | |orders|] eqn:Horders;
    try (rewrite andb_false_r; discriminate).
  intros H. apply andb_prop in H as [Hobj Hall].
  rewrite (parseBalanceMessage_orders msg data orders c Hparse Hobj Horders).
  now apply copies_of_objects.
Qed.

End BalanceProperties.

Section DecodeFaults.
Context `{RT : Runtime}.

Lemma parse_never_throws (s : stream) (msg : string) (c : cache) :
  fst (parse s msg c) = Normal tt.
Proof. destruct s; apply try_catch_console_normal. Qed.

Lemma rejected_message_dropped (s : stream) (msg : string) (c : cache) :
  rejected_at_decode s msg = true -> snd (parse s msg c) = c.
Proof.
  unfold rejected_at_decode. intros H.
  destruct s; simpl; unfold parseTelemetryMessage, parseBalanceMessage,
    parseSystemMessage; rewrite try_catch_console_state;
    unfold parseTelemetryMessage_try, parseBalanceMessage_try,
      parseSystemMessage_try;
    destruct (JSON_parse msg) as [data|]; try reflexivity.
  - destruct (telemetry_metrics data); [discriminate|reflexivity].
  - now rewrite H.
  - now rewrite H.
Qed.

(** C5, as the code has it (decode faults found before the cache is
    touched).  On every stream and for every message text the parse call
    returns normally; when the text is not JSON, or decodes to a value
    that is not of the stream's top-level shape, the message is dropped and
    the whole cache is exactly what it was. *)
Theorem decode_fault_leaves_cache (s : stream) (msg : string) (c : cache) :
  fst (parse s msg c) = Normal tt /\
  (rejected_at_decode s msg = true -> snd (parse s msg c) = c).
Proof.
  split; [apply parse_never_throws|apply rejected_message_dropped].
Qed.

End DecodeFaults.

(** ** The subscription bus *)

Section BusProperties.
Import Bus.
Context {P S : Type}.
Implicit Types (beh : behaviour P S) (w : world P S) (ch : channel)
  (c : callback) (s : jsset) (r : registry).

Lemma lookup_channel_name ch : lookup_stream (channel_name ch) = OwnSet ch.
Proof. destruct ch; reflexivity. Qed.

Lemma subscribers_update ch ch' (f : jsset -> jsset) r :
  subscribers ch (update_subscribers ch' f r)
  = if channel_eqb ch' ch then f (subscribers ch r) else subscribers ch r.
Proof. destruct ch, ch'; reflexivity. Qed.

Lemma subscribers_do_bus_call ch (op : bus_call) r :
  subscribers ch (do_bus_call op r)
  = if on_channel ch op then on_set op (subscribers ch r) else subscribers ch r.
Proof.
  destruct op as [ch' c|ch' c]; simpl;
    unfold subscribeToStream, unsubscribeFromStream;
    rewrite lookup_channel_name; simpl; apply subscribers_update.
Qed.

Lemma subscribers_fold ch (ops : list bus_call) r :
  subscribers ch (fold_left (fun reg op => do_bus_call op reg) ops r)
  = fold_left (fun s op => on_set op s) (List.filter (on_channel ch) ops)
      (subscribers ch r).
Proof.
  revert r. induction ops as [|op ops IH]; intros r; simpl; [reflexivity|].
  rewrite IH, subscribers_do_bus_call. now destruct (on_channel ch op).
Qed.

(** The [try]/[catch] around the call turns every completion into a normal
    one. *)
Lemma notify_one_normal beh (data : P) c w :
  notify_one beh data c w = (Normal tt, snd (call beh c data w)).
Proof.
  unfold notify_one, try_catch, call, console_error, ret.
  now destruct (throws _).
Qed.

Lemma subscribers_after_call beh ch (data : P) c w :
  subscribers ch (widgetSubscribers (snd (call beh c data w)))
  = fold_left (fun s op => on_set op s)
      (List.filter (on_channel ch) (bus_calls (beh c data (program w))))
      (subscribers ch (widgetSubscribers w)).
Proof. unfold call. simpl. apply subscribers_fold. Qed.

Lemma invoked_after_call beh (data : P) c w :
  invoked (snd (call beh c data w)) = (invoked w ++ [(c, data)])%list.
Proof. reflexivity. Qed.

Lemma Set_forEach_step (f : callback -> Eff (world P S) unit) ch fuel i w :
  Set_forEach (Datatypes.S fuel) ch f i w
  = match subscribers ch (widgetSubscribers w) !! i with
    | None => Some (Normal tt, w)
    | Some None => Set_forEach fuel ch f (Datatypes.S i) w
    | Some (Some c) =>
        match f c w with
        | (Normal _, w') => Set_forEach fuel ch f (Datatypes.S i) w'
        | (Throw e, w') => Some (Throw e, w')
        end
    end.
Proof. reflexivity. Qed.

Lemma Set_forEach_ext (f g : callback -> Eff (world P S) unit) ch :
  (forall c w, f c w = g c w) ->
  forall fuel i w, Set_forEach fuel ch f i w = Set_forEach fuel ch g i w.
Proof.
  intros Hfg. induction fuel as [|fuel IH]; intros i w; simpl; [reflexivity|].
  destruct (subscribers ch (widgetSubscribers w) !! i) as [[c|]|]; auto.
  rewrite Hfg. destruct (g c w) as [[[]|e] w']; auto.
Qed.

(** Which callbacks a publish reaches, and the state it leaves, do not
    depend on which callbacks throw. *)
Lemma throws_do_not_matter beh (streamName : string) (data : P) fuel w :
  notifyWidgets fuel beh streamName data w
  = notifyWidgets fuel (without_throws beh) streamName data w.
Proof.
  unfold notifyWidgets. destruct (lookup_stream streamName); try reflexivity.
  apply Set_forEach_ext. intros c w0. now rewrite !notify_one_normal.
Qed.

Lemma Set_forEach_never_throws beh ch (data : P) fuel :
  forall i w e w', Set_forEach fuel ch (notify_one beh data) i w <> Some (Throw e, w').
Proof.
  induction fuel as [|fuel IH]; intros i w e w'; simpl; [discriminate|].
  destruct (subscribers ch (widgetSubscribers w) !! i) as [[c|]|];
    [|apply IH|discriminate].
  rewrite notify_one_normal. apply IH.
Qed.

Lemma members_cons_some c s : members (Some c :: s) = c :: members s.
Proof. reflexivity. Qed.

Lemma members_cons_none s : members (None :: s) = members s.
Proof. reflexivity. Qed.

Lemma members_app s1 s2 : members (s1 ++ s2)%list = (members s1 ++ members s2)%list.
Proof. unfold members. apply omap_app. Qed.

Lemma members_map_some (cs : list callback) : members (map Some cs) = cs.
Proof.
  induction cs as [|c cs IH]; [reflexivity|].
  simpl map. rewrite members_cons_some. now f_equal.
Qed.

(** A stretch of [n] entries whose callbacks leave the channel alone: the
    walk calls each of them, in order, and the entry list is as before. *)
Lemma Set_forEach_quiet_run beh ch (data : P) (n : nat) :
  forall fuel i w,
    (forall c, In c (members (take n (drop i (subscribers ch (widgetSubscribers w))))) ->
       quiet_on beh ch c) ->
    (i + n <= length (subscribers ch (widgetSubscribers w)))%nat ->
    exists w1,
      Set_forEach (n + fuel) ch (notify_one beh data) i w
      = Set_forEach fuel ch (notify_one beh data) (i + n) w1
      /\ subscribers ch (widgetSubscribers w1) = subscribers ch (widgetSubscribers w)
      /\ invoked w1
         = (invoked w ++
            map (fun c => (c, data))
              (members (take n (drop i (subscribers ch (widgetSubscribers w))))))%list.
Proof.
  induction n as [|n IH]; intros fuel i w Hquiet Hlen.
  - exists w. rewrite Nat.add_0_r, take_0. simpl. now rewrite app_nil_r.
  - destruct (lookup_lt_is_Some_2 (subscribers ch (widgetSubscribers w)) i)
      as [e He]; [lia|].
    change (Datatypes.S n + fuel)%nat with (Datatypes.S (n + fuel)).
    rewrite (drop_S _ _ _ He), firstn_cons in Hquiet.
    rewrite Set_forEach_step, He, (drop_S _ _ _ He), firstn_cons.
    destruct e as [c|].
    + rewrite notify_one_normal. rewrite members_cons_some in Hquiet.
      assert (Hsame : subscribers ch (widgetSubscribers (snd (call beh c data w)))
                      = subscribers ch (widgetSubscribers w)).
      { rewrite subscribers_after_call.
        rewrite (Hquiet c (or_introl eq_refl)). reflexivity. }
      destruct (IH fuel (Datatypes.S i) (snd (call beh c data w)))
        as (w1 & Hrun & Hsubs & Hinv).
      { intros c' Hc'. rewrite Hsame in Hc'. apply Hquiet. now right. }
      { rewrite Hsame. lia. }
      exists w1. rewrite Hrun, Hsubs, Hinv, Hsame, invoked_after_call.
      rewrite members_cons_some. simpl. rewrite <- app_assoc.
      replace (i + Datatypes.S n)%nat with (Datatypes.S i + n)%nat by lia.
      auto.
    + rewrite members_cons_none in Hquiet.
      destruct (IH fuel (Datatypes.S i) w Hquiet) as (w1 & Hrun & Hsubs & Hinv);
        [lia|].
      exists w1. rewrite Hrun, Hsubs, Hinv, members_cons_none.
      replace (i + Datatypes.S n)%nat with (Datatypes.S i + n)%nat by lia.
      auto.
Qed.

(** The same up to the end of the entry list: the walk ends there. *)
Lemma Set_forEach_quiet_tail beh ch (data : P) fuel i w :
  (forall c, In c (members (drop i (subscribers ch (widgetSubscribers w)))) ->
     quiet_on beh ch c) ->
  (i <= length (subscribers ch (widgetSubscribers w)))%nat ->
  (length (subscribers ch (widgetSubscribers w)) - i < fuel)%nat ->
  exists w',
    Set_forEach fuel ch (notify_one beh data) i w = Some (Normal tt, w')
    /\ subscribers ch (widgetSubscribers w') = subscribers ch (widgetSubscribers w)
    /\ invoked w'
       = (invoked w ++
          map (fun c => (c, data))
            (members (drop i (subscribers ch (widgetSubscribers w)))))%list.
Proof.
  intros Hquiet Hi Hfuel.
  set (E := subscribers ch (widgetSubscribers w)) in *.
  assert (Htake : take (length E - i) (drop i E) = drop i E).
  { apply take_ge. rewrite length_drop. lia. }
  destruct (Set_forEach_quiet_run beh ch data (length E - i)
              (fuel - (length E - i)) i w) as (w1 & Hrun & Hsubs & Hinv).
  { fold E. now rewrite Htake. }
  { fold E. lia. }
  fold E in Hsubs, Hinv. rewrite Htake in Hinv.
  replace (length E - i + (fuel - (length E - i)))%nat with fuel in Hrun by lia.
  replace (i + (length E - i))%nat with (length E) in Hrun by lia.
  exists w1. split; [|split; assumption].
  rewrite Hrun. destruct (fuel - (length E - i))%nat as [|fuel'] eqn:Hf; [lia|].
  rewrite Set_forEach_step, Hsubs.
  now rewrite (lookup_ge_None_2 E (length E)) by lia.
Qed.

Lemma new_calls_app w w' (calls : list (callback * P)) :
  invoked w' = (invoked w ++ calls)%list -> new_calls w w' = calls.
Proof. unfold new_calls. intros ->. now rewrite drop_app_length. Qed.

(** When no subscriber changes the channel's set, a publish with enough
    fuel ends normally having called every subscriber once, in order. *)
Lemma publish_quiet beh ch (data : P) fuel w :
  (forall c, In c (members (subscribers ch (widgetSubscribers w))) -> quiet_on beh ch c) ->
  (length (subscribers ch (widgetSubscribers w)) < fuel)%nat ->
  exists w',
    notifyWidgets fuel beh (channel_name ch) data w = Some (Normal tt, w')
    /\ subscribers ch (widgetSubscribers w') = subscribers ch (widgetSubscribers w)
    /\ new_calls w w'
       = map (fun c => (c, data)) (members (subscribers ch (widgetSubscribers w))).
Proof.
  intros Hquiet Hfuel. unfold notifyWidgets. rewrite lookup_channel_name.
  destruct (Set_forEach_quiet_tail beh ch data fuel 0 w) as (w' & Hrun & Hsubs & Hinv).
  { now rewrite drop_0. }
  { lia. }
  { lia. }
  rewrite drop_0 in Hinv. exists w'.
  split; [exact Hrun|split; [exact Hsubs|now apply new_calls_app]].
Qed.

(** C3 (fan-out isolates callback failures).  On every channel, for every
    payload and whatever each subscriber does to the rest of the program
    and whichever of them throw: the publish never raises to its caller,
    it proceeds exactly as if no callback had thrown, and (the subscribers
    leaving the channel's own subscriptions alone) it ends having called
    all N subscribers once each, in subscription order, with that
    payload; so the callbacks after a thrower are still called. *)
Theorem publish_isolates_failures beh ch (data : P) (fuel : nat) w :
  (forall e w', notifyWidgets fuel beh (channel_name ch) data w <> Some (Throw e, w'))
  /\ notifyWidgets fuel beh (channel_name ch) data w
     = notifyWidgets fuel (without_throws beh) (channel_name ch) data w
  /\ ((forall c, In c (members (subscribers ch (widgetSubscribers w))) ->
         quiet_on beh ch c) ->
      (length (subscribers ch (widgetSubscribers w)) < fuel)%nat ->
      exists w',
        notifyWidgets fuel beh (channel_name ch) data w = Some (Normal tt, w')
        /\ new_calls w w'
           = map (fun c => (c, data))
               (members (subscribers ch (widgetSubscribers w)))).
Proof.
  split; [|split].
  - intros e w'. unfold notifyWidgets. rewrite lookup_channel_name.
    apply Set_forEach_never_throws.
  - apply throws_do_not_matter.
  - intros Hquiet Hfuel.
    destruct (publish_quiet beh ch data fuel w Hquiet Hfuel) as (w' & Hrun & _ & Hcalls).
    eauto.
Qed.

End BusProperties.

Section SetProperties.
Import Bus.
Implicit Types (c : callback) (s : list (option callback)) (cs : list callback).

Lemma Set_has_members c s : Set_has c s = true <-> In c (members s).
Proof.
  unfold Set_has. induction s as [|[c'|] s IH]; simpl.
  - split; [discriminate|tauto].
  - rewrite ?members_cons_some, orb_true_iff, IH, Nat.eqb_eq. simpl. tauto.
  - rewrite ?members_cons_none. exact IH.
Qed.

Lemma Set_has_false c s : Set_has c s = false <-> ~ In c (members s).
Proof. rewrite <- Set_has_members. now destruct (Set_has c s). Qed.

Lemma Set_add_new c s : ~ In c (members s) -> Set_add c s = (s ++ [Some c])%list.
Proof. intros H. unfold Set_add. apply Set_has_false in H. now rewrite H. Qed.

Lemma Set_add_old c s : In c (members s) -> Set_add c s = s.
Proof. intros H. unfold Set_add. apply Set_has_members in H. now rewrite H. Qed.

Lemma Set_delete_absent c s : ~ In c (members s) -> Set_delete c s = s.
Proof.
  induction s as [|[c'|] s IH]; simpl; intros H; [reflexivity| |].
  - rewrite ?members_cons_some in H. simpl in H.
    destruct (Nat.eqb c' c) eqn:E; [apply Nat.eqb_eq in E; tauto|].
    f_equal. apply IH. tauto.
  - rewrite ?members_cons_none in H. f_equal. now apply IH.
Qed.

Lemma Set_delete_app c s1 s2 :
  ~ In c (members s1) -> Set_delete c (s1 ++ s2) = (s1 ++ Set_delete c s2)%list.
Proof.
  induction s1 as [|[c'|] s1 IH]; simpl; intros H; [reflexivity| |].
  - rewrite ?members_cons_some in H. simpl in H.
    destruct (Nat.eqb c' c) eqn:E; [apply Nat.eqb_eq in E; tauto|].
    f_equal. apply IH. tauto.
  - rewrite ?members_cons_none in H. f_equal. now apply IH.
Qed.

Lemma members_Set_add c s :
  members (Set_add c s)
  = if Set_has c s then members s else (members s ++ [c])%list.
Proof.
  unfold Set_add. destruct (Set_has c s); [reflexivity|].
  now rewrite members_app.
Qed.

Lemma members_Set_delete c s :
  well_formed s -> members (Set_delete c s) = List.filter (fun c' => negb (Nat.eqb c' c)) (members s).
Proof.
  unfold well_formed. induction s as [|[c'|] s IH]; simpl; intros Hwf; [reflexivity| |].
  - rewrite members_cons_some in *. apply NoDup_cons in Hwf as [Hnotin Hwf]. simpl.
    destruct (Nat.eqb c' c) eqn:E; simpl.
    + apply Nat.eqb_eq in E. subst c'. rewrite members_cons_none.
      symmetry. apply forallb_filter_id. apply forallb_forall.
      intros x Hx. apply negb_true_iff, Nat.eqb_neq. intros ->.
      apply Hnotin. now apply list_elem_of_In.
    + rewrite members_cons_some. f_equal. now apply IH.
  - rewrite !members_cons_none in *. now apply IH.
Qed.

Lemma well_formed_Set_add c s : well_formed s -> well_formed (Set_add c s).
Proof.
  unfold well_formed. intros Hwf. rewrite members_Set_add.
  destruct (Set_has c s) eqn:E; [exact Hwf|].
  apply NoDup_app. split; [exact Hwf|]. split; [|apply NoDup_singleton].
  intros x Hx Hx'. apply list_elem_of_In in Hx'. destruct Hx' as [<-|[]].
  apply Set_has_false in E. apply E. now apply list_elem_of_In.
Qed.

Lemma well_formed_Set_delete c s : well_formed s -> well_formed (Set_delete c s).
Proof.
  intros Hwf. unfold well_formed. rewrite members_Set_delete by exact Hwf.
  apply NoDup_ListNoDup, List.NoDup_filter, NoDup_ListNoDup, Hwf.
Qed.

(** Adding twice is adding once. *)
Lemma Set_add_idempotent c s : Set_add c (Set_add c s) = Set_add c s.
Proof.
  apply Set_add_old. rewrite members_Set_add.
  destruct (Set_has c s) eqn:E; [now apply Set_has_members|].
  apply in_or_app. right. now left.
Qed.

(** One delete removes the callback. *)
Lemma Set_delete_removes c s :
  well_formed s -> ~ In c (members (Set_delete c s)).
Proof.
  intros Hwf. rewrite members_Set_delete by exact Hwf.
  rewrite filter_In, negb_true_iff, Nat.eqb_neq. tauto.
Qed.

End SetProperties.

Section LiveIteration.
Import Bus.
Context {P S : Type}.
Implicit Types (beh : behaviour P S) (w : world P S) (ch : channel)
  (c a b d : callback) (pre mid post rest : jsset).

Lemma drop_after_middle pre a rest :
  drop (Datatypes.S (length pre)) (pre ++ Some a :: rest) = rest.
Proof.
  induction pre as [|e pre IH]; simpl; [apply drop_0|exact IH].
Qed.

Lemma lookup_middle pre a rest :
  (pre ++ Some a :: rest)%list !! length pre = Some (Some a).
Proof. induction pre as [|e pre IH]; simpl; [reflexivity|exact IH]. Qed.

Lemma take_prefix pre rest : take (length pre) (pre ++ rest) = pre.
Proof. induction pre as [|e pre IH]; simpl; [apply take_0|now f_equal]. Qed.

Lemma invoked_by_app w w' (cs : list callback) (data : P) :
  invoked w' = (invoked w ++ map (fun c => (c, data)) cs)%list ->
  invoked_by w w' = cs.
Proof.
  intros H. unfold invoked_by. rewrite (new_calls_app w w' _ H).
  rewrite map_map. simpl. apply map_id.
Qed.

(** A publish in which exactly one subscriber, [a], changes the channel's
    set, by the call [op], which leaves the entries up to [a] in place:
    the walk goes on over the entries as [op] left them. *)
Lemma publish_one_mutator beh ch (data : P) pre a rest rest' (op : bus_call)
    (fuel : nat) w :
  subscribers ch (widgetSubscribers w) = (pre ++ Some a :: rest)%list ->
  (forall c, In c (members pre) -> quiet_on beh ch c) ->
  only_call_on beh ch a op ->
  on_set op (pre ++ Some a :: rest)%list = (pre ++ Some a :: rest')%list ->
  (forall c, In c (members rest') -> quiet_on beh ch c) ->
  (length pre + 1 + length rest' < fuel)%nat ->
  exists w',
    notifyWidgets fuel beh (channel_name ch) data w = Some (Normal tt, w')
    /\ invoked_by w w' = (members pre ++ a :: members rest')%list
    /\ subscribers ch (widgetSubscribers w') = (pre ++ Some a :: rest')%list.
Proof.
  intros HE Hpre Hop Hset Hrest Hfuel.
  unfold notifyWidgets. rewrite lookup_channel_name.
  destruct (Set_forEach_quiet_run beh ch data (length pre) (fuel - length pre) 0 w)
    as (w1 & Hrun1 & Hsubs1 & Hinv1).
  { rewrite HE, drop_0, take_prefix. exact Hpre. }
  { rewrite HE, length_app. lia. }
  rewrite HE, drop_0, take_prefix in Hinv1.
  replace (length pre + (fuel - length pre))%nat with fuel in Hrun1 by lia.
  rewrite Hrun1. simpl (0 + length pre)%nat.
  destruct (fuel - length pre)%nat as [|fuel2] eqn:Hf; [lia|].
  rewrite Set_forEach_step, Hsubs1, HE, lookup_middle, notify_one_normal.
  set (w2 := snd (call beh a data w1)).
  assert (Hsubs2 : subscribers ch (widgetSubscribers w2)
                   = (pre ++ Some a :: rest')%list).
  { unfold w2. rewrite subscribers_after_call, Hop. simpl.
    rewrite Hsubs1, HE. exact Hset. }
  destruct (Set_forEach_quiet_tail beh ch data fuel2 (Datatypes.S (length pre)) w2)
    as (w3 & Hrun3 & Hsubs3 & Hinv3).
  { rewrite Hsubs2, drop_after_middle. exact Hrest. }
  { rewrite Hsubs2, length_app. simpl. lia. }
  { rewrite Hsubs2, length_app. simpl. lia. }
  exists w3. split; [exact Hrun3|]. split; [|now rewrite Hsubs3].
  apply (invoked_by_app w w3 _ data).
  rewrite Hinv3, Hsubs2, drop_after_middle. unfold w2.
  rewrite invoked_after_call, Hinv1, map_app. simpl.
  now rewrite <- !app_assoc.
Qed.

(** C4, as the code has it (the walk is over the live Set, not a
    snapshot).  On every set the two exported functions can build
    (entries in insertion order, empty slots where callbacks were
    deleted), with one subscriber [a] changing the channel's set during a
    publish, by the same single call whenever it runs, and the others
    leaving it alone:
    - if [a] unsubscribes a subscriber [b] whose turn comes after [a]'s,
      [b] is not called in that publish, and everyone else is, in
      subscription order;
    - if [a] subscribes a callback [d] that was not subscribed, [d] is
      called in that same publish, after everyone else.
    With no subscriber changing the channel's set, the callbacks called
    are exactly those subscribed when the publish began, in subscription
    order. *)
Theorem publish_walks_live_set beh ch (data : P) (fuel : nat) w :
  (forall pre a mid b post,
     subscribers ch (widgetSubscribers w)
     = (pre ++ Some a :: mid ++ Some b :: post)%list ->
     well_formed (subscribers ch (widgetSubscribers w)) ->
     only_call_on beh ch a (Unsubscribe ch b) ->
     (forall c, c <> a -> quiet_on beh ch c) ->
     (length (subscribers ch (widgetSubscribers w)) < fuel)%nat ->
     exists w',
       notifyWidgets fuel beh (channel_name ch) data w = Some (Normal tt, w')
       /\ invoked_by w w' = (members pre ++ a :: members mid ++ members post)%list
       /\ ~ In b (invoked_by w w'))
  /\
  (forall pre a post d,
     subscribers ch (widgetSubscribers w) = (pre ++ Some a :: post)%list ->
     well_formed (subscribers ch (widgetSubscribers w)) ->
     ~ In d (members (subscribers ch (widgetSubscribers w))) ->
     only_call_on beh ch a (Subscribe ch d) ->
     (forall c, c <> a -> quiet_on beh ch c) ->
     (length (subscribers ch (widgetSubscribers w)) + 1 < fuel)%nat ->
     exists w',
       notifyWidgets fuel beh (channel_name ch) data w = Some (Normal tt, w')
       /\ invoked_by w w' = (members pre ++ a :: members post ++ [d])%list)
  /\
  ((forall c, In c (members (subscribers ch (widgetSubscribers w))) ->
      quiet_on beh ch c) ->
   (length (subscribers ch (widgetSubscribers w)) < fuel)%nat ->
   exists w',
     notifyWidgets fuel beh (channel_name ch) data w = Some (Normal tt, w')
     /\ invoked_by w w' = members (subscribers ch (widgetSubscribers w))).
Proof.
  split; [|split].
  - intros pre a mid b post HE Hwf Hop Hquiet Hfuel.
    unfold well_formed in Hwf.
    rewrite HE, members_app, members_cons_some, members_app, members_cons_some in Hwf.
    apply NoDup_app in Hwf as (Hpre & Hcross & Hrest).
    apply NoDup_cons in Hrest as [Ha Hrest].
    apply NoDup_app in Hrest as (Hmid & Hmidb & Hb).
    apply NoDup_cons in Hb as [Hb Hpost].
    assert (Hab : a <> b).
    { intros ->. apply Ha. apply list_elem_of_In, in_or_app. right. now left. }
    assert (Hbpre : ~ In b (members pre)).
    { intros Hin. apply list_elem_of_In in Hin. apply (Hcross b Hin).
      apply list_elem_of_In. right. apply in_or_app. right. now left. }
    assert (Hbmid : ~ In b (members mid)).
    { intros Hin. apply list_elem_of_In in Hin. apply (Hmidb b Hin).
      apply list_elem_of_In. now left. }
    destruct (publish_one_mutator beh ch data pre a
                (mid ++ Some b :: post)%list (mid ++ None :: post)%list
                (Unsubscribe ch b) fuel w) as (w' & Hrun & Hinv & _).
    + exact HE.
    + intros c Hc. apply Hquiet. intros ->.
      apply (Hcross a); apply list_elem_of_In; [exact Hc|now left].
    + exact Hop.
    + simpl. rewrite Set_delete_app by exact Hbpre.
      f_equal. simpl. destruct (Nat.eqb a b) eqn:E; [apply Nat.eqb_eq in E; tauto|].
      f_equal. rewrite Set_delete_app by exact Hbmid.
      f_equal. simpl. now rewrite Nat.eqb_refl.
    + intros c Hc. apply Hquiet. intros ->.
      rewrite members_app, members_cons_none in Hc.
      apply Ha. apply list_elem_of_In. apply in_app_or in Hc as [Hc|Hc];
        apply in_or_app; [now left|right; now right].
    + rewrite HE in Hfuel. rewrite !length_app in *. simpl in *.
      rewrite !length_app in *. simpl in *. lia.
    + exists w'. split; [exact Hrun|].
      rewrite Hinv, members_app, members_cons_none. split; [reflexivity|].
      intros Hin. apply in_app_or in Hin as [Hin|[Hin|Hin]]; [tauto|congruence|].
      apply in_app_or in Hin as [Hin|Hin]; [tauto|].
      apply Hb. now apply list_elem_of_In.
  - intros pre a post d HE Hwf Hd Hop Hquiet Hfuel.
    unfold well_formed in Hwf. rewrite HE in Hd.
    rewrite HE, members_app, members_cons_some in Hwf.
    apply NoDup_app in Hwf as (Hpre & Hcross & Hrest).
    apply NoDup_cons in Hrest as [Ha Hpost].
    destruct (publish_one_mutator beh ch data pre a post
                (post ++ [Some d])%list (Subscribe ch d) fuel w)
      as (w' & Hrun & Hinv & _).
    + exact HE.
    + intros c Hc. apply Hquiet. intros ->.
      apply (Hcross a); apply list_elem_of_In; [exact Hc|now left].
    + exact Hop.
    + simpl. rewrite Set_add_new by exact Hd. now rewrite <- app_assoc.
    + intros c Hc. apply Hquiet. intros ->.
      rewrite members_app in Hc. apply in_app_or in Hc as [Hc|Hc].
      * apply Ha. now apply list_elem_of_In.
      * destruct Hc as [<-|[]]. apply Hd. rewrite members_app, members_cons_some.
        apply in_or_app. right. now left.
    + rewrite HE in Hfuel. rewrite !length_app in *. simpl in *. lia.
    + exists w'. split; [exact Hrun|].
      rewrite Hinv, members_app. reflexivity.
  - intros Hquiet Hfuel.
    destruct (publish_quiet beh ch data fuel w Hquiet Hfuel) as (w' & Hrun & _ & Hcalls).
    exists w'. split; [exact Hrun|].
    unfold invoked_by. rewrite Hcalls, map_map. simpl. apply map_id.
Qed.

End LiveIteration.

Section Subscription.
Import Bus.
Implicit Types (c : callback) (r : registry) (ch : channel).

Lemma update_subscribers_twice ch (f : list (option callback) -> list (option callback)) r :
  (forall s, f (f s) = f s) ->
  update_subscribers ch f (update_subscribers ch f r) = update_subscribers ch f r.
Proof. intros Hf. destruct ch; simpl; now rewrite Hf. Qed.

(** Subscribing the same callback to the same name again changes nothing,
    whatever the name is. *)
Lemma subscribe_idempotent (streamName : string) c r :
  subscribeToStream streamName c (snd (subscribeToStream streamName c r))
  = subscribeToStream streamName c r.
Proof.
  unfold subscribeToStream. destruct (lookup_stream streamName); try reflexivity.
  unfold modify. simpl. f_equal.
  apply update_subscribers_twice, Set_add_idempotent.
Qed.

(** [n] subscriptions in a row, for [n >= 1], are one. *)
Lemma subscribe_many_times (streamName : string) c r (n : nat) :
  Nat.iter (Datatypes.S n) (fun r => snd (subscribeToStream streamName c r)) r
  = snd (subscribeToStream streamName c r).
Proof.
  induction n as [|n IH]; [reflexivity|].
  change (Nat.iter (Datatypes.S (Datatypes.S n)) ?f r)
    with (f (Nat.iter (Datatypes.S n) f r)).
  rewrite IH. now rewrite subscribe_idempotent.
Qed.

Lemma subscribed_after_subscribe ch c r :
  In c (members (subscribers ch (snd (subscribeToStream (channel_name ch) c r)))).
Proof.
  unfold subscribeToStream. rewrite lookup_channel_name. simpl.
  rewrite subscribers_update.
  replace (channel_eqb ch ch) with true by (now destruct ch).
  rewrite members_Set_add. destruct (Set_has c _) eqn:E.
  - now apply Set_has_members.
  - apply in_or_app. right. now left.
Qed.

Lemma well_formed_after_subscribe ch c r :
  well_formed (subscribers ch r) ->
  well_formed (subscribers ch (snd (subscribeToStream (channel_name ch) c r))).
Proof.
  intros Hwf. unfold subscribeToStream. rewrite lookup_channel_name. simpl.
  rewrite subscribers_update.
  replace (channel_eqb ch ch) with true by (now destruct ch).
  now apply well_formed_Set_add.
Qed.

(** One unsubscribe removes the callback, however often it was
    subscribed. *)
Lemma unsubscribe_removes ch c r :
  well_formed (subscribers ch r) ->
  ~ In c (members (subscribers ch (snd (unsubscribeFromStream (channel_name ch) c r)))).
Proof.
  intros Hwf. unfold unsubscribeFromStream. rewrite lookup_channel_name. simpl.
  rewrite subscribers_update.
  replace (channel_eqb ch ch) with true by (now destruct ch).
  now apply Set_delete_removes.
Qed.

(** Every registry the two functions build from the initial one is made
    of well-formed Sets. *)
Lemma reachable_well_formed (ops : list bus_call) ch :
  well_formed (subscribers ch
    (fold_left (fun reg op => do_bus_call op reg) ops widgetSubscribers_init)).
Proof.
  rewrite subscribers_fold.
  assert (Hinit : well_formed (subscribers ch widgetSubscribers_init)).
  { destruct ch; apply NoDup_nil_2. }
  revert Hinit. generalize (subscribers ch widgetSubscribers_init).
  induction (List.filter (on_channel ch) ops) as [|op l IH]; intros s Hs; [exact Hs|].
  simpl. apply IH. destruct op; simpl.
  - now apply well_formed_Set_add.
  - now apply well_formed_Set_delete.
Qed.

(** A name that is neither a channel nor a member of [Object.prototype]
    is ignored by both functions. *)
Lemma unknown_channel_ignored (streamName : string) c r :
  lookup_stream streamName = Undefined ->
  subscribeToStream streamName c r = (Normal tt, r) /\
  unsubscribeFromStream streamName c r = (Normal tt, r).
Proof.
  intros H. unfold subscribeToStream, unsubscribeFromStream. now rewrite H.
Qed.

(** A publish calls a subscribed callback exactly once (the subscribers
    leaving the channel's set alone). *)
Lemma published_once {P S : Type} (beh : behaviour P S) ch (data : P) (fuel : nat)
    (w : world P S) c :
  well_formed (subscribers ch (widgetSubscribers w)) ->
  In c (members (subscribers ch (widgetSubscribers w))) ->
  (forall c', In c' (members (subscribers ch (widgetSubscribers w))) ->
     quiet_on beh ch c') ->
  (length (subscribers ch (widgetSubscribers w)) < fuel)%nat ->
  exists w',
    notifyWidgets fuel beh (channel_name ch) data w = Some (Normal tt, w')
    /\ count_occ Nat.eq_dec (invoked_by w w') c = 1%nat.
Proof.
  intros Hwf Hin Hquiet Hfuel.
  destruct (publish_quiet beh ch data fuel w Hquiet Hfuel) as (w' & Hrun & _ & Hcalls).
  exists w'. split; [exact Hrun|].
  unfold invoked_by. rewrite Hcalls, map_map. simpl. rewrite map_id.
  apply NoDup_count_occ'; [now apply NoDup_ListNoDup|exact Hin].
Qed.

End Subscription.

(** ** Canvas zoom *)

Section ZoomProperties.
Import Canvas.
Context `{RT : Runtime}.
Local Open Scope Q_scope.

Lemma Qle_bool_false (a b : Q) : Qle_bool a b = false -> b < a.
Proof.
  intros H. apply Qnot_le_lt. intros Hle. apply Qle_bool_iff in Hle. congruence.
Qed.

Lemma Math_min_le_l (a b : Q) : Math_min a b <= a.
Proof.
  unfold Math_min. destruct (Qle_bool a b) eqn:E; [apply Qle_refl|].
  apply Qlt_le_weak. now apply Qle_bool_false.
Qed.

Lemma Math_min_glb (a b m : Q) : m <= a -> m <= b -> m <= Math_min a b.
Proof. unfold Math_min. now destruct (Qle_bool a b). Qed.

Lemma Math_max_ge_l (a b : Q) : a <= Math_max a b.
Proof.
  unfold Math_max. destruct (Qle_bool a b) eqn:E; [|apply Qle_refl].
  now apply Qle_bool_iff.
Qed.

Lemma Math_max_lub (a b m : Q) : a <= m -> b <= m -> Math_max a b <= m.
Proof. unfold Math_max. now destruct (Qle_bool a b). Qed.

Lemma constructor_zoom_ok : zoom_ok constructor.
Proof. repeat split; simpl; discriminate. Qed.

Lemma scale_up_in_bounds (x : Q) :
  in_zoom_bounds x -> in_zoom_bounds (Math_min 2 (x * (12 # 10))).
Proof.
  intros [Hlo Hhi]. split; [|apply Math_min_le_l].
  apply Math_min_glb; [discriminate|].
  apply Qle_trans with x; [exact Hlo|].
  rewrite <- (Qmult_1_r x) at 1.
  apply Qmult_le_l; [|discriminate].
  apply Qlt_le_trans with (1 # 4); [reflexivity|exact Hlo].
Qed.

Lemma scale_down_in_bounds (x : Q) :
  in_zoom_bounds x -> in_zoom_bounds (Math_max (1 # 4) (x / (12 # 10))).
Proof.
  intros [Hlo Hhi]. split; [apply Math_max_ge_l|].
  apply Math_max_lub; [discriminate|].
  apply Qle_trans with x; [|exact Hhi].
  apply Qle_shift_div_r; [reflexivity|].
  rewrite <- (Qmult_1_r x) at 1.
  apply Qmult_le_l; [|discriminate].
  apply Qlt_le_trans with (1 # 4); [reflexivity|exact Hlo].
Qed.

Lemma handleKeyDown_zoom_ok (e : KeyboardEvent) (c : canvas) :
  zoom_ok c -> zoom_ok (handleKeyDown e c).
Proof.
  intros (Hmin & Hmax & Hb). unfold handleKeyDown.
  destruct ((ctrlKey e || metaKey e) && (String.eqb (key e) "=" || String.eqb (key e) "+")).
  { split; [exact Hmin|]. split; [exact Hmax|]. simpl. rewrite Hmax.
    now apply scale_up_in_bounds. }
  destruct ((ctrlKey e || metaKey e) && String.eqb (key e) "-").
  { split; [exact Hmin|]. split; [exact Hmax|]. simpl. rewrite Hmin.
    now apply scale_down_in_bounds. }
  destruct ((ctrlKey e || metaKey e) && String.eqb (key e) "0").
  { split; [exact Hmin|]. split; [exact Hmax|]. simpl. split; discriminate. }
  exact (conj Hmin (conj Hmax Hb)).
Qed.

Lemma clamp_in_bounds (x : Q) : in_zoom_bounds (Math_max (1 # 4) (Math_min 2 x)).
Proof.
  split; [apply Math_max_ge_l|].
  apply Math_max_lub; [discriminate|apply Math_min_le_l].
Qed.

Lemma handleTouchMove_zoom_ok (touches : list Touch) (c : canvas) :
  zoom_ok c -> zoom_ok (handleTouchMove touches c).
Proof.
  intros (Hmin & Hmax & Hb). unfold handleTouchMove.
  destruct (isZooming c && (2 <=? length touches)%nat);
    [|exact (conj Hmin (conj Hmax Hb))].
  destruct (Qlt_le_dec 0 (lastTouchDistance c)); simpl.
  - split; [exact Hmin|]. split; [exact Hmax|]. rewrite Hmin, Hmax.
    apply clamp_in_bounds.
  - split; [exact Hmin|]. split; [exact Hmax|]. exact Hb.
Qed.

Lemma dispatch_zoom_ok (ev : event) (c : canvas) :
  zoom_ok c -> zoom_ok (dispatch c ev).
Proof.
  intros H. destruct ev as [e|ts|ts|ts]; simpl.
  - now apply handleKeyDown_zoom_ok.
  - unfold handleTouchStart. destruct (2 <=? length ts)%nat; exact H.
  - now apply handleTouchMove_zoom_ok.
  - unfold handleTouchEnd. destruct (length ts <? 2)%nat; exact H.
Qed.

(** C6, as the code has it.  [setScale] stores its argument as it is; the
    bounds are kept by its callers.  From the constructor's state, after
    any sequence of keyboard and touch events the stored scale lies in
    [[0.25, 2.0]]; and a pinch step whose product of the stored scale and
    the distance ratio falls outside the interval stores the nearest
    bound. *)
Theorem zoom_scale_stays_in_bounds (events : list event) :
  (forall x c, scale (setScale x c) = x)
  /\ in_zoom_bounds (scale (fold_left dispatch events constructor))
  /\ (forall touches c,
        zoom_ok c -> isZooming c = true -> (2 <= length touches)%nat ->
        0 < lastTouchDistance c ->
        let target :=
          scale c * (getTouchDistance (nth 0 touches no_touch) (nth 1 touches no_touch)
                     / lastTouchDistance c) in
        (2 < target -> scale (handleTouchMove touches c) = 2)
        /\ (target < 1 # 4 -> scale (handleTouchMove touches c) = 1 # 4)).
Proof.
  split; [reflexivity|]. split.
  - assert (H : zoom_ok (fold_left dispatch events constructor)).
    { generalize constructor_zoom_ok. generalize constructor.
      induction events as [|ev events IH]; intros c Hc; [exact Hc|].
      simpl. apply IH. now apply dispatch_zoom_ok. }
    apply H.
  - intros touches c (Hmin & Hmax & Hb) Hzoom Hlen Hlast target.
    unfold handleTouchMove. rewrite Hzoom.
    replace (2 <=? length touches)%nat with true
      by (symmetry; now apply Nat.leb_le).
    simpl. destruct (Qlt_le_dec 0 (lastTouchDistance c)) as [_|Hle];
      [|exfalso; now apply (Qlt_not_le _ _ Hlast)].
    simpl. fold target. rewrite Hmin, Hmax. split; intros Ht.
    + unfold Math_min.
      replace (Qle_bool 2 target) with true
        by (symmetry; apply Qle_bool_iff; now apply Qlt_le_weak).
      reflexivity.
    + unfold Math_min. destruct (Qle_bool 2 target) eqn:E.
      * apply Qle_bool_iff in E. exfalso.
        apply (Qlt_irrefl target). apply Qlt_le_trans with (1 # 4); [exact Ht|].
        apply Qle_trans with 2; [discriminate|exact E].
      * unfold Math_max.
        destruct (Qle_bool (1 # 4) target) eqn:E'; [|reflexivity].
        apply Qle_bool_iff in E'. exfalso.
        now apply (Qlt_not_le _ _ Ht).
Qed.

End ZoomProperties.

(** ** Auto-layout *)

Section LayoutProperties.
Import AutoLayout.
Local Open Scope Z_scope.

Lemma lookup_snoc_Some {A} (l : list A) (a : A) (i : nat) (b : A) :
  (l ++ [a])%list !! i = Some b ->
  (l !! i = Some b /\ (i < length l)%nat) \/ (i = length l /\ b = a).
Proof.
  intros H. apply lookup_app_Some in H as [H|[Hi H]].
  - left. split; [exact H|]. now apply lookup_lt_Some in H.
  - right. destruct (i - length l)%nat as [|k] eqn:E; simpl in H; [|discriminate].
    inversion H. split; [lia|reflexivity].
Qed.

Lemma disjoint_sym (p p' : position) (s s' : size_t) :
  disjoint p s p' s' -> disjoint p' s' p s.
Proof. unfold disjoint. tauto. Qed.

(** The position [place] gives the widget, and where it leaves the
    cursor. *)
Lemma place_positions (cw chh : Z) (st : cursor) (w : widget) :
  exists p, positions (place cw chh st w) = (positions st ++ [p])%list
    /\ (0 <= maxHeightInRow st -> 0 < width (size w) -> 0 < height (size w) ->
        0 <= maxHeightInRow (place cw chh st w)
        /\ behind (place cw chh st w) p (size w)
        /\ (forall q s, behind st q s ->
              behind (place cw chh st w) q s /\ disjoint q s p (size w))).
Proof.
  unfold place.
  destruct (cw <? currentX st + width (size w)) eqn:Hrow;
    [set (Y := currentY st + maxHeightInRow st + margin)|set (Y := currentY st)];
    destruct (chh <? Y + height (size w)) eqn:Hpage; eexists;
    (split; [reflexivity|]);
    intros HH Hw Hh; unfold behind, disjoint, margin in *; subst Y; simpl;
    (split; [lia|]); (split; [lia|]); intros q s Hq; lia.
Qed.

Lemma place_packed (cw chh : Z) (st : cursor) (placed : list widget) (w : widget) :
  packed st placed -> positive w ->
  packed (place cw chh st w) (placed ++ [w]).
Proof.
  intros (Hlen & HH & Hbehind & Hdisj) [Hw Hh].
  destruct (place_positions cw chh st w) as (p & Hpos & Hstep).
  destruct (Hstep HH Hw Hh) as (HH' & Hnew & Hold). clear Hstep.
  unfold packed. rewrite Hpos. repeat split.
  - rewrite !length_app. simpl. lia.
  - exact HH'.
  - intros i q v Hq Hv.
    apply lookup_snoc_Some in Hq as [[Hq Hi]|[Hi ->]];
      apply lookup_snoc_Some in Hv as [[Hv Hi']|[Hi' ->]]; try lia.
    + apply Hold. now apply (Hbehind i).
    + exact Hnew.
  - intros i j pi pj wi wj Hij Hpi Hwi Hpj Hwj.
    apply lookup_snoc_Some in Hpi as [[Hpi Hi]|[Hi ->]];
      apply lookup_snoc_Some in Hwi as [[Hwi Hi']|[Hi' ->]]; try lia;
      apply lookup_snoc_Some in Hpj as [[Hpj Hj]|[Hj ->]];
      apply lookup_snoc_Some in Hwj as [[Hwj Hj']|[Hj' ->]]; try lia.
    + now apply (Hdisj i j).
    + apply Hold. now apply (Hbehind i).
    + apply disjoint_sym. apply Hold. now apply (Hbehind j).
Qed.

Lemma fold_place_packed (cw chh : Z) (widgets : list widget) :
  forall st placed,
    packed st placed -> Forall positive widgets ->
    packed (fold_left (place cw chh) widgets st) (placed ++ widgets).
Proof.
  induction widgets as [|w widgets IH]; intros st placed Hst Hall; simpl.
  - now rewrite app_nil_r.
  - apply Forall_cons in Hall as [Hw Hall].
    replace (placed ++ w :: widgets)%list with ((placed ++ [w]) ++ widgets)%list
      by (now rewrite <- app_assoc).
    apply IH; [|exact Hall]. now apply place_packed.
Qed.

Lemma start_packed : packed start [].
Proof.
  unfold packed, start. simpl. repeat split; try lia; intros; discriminate.
Qed.

(** C7 (auto-layout is overlap-free).  For every canvas size and every
    list of widgets with positive width and height, [calculateLayout]
    returns one position per widget and the grid rectangles of any two
    different widgets are disjoint. *)
Theorem layout_is_overlap_free (clientWidth clientHeight : Z) (widgets : list widget) :
  Forall positive widgets ->
  length (calculateLayout clientWidth clientHeight widgets) = length widgets
  /\ forall i j pi pj wi wj,
       i <> j ->
       calculateLayout clientWidth clientHeight widgets !! i = Some pi ->
       widgets !! i = Some wi ->
       calculateLayout clientWidth clientHeight widgets !! j = Some pj ->
       widgets !! j = Some wj ->
       disjoint pi (size wi) pj (size wj).
Proof.
  intros Hall. unfold calculateLayout.
  destruct (fold_place_packed (clientWidth / GRID_SIZE) (clientHeight / GRID_SIZE)
              widgets start [] start_packed Hall) as (Hlen & _ & _ & Hdisj).
  split; [exact Hlen|exact Hdisj].
Qed.

End LayoutProperties.

(** ** Log retention *)

Section LogProperties.
Context `{RT : Runtime}.
Import LogStreamWidget.

Lemma slice_last_drop (n : nat) (lines : list value) :
  (0 < n)%nat -> slice_last n lines = drop (length lines - n) lines.
Proof. destruct n; [lia|reflexivity]. Qed.

Lemma length_slice_last (n : nat) (lines : list value) :
  (0 < n)%nat -> length (slice_last n lines) = Nat.min n (length lines).
Proof. intros Hn. rewrite slice_last_drop by exact Hn. rewrite length_drop. lia. Qed.

Lemma slice_last_app (n : nat) (older lines : list value) :
  (0 < n <= length lines)%nat ->
  slice_last n (older ++ lines) = slice_last n lines.
Proof.
  intros Hn. rewrite !slice_last_drop by lia. rewrite length_app.
  replace (length older + length lines - n)%nat
    with (length older + (length lines - n))%nat by lia.
  now apply drop_app_add'.
Qed.

Lemma slice_last_twice (n : nat) (lines : list value) :
  slice_last n (slice_last n lines) = slice_last n lines.
Proof.
  destruct n as [|n]; [reflexivity|].
  rewrite (slice_last_drop _ (slice_last _ _)) by lia.
  rewrite length_slice_last by lia.
  replace (Nat.min (Datatypes.S n) (length lines) - Datatypes.S n)%nat with 0%nat by lia.
  apply drop_0.
Qed.

(** The last entry pushed is among the lines to format. *)
Lemma slice_last_snoc (n : nat) (lines : list value) (entry : value) :
  (0 < n)%nat ->
  exists earlier, slice_last n (lines ++ [entry]) = (earlier ++ [entry])%list.
Proof.
  intros Hn. rewrite slice_last_drop by exact Hn.
  exists (drop (length (lines ++ [entry]) - n) lines).
  apply drop_app_le. rewrite length_app. cbn [length]. lia.
Qed.

Lemma Array_map_length {A B : Type} (f : A -> completion B) (xs : list A) :
  forall ys, Array_map f xs = Normal ys -> length ys = length xs.
Proof.
  induction xs as [|x xs IH]; intros ys; cbn [Array_map].
  - intros H. now inversion H.
  - destruct (f x) as [y|e]; [|discriminate].
    destruct (Array_map f xs) as [ys'|e]; [|discriminate].
    intros H. inversion H; subst. cbn [length]. f_equal. now apply IH.
Qed.

(** [map] stops at the first element its callback throws on. *)
Lemma Array_map_throws {A B : Type} (f : A -> completion B) (xs ys : list A) (x : A)
    (e : string) :
  f x = Throw e -> exists e', Array_map f (xs ++ x :: ys) = Throw e'.
Proof.
  intros Hx. induction xs as [|x0 xs [e' IH]]; cbn [Array_map app].
  - rewrite Hx. now exists e.
  - destruct (f x0) as [y|e0]; [|now exists e0]. rewrite IH. now exists e'.
Qed.

(** [updateContent] leaves the buffer alone. *)
Lemma updateContent_buffer (w : t) :
  logLines (snd (updateContent w)) = logLines w
  /\ maxLines (snd (updateContent w)) = maxLines w.
Proof.
  unfold updateContent. destruct (element w); [|now split].
  destruct (length (logLines w) =? 0)%nat; [now split|].
  now destruct (Array_map formatLogLine _).
Qed.

Lemma updateContent_up_to_date (w : t) :
  is_Some (element w) -> up_to_date (snd (updateContent w)).
Proof.
  intros [c0 He]. unfold updateContent, up_to_date. rewrite He.
  destruct (logLines w) as [|entry rest] eqn:Hl; cbn [length Nat.eqb snd].
  - exists waiting. cbn [element set_innerHTML logLines]. now rewrite Hl.
  - destruct (Array_map formatLogLine _) as [logHtml|e] eqn:Hmap; cbn [snd].
    + exists (log_lines logHtml). cbn [element set_innerHTML logLines maxLines].
      rewrite Hl. split; [reflexivity|]. intros logHtml' H.
      rewrite Hmap in H. now inversion H.
    + exists c0. rewrite Hl. split; [exact He|]. intros logHtml' H.
      rewrite Hmap in H. discriminate.
Qed.

Lemma updateContent_short_view (w : t) :
  (0 < maxLines w)%nat -> short_view w -> short_view (snd (updateContent w)).
Proof.
  intros Hmax Hw. unfold updateContent. destruct (element w) as [c0|] eqn:He; [|exact Hw].
  destruct (length (logLines w) =? 0)%nat; cbn [snd].
  - intros logHtml H. discriminate.
  - destruct (Array_map formatLogLine _) as [logHtml|e] eqn:Hmap; cbn [snd]; [|exact Hw].
    intros logHtml' H. cbn [element set_innerHTML maxLines] in *.
    inversion H; subst logHtml'.
    rewrite (Array_map_length _ _ _ Hmap), length_slice_last by exact Hmax. lia.
Qed.

(** The buffer [addLogEntry] leaves: the entry pushed, then the trim. *)
Lemma addLogEntry_buffer (entry : value) (w : t) :
  logLines (snd (addLogEntry entry w))
  = (if (maxLines w * 2 <? length (logLines w ++ [entry]))%nat
     then slice_last (maxLines w) (logLines w ++ [entry])
     else logLines w ++ [entry])%list
  /\ maxLines (snd (addLogEntry entry w)) = maxLines w.
Proof.
  unfold addLogEntry. cbv zeta.
  match goal with
  | |- context [updateContent ?w'] => exact (updateContent_buffer w')
  end.
Qed.

Lemma addLogEntry_retains (entry : value) (w : t) (history : list value) :
  retains w history -> retains (snd (addLogEntry entry w)) (history ++ [entry]).
Proof.
  intros (Hmax & Hlen & older & Hhist & Hfull).
  destruct (addLogEntry_buffer entry w) as [Hbuf Hmax'].
  unfold retains. rewrite Hbuf, Hmax', Hmax.
  split; [reflexivity|].
  destruct (50 * 2 <? length (logLines w ++ [entry]))%nat eqn:Hover.
  - apply Nat.ltb_lt in Hover. rewrite length_app in Hover. simpl in Hover.
    split; [rewrite length_slice_last, length_app by lia; cbn [length]; lia|].
    exists (older ++ take (length (logLines w ++ [entry]) - 50) (logLines w ++ [entry]))%list.
    split.
    + rewrite slice_last_drop by lia. rewrite <- app_assoc, take_drop.
      now rewrite Hhist, <- app_assoc.
    + right. rewrite length_slice_last, length_app by lia. cbn [length]. lia.
  - apply Nat.ltb_ge in Hover. split; [exact Hover|].
    exists older. split; [now rewrite Hhist, <- app_assoc|].
    destruct Hfull as [->|Hfull]; [now left|right].
    rewrite length_app. simpl. lia.
Qed.

Lemma updateContent_element (w : t) :
  is_Some (element (snd (updateContent w))) <-> is_Some (element w).
Proof.
  unfold updateContent. destruct (element w) as [c|] eqn:He;
    [|cbn [snd]; now rewrite He].
  split; [now eexists|intros _].
  destruct (length (logLines w) =? 0)%nat; [now eexists|].
  destruct (Array_map formatLogLine _); cbn [snd]; [now eexists|now rewrite He].
Qed.

Lemma constructor_kept : kept constructor [].
Proof.
  split; [|split].
  - split; [reflexivity|]. split; [simpl; lia|].
    exists []. split; [reflexivity|now left].
  - intros logHtml H. discriminate.
  - intros [c Hc]. discriminate.
Qed.

Lemma created_kept : kept created [].
Proof.
  split; [|split].
  - split; [reflexivity|]. split; [simpl; lia|].
    exists []. split; [reflexivity|now left].
  - intros logHtml H. discriminate.
  - intros _. apply updateContent_up_to_date. now eexists.
Qed.

Lemma up_to_date_element (w : t) : up_to_date w -> is_Some (element w).
Proof. intros (c & Hc & _). now exists c. Qed.

Lemma addLogEntry_element (entry : value) (w : t) :
  is_Some (element (snd (addLogEntry entry w))) <-> is_Some (element w).
Proof. unfold addLogEntry. cbv zeta. now rewrite updateContent_element. Qed.

Lemma addLogEntry_kept (entry : value) (w : t) (history : list value) :
  kept w history -> kept (snd (addLogEntry entry w)) (history ++ [entry]).
Proof.
  intros (Hret & Hshort & Hup). split; [now apply addLogEntry_retains|].
  destruct Hret as (Hmax & _). split.
  - unfold addLogEntry.
    apply updateContent_short_view; [cbn [maxLines set_logLines]; lia|exact Hshort].
  - intros Hel. apply (proj1 (addLogEntry_element entry w)) in Hel. unfold addLogEntry.
    now apply updateContent_up_to_date.
Qed.

Lemma after_entries_kept (start : t) (entries : list value) :
  kept start [] -> kept (after_entries start entries) entries.
Proof.
  unfold after_entries.
  assert (Hgen : forall w history,
             kept w history ->
             kept (fold_left (fun w entry => snd (addLogEntry entry w)) entries w)
                  (history ++ entries)).
  { induction entries as [|e entries IH]; intros w history Hw; simpl.
    - now rewrite app_nil_r.
    - replace (history ++ e :: entries)%list with ((history ++ [e]) ++ entries)%list
        by (now rewrite <- app_assoc).
      apply IH. now apply addLogEntry_kept. }
  apply (Hgen start []).
Qed.

Lemma after_entries_element (start : t) (entries : list value) :
  is_Some (element (after_entries start entries)) <-> is_Some (element start).
Proof.
  unfold after_entries. revert start.
  induction entries as [|e entries IH]; intros start; [reflexivity|].
  cbn [fold_left]. now rewrite IH, addLogEntry_element.
Qed.

(** The last [maxLines] entries of the buffer are those of the history. *)
Lemma retains_recent (w : t) (history : list value) :
  retains w history -> slice_last 50 (logLines w) = slice_last 50 history.
Proof.
  intros (_ & _ & older & Hhist & Hfull). rewrite Hhist.
  destruct Hfull as [->|Hfull]; [reflexivity|].
  symmetry. apply slice_last_app. lia.
Qed.

Lemma retains_nonempty (w : t) (history : list value) :
  retains w history -> history <> [] -> logLines w <> [].
Proof.
  intros (_ & _ & older & Hhist & Hfull) Hne Hnil. rewrite Hnil in *.
  destruct Hfull as [->|Hfull]; [now rewrite Hhist in Hne|simpl in Hfull; lia].
Qed.

(** A widget with its element shows the last lines of its history
    whenever they can all be formatted. *)
Lemma kept_view (w : t) (history : list value) (logHtml : list line) :
  kept w history -> is_Some (element w) -> history <> [] ->
  Array_map formatLogLine (slice_last 50 history) = Normal logHtml ->
  element w = Some (log_lines logHtml).
Proof.
  intros (Hret & _ & Hup) Hel Hne Hmap. destruct (Hup Hel) as (c & Hc & Hview).
  pose proof (retains_nonempty w history Hret Hne) as Hbuf.
  rewrite <- (retains_recent w history Hret) in Hmap.
  destruct Hret as (Hmax & _). rewrite Hmax in Hview.
  destruct (logLines w) as [|entry rest]; [contradiction|].
  now rewrite Hc, (Hview logHtml Hmap).
Qed.

(** An entry that cannot be formatted is pushed, and the content stays. *)
Lemma addLogEntry_unformatted (entry : value) (error : string) (w : t) :
  maxLines w = 50%nat ->
  formatLogLine entry = Throw error ->
  (exists error', fst (addLogEntry entry w) = Throw error')
  /\ element (snd (addLogEntry entry w)) = element w.
Proof.
  intros Hmax Hentry. unfold addLogEntry, updateContent.
  cbn [element set_logLines logLines maxLines].
  destruct (element w) as [c|] eqn:He; [|split; [now eexists|exact He]].
  rewrite Hmax.
  set (pushed := (logLines w ++ [entry])%list).
  assert (Hrecent : exists earlier,
             slice_last 50 (if (50 * 2 <? length pushed)%nat
                            then slice_last 50 pushed else pushed)
             = (earlier ++ [entry])%list).
  { destruct (50 * 2 <? length pushed)%nat; [rewrite slice_last_twice|];
      apply slice_last_snoc; lia. }
  destruct Hrecent as [earlier Hrecent].
  assert (Hlen : (length (if (50 * 2 <? length pushed)%nat
                          then slice_last 50 pushed else pushed) =? 0)%nat = false).
  { apply Nat.eqb_neq. intros Hzero.
    apply (f_equal (@length value)) in Hrecent.
    rewrite length_slice_last, Hzero, length_app in Hrecent by lia.
    cbn [length] in Hrecent. lia. }
  rewrite Hlen, Hrecent.
  destruct (Array_map_throws formatLogLine earlier [] entry error Hentry) as [e' He'].
  rewrite He'. cbn [fst snd element set_logLines]. split; [now exists e'|exact He].
Qed.

(** An entry whose level is there and is no string cannot be formatted. *)
Lemma formatLogLine_level (fields : list (string * value)) :
  (forall level, get_default (VObj fields) "level" (VStr "INFO") <> VStr level) ->
  exists error, formatLogLine (VObj fields) = Throw error.
Proof.
  intros Hlevel. unfold formatLogLine.
  destruct (get_default (VObj fields) "level" (VStr "INFO")) as [| | | |level| |];
    try (now eexists).
  now destruct (Hlevel level).
Qed.

(** C8, as the code has it.  After any sequence of [addLogEntry] calls on
    a new widget, before or after [createElement], with N = [maxLines] =
    50: the buffer holds at most 2N entries and they are the most recent
    ones; one more entry on a buffer of 2N trims it to the most recent N,
    and on a shorter buffer is just appended; the view holds at most N
    lines.  Once the widget has its element, the view shows the most
    recent N entries of everything logged whenever each of them can be
    formatted.  A call with an entry that cannot be formatted updates the
    buffer all the same, throws, and leaves the view as it was.  A
    string can always be formatted; an object whose level is there and is
    no string cannot. *)
Theorem log_retention_is_bounded (start : t) (entries : list value) :
  start = constructor \/ start = created ->
  let w := after_entries start entries in
  maxLines w = 50%nat
  /\ (length (logLines w) <= 2 * maxLines w)%nat
  /\ logLines w `suffix_of` entries
  /\ (forall entry,
        ((length (logLines w) < 2 * maxLines w)%nat ->
         logLines (snd (addLogEntry entry w)) = (logLines w ++ [entry])%list)
        /\ (length (logLines w) = (2 * maxLines w)%nat ->
            logLines (snd (addLogEntry entry w))
            = slice_last (maxLines w) (logLines w ++ [entry])
            /\ length (logLines (snd (addLogEntry entry w))) = maxLines w))
  /\ (forall logHtml,
        element w = Some (log_lines logHtml) -> (length logHtml <= maxLines w)%nat)
  /\ (start = created ->
      forall logHtml,
        entries <> [] ->
        Array_map formatLogLine (slice_last (maxLines w) entries) = Normal logHtml ->
        element w = Some (log_lines logHtml))
  /\ (forall entry error,
        formatLogLine entry = Throw error ->
        (exists error', fst (addLogEntry entry w) = Throw error')
        /\ element (snd (addLogEntry entry w)) = element w)
  /\ (forall text, formatLogLine (VStr text) = Normal (text_line text))
  /\ (forall fields,
        (forall level,
           get_default (VObj fields) "level" (VStr "INFO") <> VStr level) ->
        exists error, formatLogLine (VObj fields) = Throw error).
Proof.
  intros Hstart w.
  assert (Hkept : kept w entries).
  { apply after_entries_kept.
    destruct Hstart as [->| ->]; [apply constructor_kept|apply created_kept]. }
  pose proof Hkept as (Hret & Hshort & Hup).
  pose proof Hret as (Hmax & Hlen & older & Hhist & Hfull). rewrite Hmax.
  split; [reflexivity|]. split; [simpl; lia|].
  split; [now exists older|]. split; [|split; [|split; [|split; [|split]]]].
  - intros entry. destruct (addLogEntry_buffer entry w) as [-> _]. rewrite Hmax.
    destruct (Nat.ltb_spec (50 * 2) (length (logLines w ++ [entry]))) as [H|H];
      rewrite length_app in H; cbn [length] in H; (split; [intros Hshort'|intros Hfull']);
      try lia; try reflexivity.
    split; [reflexivity|].
    rewrite length_slice_last, length_app by lia. cbn [length]. lia.
  - intros logHtml Hshown. rewrite <- Hmax. now apply Hshort.
  - intros -> logHtml Hne Hmap.
    apply (kept_view w entries logHtml Hkept); [|exact Hne|exact Hmap].
    apply after_entries_element. now eexists.
  - intros entry error Hentry.
    exact (addLogEntry_unformatted entry error w Hmax Hentry).
  - reflexivity.
  - apply formatLogLine_level.
Qed.

End LogProperties.

(** ** Memory formatting *)

Section MemoryProperties.
Context `{RT : Runtime}.

Lemma append_bar_not (t b : string) :
  includes t "|" = false -> forall a, a ++ "|" ++ b <> t.
Proof.
  intros Hno a. revert t Hno. induction a as [|ch a IH]; intros t Hno Heq.
  - subst t. simpl in Hno. discriminate.
  - destruct t as [|ch' t]; [discriminate|]. simpl in Heq. inversion Heq; subst.
    apply (IH (a ++ "|" ++ b)); [|reflexivity].
    simpl in Hno. apply orb_false_iff in Hno as [_ Hno]. exact Hno.
Qed.

Lemma item_key_not_proto (item : value) : item_key item <> "__proto__".
Proof. unfold item_key. now apply append_bar_not. Qed.

Lemma dict_assign_lookup (k : string) (v : value) (d : dict) :
  k <> "__proto__" -> own (dict_assign k v d) !! k = Some v.
Proof.
  intros Hk. unfold dict_assign. apply String.eqb_neq in Hk. rewrite Hk. simpl.
  apply lookup_insert_eq.
Qed.

(** What an accepted item leaves in the cache, when classifying its value
    does not throw. *)
Lemma telemetry_item_stores (item : value) (v : value) (c : cache) :
  accepted item = true ->
  processedValue (get item "metric_type") (get item "name") = Normal v ->
  own (telemetryData (snd (telemetry_item item c))) !! item_key item
  = Some (VObj [("name", get item "name");
                ("labels", get_default item "labels" (VObj []));
                ("value", v);
                ("cached_rate", get_default item "cached_rate" (VNum 0));
                ("last_updated", get item "last_updated");
                ("metric_type", get item "metric_type");
                ("key", VStr (item_key item))]).
Proof.
  unfold accepted, telemetry_item. intros Hacc Hv.
  repeat (apply andb_prop in Hacc as [Hacc ?]).
  replace (negb (truthy item) || negb (typeof_object item)) with false
    by (destruct (truthy item), (typeof_object item); simpl in *; congruence).
  replace (negb (truthy (get item "name")) || negb (truthy (get item "metric_type")))
    with false
    by (destruct (truthy (get item "name")), (truthy (get item "metric_type"));
        simpl in *; congruence).
  destruct (is_string _ "gauge"), (is_string _ "counter"), (is_string _ "histogram");
    try discriminate; simpl;
    unfold bind, lift, modify; rewrite Hv; simpl;
    apply dict_assign_lookup, item_key_not_proto.
Qed.

(** The cached entry carries no unit hints of its own, so the display
    classifies it by its name alone. *)
Lemma getMetricType_of_entry (name labels v rate updated metric_type key : value) :
  getMetricType
    (VObj [("name", name); ("labels", labels); ("value", v);
           ("cached_rate", rate); ("last_updated", updated);
           ("metric_type", metric_type); ("key", key)]) name
  = metric_type_by_name name.
Proof. reflexivity. Qed.

Lemma geq_true (a b : Q) : geq a b = true <-> (b <= a)%Q.
Proof. unfold geq. apply Qle_bool_iff. Qed.

Lemma geq_false (a b : Q) : geq a b = false <-> (a < b)%Q.
Proof.
  unfold geq. split.
  - intros H. apply Qnot_le_lt. intros Hle. apply Qle_bool_iff in Hle. congruence.
  - intros H. destruct (Qle_bool b a) eqn:E; [|reflexivity].
    apply Qle_bool_iff in E. exfalso. now apply (Qlt_not_le _ _ H).
Qed.

(** [formatMemory] picks its unit as if the argument were kibibytes. *)
Lemma memory_unit_thresholds (v : Q) :
  memory_unit v =
    if geq (Qabs v) (1024 * 1024 * 1024) then "TB"
    else if geq (Qabs v) (1024 * 1024) then "GB"
    else if geq (Qabs v) 1024 then "MB"
    else if geq (Qabs v) 1 then "KB"
    else "B".
Proof.
  unfold memory_unit, formatMemory_parts, memory_absValue, memory_units_desc.
  set (a := Qabs v). cbn [select_unit snd fst].
  repeat match goal with
         | |- context [geq ?x ?y] =>
             let E := fresh "E" in
             destruct (geq x y) eqn:E;
             [apply geq_true in E|apply geq_false in E]
         end; cbn [snd fst]; try reflexivity; exfalso; lra.
Qed.

(** C9, as the code has it.  [formatMemory] takes its argument for
    kibibytes: it multiplies the magnitude by 1024 before it picks a unit,
    so 1 is printed as 1 KB and the unit steps up at 1, 1024, 1024^2 and
    1024^3.  A telemetry value that the ingest classifies as memory is
    stored multiplied by 1024; when the metric's name itself is a memory
    name, the display formats the stored number with [formatMemory], so
    the value is scaled by 1024 twice between message and display. *)
Theorem memory_values_scaled_twice (item : value) (q : Q) (c : cache) :
  formatMemory 1 = "1 KB"
  /\ (forall v : Q,
        memory_absValue v = (Qabs v * 1024)%Q
        /\ memory_unit v =
             if geq (Qabs v) (1024 * 1024 * 1024) then "TB"
             else if geq (Qabs v) (1024 * 1024) then "GB"
             else if geq (Qabs v) 1024 then "MB"
             else if geq (Qabs v) 1 then "KB"
             else "B")
  /\ (accepted item = true ->
      get (get item "metric_type") "value" = VNum q ->
      getMetricType (get item "metric_type") (get item "name") = Normal "memory" ->
      metric_type_by_name (get item "name") = Normal "memory" ->
      exists entry,
        own (telemetryData (snd (telemetry_item item c))) !! item_key item = Some entry
        /\ get entry "value" = VNum (q * 1024)
        /\ display_metric entry = Normal (formatMemory (q * 1024))
        /\ (memory_absValue (q * 1024) == Qabs q * 1024 * 1024)%Q).
Proof.
  split; [vm_compute; reflexivity|]. split.
  - intros v. split; [reflexivity|apply memory_unit_thresholds].
  - intros Hacc Hvalue Hingest Hname.
    eexists. split.
    + apply telemetry_item_stores; [exact Hacc|].
      unfold processedValue. rewrite Hvalue, Hingest. reflexivity.
    + split; [reflexivity|]. split.
      * unfold display_metric. cbn [get assoc String.eqb Ascii.eqb Bool.eqb].
        unfold formatValue. rewrite getMetricType_of_entry, Hname. reflexivity.
      * unfold memory_absValue. rewrite Qabs_Qmult.
        change (Qabs 1024) with 1024%Q. reflexivity.
Qed.

End MemoryProperties.

(** ** Worked examples *)

Section WorkedExamples.
Import Examples.

(** The scenario of the specification: [cpu_temp = 42.5] is still cached
    after a message with an empty metrics array, one that is not JSON and
    one about another metric. *)
Lemma telemetry_last_known_good_witness :
  own (telemetryData
         (process (RT := plain) Telemetry ["empty_metrics"; "not json"; "heap"]
            (process (RT := plain) Telemetry ["cpu_temp"] initial_cache)))
    !! "cpu_temp|{}"
  = Some (VObj [("name", VStr "cpu_temp"); ("labels", VObj []);
                ("value", VNum (85 # 2)); ("cached_rate", VNum 0);
                ("last_updated", VNum 1000);
                ("metric_type",
                 VObj [("type", VStr "gauge"); ("value", VNum (85 # 2))]);
                ("key", VStr "cpu_temp|{}")]).
Proof.
  apply (telemetry_last_known_good (RT := plain)).
  - vm_compute. reflexivity.
  - repeat constructor. vm_compute. discriminate.
Defined.

(** A balance message with one order replaces the order cached before. *)
Lemma orders_replaced_wholesale_witness :
  balance_orders_wellformed (RT := plain) "balance" = true
  /\ openOrdersData (snd (parseBalanceMessage (RT := plain) "balance" cache_with_order))
     = [order_eth].
Proof.
  split; [reflexivity|].
  apply (orders_replaced_wholesale (RT := plain) "balance" cache_with_order).
  reflexivity.
Defined.

(** Text that is not JSON, on the balance stream. *)
Lemma decode_fault_leaves_cache_witness :
  rejected_at_decode (RT := plain) Balance "not json" = true
  /\ snd (parse (RT := plain) Balance "not json" cache_with_order) = cache_with_order.
Proof.
  split; [reflexivity|].
  apply (decode_fault_leaves_cache (RT := plain) Balance "not json" cache_with_order).
  reflexivity.
Defined.

(** C5 as stated fails: a balance message whose [open_orders] is a number
    is a decode fault (the body throws a TypeError, which is caught and
    logged), yet the cached orders are gone. *)
Lemma decode_fault_after_clearing_orders :
  fst (parseBalanceMessage_try (RT := plain) "bad_orders" cache_with_order)
    = Throw "TypeError: forEach is not a function"
  /\ fst (parseBalanceMessage (RT := plain) "bad_orders" cache_with_order) = Normal tt
  /\ openOrdersData cache_with_order = [order_btc]
  /\ openOrdersData (snd (parseBalanceMessage (RT := plain) "bad_orders" cache_with_order))
     = []
  /\ snd (parseBalanceMessage (RT := plain) "bad_orders" cache_with_order)
     <> cache_with_order.
Proof.
  repeat split; try reflexivity.
  intros H. apply (f_equal openOrdersData) in H. discriminate H.
Qed.

(** The same on the telemetry stream: the second item has a number for a
    name, the TypeError is caught, and the first item is already cached. *)
Lemma decode_fault_after_first_metric :
  fst (parseTelemetryMessage_try (RT := plain) "half_bad_metrics" initial_cache)
    = Throw "TypeError: toLowerCase is not a function"
  /\ is_Some (own (telemetryData
                (snd (parseTelemetryMessage (RT := plain) "half_bad_metrics" initial_cache)))
              !! "heap_memory|{}")
  /\ own (telemetryData initial_cache) !! "heap_memory|{}" = None.
Proof.
  split; [vm_compute; reflexivity|]. split; [|reflexivity].
  vm_compute. eexists. reflexivity.
Qed.

(** The second of three subscribers throws; all three are called. *)
Lemma publish_isolates_failures_witness :
  exists w',
    Bus.notifyWidgets 4 (one_throws 1) "telemetry" tt (world_of three_subscribers)
    = Some (Normal tt, w')
    /\ Bus.new_calls (world_of three_subscribers) w'
       = [(0%nat, tt); (1%nat, tt); (2%nat, tt)].
Proof.
  apply (proj2 (proj2 (publish_isolates_failures (one_throws 1) Bus.telemetry tt 4
                         (world_of three_subscribers)))).
  - intros c _ data s. reflexivity.
  - simpl. lia.
Defined.

(** C4 as stated fails: the first of three subscribers unsubscribes the
    third; the publish ends without having called the third, which was
    subscribed when the publish began. *)
Lemma unsubscribed_mid_publish_not_called :
  Bus.members (Bus.subscribers Bus.telemetry three_subscribers) = [0; 1; 2]%nat
  /\ exists w',
       Bus.notifyWidgets 10 (one_calls 0 (Bus.Unsubscribe Bus.telemetry 2))
         "telemetry" tt (world_of three_subscribers)
       = Some (Normal tt, w')
       /\ Bus.invoked_by (world_of three_subscribers) w' = [0; 1]%nat
       /\ ~ In 2%nat (Bus.invoked_by (world_of three_subscribers) w').
Proof.
  split; [reflexivity|]. eexists. split; [vm_compute; reflexivity|].
  split; [reflexivity|]. vm_compute. intuition discriminate.
Qed.

(** Three runs of the live walk: subscriber 0 unsubscribes subscriber 2,
    subscriber 0 subscribes a new callback 7, nobody changes the set. *)
Lemma publish_walks_live_set_witness :
  (exists w',
     Bus.notifyWidgets 4 (one_calls 0 (Bus.Unsubscribe Bus.telemetry 2))
       "telemetry" tt (world_of three_subscribers) = Some (Normal tt, w')
     /\ Bus.invoked_by (world_of three_subscribers) w' = [0; 1]%nat
     /\ ~ In 2%nat (Bus.invoked_by (world_of three_subscribers) w'))
  /\ (exists w',
        Bus.notifyWidgets 5 (one_calls 0 (Bus.Subscribe Bus.telemetry 7))
          "telemetry" tt (world_of three_subscribers) = Some (Normal tt, w')
        /\ Bus.invoked_by (world_of three_subscribers) w' = [0; 1; 2; 7]%nat)
  /\ (exists w',
        Bus.notifyWidgets 4 (one_throws 1) "telemetry" tt (world_of three_subscribers)
        = Some (Normal tt, w')
        /\ Bus.invoked_by (world_of three_subscribers) w' = [0; 1; 2]%nat).
Proof.
  split; [|split].
  - apply (proj1 (publish_walks_live_set
                    (one_calls 0 (Bus.Unsubscribe Bus.telemetry 2)) Bus.telemetry tt 4
                    (world_of three_subscribers)) [] 0%nat [Some 1%nat] 2%nat []).
    + reflexivity.
    + apply NoDup_ListNoDup. repeat constructor; simpl; intuition lia.
    + intros data s. reflexivity.
    + intros c Hc data s. unfold one_calls. simpl.
      destruct (Nat.eqb_spec c 0); [contradiction|reflexivity].
    + simpl. lia.
  - apply (proj1 (proj2 (publish_walks_live_set
                    (one_calls 0 (Bus.Subscribe Bus.telemetry 7)) Bus.telemetry tt 5
                    (world_of three_subscribers))) [] 0%nat [Some 1; Some 2]%nat 7%nat).
    + reflexivity.
    + apply NoDup_ListNoDup. repeat constructor; simpl; intuition lia.
    + vm_compute. intuition discriminate.
    + intros data s. reflexivity.
    + intros c Hc data s. unfold one_calls. simpl.
      destruct (Nat.eqb_spec c 0); [contradiction|reflexivity].
    + simpl. lia.
  - apply (proj2 (proj2 (publish_walks_live_set (one_throws 1) Bus.telemetry tt 4
                           (world_of three_subscribers)))).
    + intros c _ data s. reflexivity.
    + simpl. lia.
Defined.

End WorkedExamples.

Section MoreExamples.
Import Examples.
Local Open Scope Q_scope.

(** C6 as stated fails: [setScale] itself stores any number. *)
Lemma setScale_stores_out_of_range :
  Canvas.scale (Canvas.setScale 3 Canvas.constructor) = 3
  /\ ~ Canvas.in_zoom_bounds (Canvas.scale (Canvas.setScale 3 Canvas.constructor))
  /\ ~ Canvas.in_zoom_bounds (Canvas.scale (Canvas.setScale (1 # 10) Canvas.constructor)).
Proof.
  split; [reflexivity|]. split; intros [Hlo Hhi]; simpl in *.
  - now apply Hhi.
  - now apply Hlo.
Qed.

(** A pinch from 30 px to 300 px would give a scale of 10 and stores 2;
    the zoom-in key after it leaves 2. *)
Lemma zoom_scale_stays_in_bounds_witness :
  Canvas.in_zoom_bounds
    (Canvas.scale
       (fold_left (Canvas.dispatch (RT := plain))
          [Canvas.touchstart fingers_near; Canvas.touchmove fingers_far;
           Canvas.keydown {| Canvas.ctrlKey := true; Canvas.metaKey := false;
                             Canvas.key := "+" |}]
          Canvas.constructor))
  /\ Canvas.scale
       (Canvas.handleTouchMove (RT := plain) fingers_far
          (Canvas.handleTouchStart (RT := plain) fingers_near Canvas.constructor))
     = 2.
Proof.
  destruct (zoom_scale_stays_in_bounds (RT := plain)
              [Canvas.touchstart fingers_near; Canvas.touchmove fingers_far;
               Canvas.keydown {| Canvas.ctrlKey := true; Canvas.metaKey := false;
                                 Canvas.key := "+" |}])
    as (_ & Hbounds & Hpinch).
  split; [exact Hbounds|].
  apply (Hpinch fingers_far
           (Canvas.handleTouchStart (RT := plain) fingers_near Canvas.constructor)).
  - split; [reflexivity|]. split; [reflexivity|]. split; vm_compute; discriminate.
  - reflexivity.
  - simpl. lia.
  - vm_compute. reflexivity.
  - vm_compute. reflexivity.
Defined.

Local Close Scope Q_scope.

(** The scenario of the specification: two 4x3 widgets on a canvas six
    grid units wide go to (0,0) and (0,4). *)
Lemma layout_is_overlap_free_witness :
  AutoLayout.calculateLayout 120 1000 [widget_4x3; widget_4x3]
  = [{| AutoLayout.x := 0; AutoLayout.y := 0 |};
     {| AutoLayout.x := 0; AutoLayout.y := 4 |}]
  /\ AutoLayout.disjoint
       {| AutoLayout.x := 0; AutoLayout.y := 0 |} (AutoLayout.size widget_4x3)
       {| AutoLayout.x := 0; AutoLayout.y := 4 |} (AutoLayout.size widget_4x3).
Proof.
  split; [reflexivity|].
  apply (proj2 (layout_is_overlap_free 120 1000 [widget_4x3; widget_4x3]
                  ltac:(repeat constructor; simpl; lia)) 0%nat 1%nat);
    [lia|reflexivity..].
Defined.

(** A page that is too low: the second row is pushed down, nothing
    overlaps. *)
Example layout_page_skip :
  AutoLayout.getOptimalLayout [widget_4x3; widget_4x3; widget_4x3] 200 100
  = [{| AutoLayout.x := 0; AutoLayout.y := 0 |};
     {| AutoLayout.x := 5; AutoLayout.y := 0 |};
     {| AutoLayout.x := 0; AutoLayout.y := 9 |}].
Proof. reflexivity. Qed.

(** C9 as stated fails: a metric marked as memory only by a unit hint is
    classified memory at ingest and stored multiplied by 1024, but the
    display, which looks at the cached entry, takes it for a plain number:
    the message value 1 is shown as 1024, not as [formatMemory 1024]. *)
Lemma hinted_memory_scaled_once :
  getMetricType (get hinted_item "metric_type") (get hinted_item "name")
    = Normal "memory"
  /\ exists entry,
       own (telemetryData (snd (telemetry_item (RT := plain) hinted_item initial_cache)))
         !! "foo|{}" = Some entry
       /\ get entry "value" = VNum (1 * 1024)
       /\ display_metric (RT := plain) entry = Normal "1024"
       /\ formatMemory (RT := plain) (1 * 1024) = "1 MB"
       /\ display_metric (RT := plain) entry
          <> Normal (formatMemory (RT := plain) (1 * 1024)).
Proof.
  split; [reflexivity|]. eexists. split; [vm_compute; reflexivity|].
  split; [reflexivity|]. split; [vm_compute; reflexivity|].
  split; [vm_compute; reflexivity|]. vm_compute. discriminate.
Qed.

(** A metric named [heap_memory] sent as 1 (KB) is cached as 1024 and
    shown as 1 MB. *)
Lemma memory_values_scaled_twice_witness :
  exists entry,
    own (telemetryData (snd (telemetry_item (RT := plain) heap_item initial_cache)))
      !! item_key (RT := plain) heap_item = Some entry
    /\ get entry "value" = VNum (1 * 1024)
    /\ display_metric (RT := plain) entry
       = Normal (formatMemory (RT := plain) (1 * 1024))
    /\ (memory_absValue (1 * 1024) == Qabs 1 * 1024 * 1024)%Q.
Proof.
  apply (proj2 (proj2 (memory_values_scaled_twice (RT := plain) heap_item 1
                         initial_cache))); reflexivity.
Defined.

(** A buffer of 100 lines takes one more: the oldest 51 go.  A
    structured entry is shown part by part; an entry whose level is a
    number is pushed after it, and the view stays. *)
Lemma log_retention_is_bounded_witness :
  length (LogStreamWidget.logLines
            (LogStreamWidget.after_entries (RT := plain) LogStreamWidget.constructor
               (replicate 100 (VStr "line"))))
  = 100%nat
  /\ length (LogStreamWidget.logLines
               (snd (LogStreamWidget.addLogEntry (RT := plain) (VStr "last")
                       (LogStreamWidget.after_entries (RT := plain)
                          LogStreamWidget.constructor (replicate 100 (VStr "line"))))))
     = 50%nat
  /\ LogStreamWidget.element
       (LogStreamWidget.after_entries (RT := plain) (LogStreamWidget.created (RT := plain))
          [LogSamples.disk_full])
     = Some (LogStreamWidget.log_lines
               [LogStreamWidget.entry_line (Some "12:00:01") "text-yellow-300" "warn "
                  "storage   " (Some "7") "disk full"])
  /\ LogStreamWidget.element
       (snd (LogStreamWidget.addLogEntry (RT := plain) LogSamples.level_five
               (LogStreamWidget.after_entries (RT := plain)
                  (LogStreamWidget.created (RT := plain)) [LogSamples.disk_full])))
     = LogStreamWidget.element
         (LogStreamWidget.after_entries (RT := plain)
            (LogStreamWidget.created (RT := plain)) [LogSamples.disk_full]).
Proof.
  split; [reflexivity|].
  destruct (log_retention_is_bounded (RT := plain) LogStreamWidget.constructor
              (replicate 100 (VStr "line")) (or_introl eq_refl))
    as (Hmax & _ & _ & Hstep & _).
  destruct (Hstep (VStr "last")) as [_ Htrim].
  split; [rewrite (proj2 (Htrim ltac:(reflexivity))); exact Hmax|].
  destruct (log_retention_is_bounded (RT := plain) (LogStreamWidget.created (RT := plain))
              [LogSamples.disk_full] (or_intror eq_refl))
    as (_ & _ & _ & _ & _ & Hview & Hstay & _).
  split.
  - apply Hview; [reflexivity|discriminate|vm_compute; reflexivity].
  - apply (Hstay LogSamples.level_five "TypeError: level.toUpperCase is not a function").
    reflexivity.
Defined.

(** C8 as stated fails: on a widget with its element, after fifty lines
    of text and an entry whose level is a number, the view still shows
    the first line, which is not among the fifty most recent entries. *)
Lemma unformatted_entry_leaves_older_lines :
  exists logHtml,
    LogStreamWidget.element
      (LogStreamWidget.after_entries (RT := plain) (LogStreamWidget.created (RT := plain))
         LogSamples.fifty_then_level_five)
    = Some (LogStreamWidget.log_lines logHtml)
    /\ ~ (forall l, In l logHtml ->
            exists entry,
              In entry (LogStreamWidget.slice_last 50 LogSamples.fifty_then_level_five)
              /\ LogStreamWidget.formatLogLine (RT := plain) entry = Normal l).
Proof.
  eexists. split; [vm_compute; reflexivity|].
  intros Hrecent.
  destruct (Hrecent (LogStreamWidget.text_line "first")) as (entry & Hin & Hline);
    [left; reflexivity|].
  vm_compute in Hin.
  repeat (destruct Hin as [<-|Hin]; [vm_compute in Hline; discriminate|]).
  exact Hin.
Qed.

Example heap_memory_displayed :
  formatMemory (RT := plain) (1 * 1024) = "1 MB".
Proof. vm_compute. reflexivity. Qed.

(** C10: the registry is an object literal, so a stream name that is a
    member of [Object.prototype] is not one of the four channels and yet
    passes the truthiness guard: subscribing or unsubscribing on it throws
    a TypeError instead of doing nothing. *)
Theorem inherited_stream_name_throws :
  (forall ch, Bus.channel_name ch <> "constructor")
  /\ Bus.subscribeToStream "constructor" 7%nat Bus.widgetSubscribers_init
     = (Throw "TypeError: widgetSubscribers[streamName].add is not a function",
        Bus.widgetSubscribers_init)
  /\ Bus.unsubscribeFromStream "toString" 7%nat Bus.widgetSubscribers_init
     = (Throw "TypeError: widgetSubscribers[streamName].delete is not a function",
        Bus.widgetSubscribers_init)
  /\ Bus.subscribeToStream "no-such-stream" 7%nat Bus.widgetSubscribers_init
     = (Normal tt, Bus.widgetSubscribers_init).
Proof.
  split; [intros []; discriminate|]. repeat split.
Qed.

End MoreExamples.

(** * Further properties *)

(** ** Subscriptions *)

Section SubscriptionRuns.
Import Bus BusRuns.
Implicit Types (c : callback) (r : registry) (ch : channel).

Lemma replay_well_formed (ops : list bus_call) ch :
  well_formed (subscribers ch (replay ops)).
Proof. apply reachable_well_formed. Qed.

Lemma subscribers_after_subscribe ch c r :
  subscribers ch (snd (subscribeToStream (channel_name ch) c r))
  = Set_add c (subscribers ch r).
Proof.
  unfold subscribeToStream. rewrite lookup_channel_name. simpl.
  rewrite subscribers_update. now destruct ch.
Qed.

Lemma subscribers_after_unsubscribe ch c r :
  subscribers ch (snd (unsubscribeFromStream (channel_name ch) c r))
  = Set_delete c (subscribers ch r).
Proof.
  unfold unsubscribeFromStream. rewrite lookup_channel_name. simpl.
  rewrite subscribers_update. now destruct ch.
Qed.

(** X1.  Subscribing a callback to a stream name it is already subscribed
    to changes nothing: any number [n + 1] of subscriptions in a row leave
    the registry exactly as one does, and complete the same way, whatever
    the name. *)
Theorem repeated_subscription_is_one (streamName : string) c r (n : nat) :
  Nat.iter (Datatypes.S n) (fun r => snd (subscribeToStream streamName c r)) r
  = snd (subscribeToStream streamName c r)
  /\ subscribeToStream streamName c (snd (subscribeToStream streamName c r))
     = subscribeToStream streamName c r.
Proof.
  split; [apply subscribe_many_times|apply subscribe_idempotent].
Qed.

(** X2.  In any registry the two exported functions can build, a callback
    subscribed to a channel, once or several times, is called exactly once
    by a publish on that channel (the subscribers leaving the channel's
    set alone during the publish). *)
Theorem subscribed_callback_called_once {P S : Type} (beh : behaviour P S)
    (ops : list bus_call) ch c (n : nat) (data : P) (s : S) (fuel : nat) :
  let r := Nat.iter (Datatypes.S n)
             (fun r => snd (subscribeToStream (channel_name ch) c r)) (replay ops) in
  (forall c', quiet_on beh ch c') ->
  (length (subscribers ch r) < fuel)%nat ->
  exists w',
    notifyWidgets fuel beh (channel_name ch) data (fresh_world r s) = Some (Normal tt, w')
    /\ count_occ Nat.eq_dec (invoked_by (fresh_world r s) w') c = 1%nat.
Proof.
  intros r Hquiet Hfuel.
  assert (Hr : r = snd (subscribeToStream (channel_name ch) c (replay ops))).
  { apply subscribe_many_times. }
  apply published_once; simpl; try assumption.
  - rewrite Hr. apply well_formed_after_subscribe, replay_well_formed.
  - rewrite Hr. apply subscribed_after_subscribe.
  - intros c' _. apply Hquiet.
Qed.

(** X3.  In any registry the two exported functions can build, one
    unsubscribe removes the callback from the channel however often it was
    subscribed, a publish on the channel then does not call it (the
    subscribers leaving the channel's set alone), and the other callbacks
    stay subscribed in their order. *)
Theorem unsubscribe_takes_effect {P S : Type} (beh : behaviour P S)
    (ops : list bus_call) ch c (data : P) (s : S) (fuel : nat) :
  let r := snd (unsubscribeFromStream (channel_name ch) c (replay ops)) in
  ~ In c (members (subscribers ch r))
  /\ members (subscribers ch r)
     = List.filter (fun c' => negb (Nat.eqb c' c)) (members (subscribers ch (replay ops)))
  /\ ((forall c', quiet_on beh ch c') ->
      (length (subscribers ch r) < fuel)%nat ->
      exists w',
        notifyWidgets fuel beh (channel_name ch) data (fresh_world r s)
        = Some (Normal tt, w')
        /\ ~ In c (invoked_by (fresh_world r s) w')).
Proof.
  intros r. pose proof (replay_well_formed ops ch) as Hwf.
  assert (Hmem : members (subscribers ch r)
                 = List.filter (fun c' => negb (Nat.eqb c' c))
                     (members (subscribers ch (replay ops)))).
  { unfold r. rewrite subscribers_after_unsubscribe. now apply members_Set_delete. }
  assert (Hnot : ~ In c (members (subscribers ch r))).
  { rewrite Hmem, filter_In, negb_true_iff, Nat.eqb_neq. tauto. }
  split; [exact Hnot|]. split; [exact Hmem|].
  intros Hquiet Hfuel.
  destruct (publish_quiet beh ch data fuel (fresh_world r s)) as (w' & Hrun & _ & Hcalls);
    [intros c' _; apply Hquiet|exact Hfuel|].
  exists w'. split; [exact Hrun|].
  unfold invoked_by. rewrite Hcalls, map_map. simpl. now rewrite map_id.
Qed.

Lemma subscribe_all_members ch (cs : list callback) :
  forall r,
    NoDup (members (subscribers ch r) ++ cs)%list ->
    members (subscribers ch (subscribe_all (channel_name ch) cs r))
    = (members (subscribers ch r) ++ cs)%list.
Proof.
  induction cs as [|c cs IH]; intros r Hnodup; simpl.
  - now rewrite app_nil_r.
  - assert (Hc : ~ In c (members (subscribers ch r))).
    { apply NoDup_app in Hnodup as (_ & Hcross & _). intros Hin.
      apply (Hcross c); apply list_elem_of_In; [exact Hin|now left]. }
    assert (Hm : members (subscribers ch (snd (subscribeToStream (channel_name ch) c r)))
                 = (members (subscribers ch r) ++ [c])%list).
    { rewrite subscribers_after_subscribe, Set_add_new by exact Hc.
      now rewrite members_app. }
    unfold subscribe_all in *. simpl. rewrite IH; rewrite Hm, <- app_assoc; [reflexivity|].
    exact Hnodup.
Qed.

Lemma length_members_full (l : list (option callback)) :
  Forall (fun e => e <> None) l -> length l = length (members l).
Proof.
  induction l as [|e l IH]; intros Hl; [reflexivity|].
  apply Forall_cons in Hl as [He Hl]. destruct e as [c|]; [|contradiction].
  rewrite members_cons_some. simpl. f_equal. now apply IH.
Qed.

Lemma subscribe_all_full ch (cs : list callback) :
  forall r,
    Forall (fun e => e <> None) (subscribers ch r) ->
    Forall (fun e => e <> None)
      (subscribers ch (subscribe_all (channel_name ch) cs r)).
Proof.
  induction cs as [|c cs IH]; intros r Hr; [exact Hr|].
  unfold subscribe_all in *. simpl. apply IH.
  rewrite subscribers_after_subscribe. unfold Set_add.
  destruct (Set_has c _); [exact Hr|].
  apply Forall_app. split; [exact Hr|]. repeat constructor. discriminate.
Qed.

(** X4.  Callbacks are called in subscription order: after distinct
    callbacks [cs] have been subscribed, in that order, to a channel of the
    initial registry, a publish on the channel calls exactly [cs], in that
    order (the subscribers leaving the channel's set alone). *)
Theorem publish_follows_subscription_order {P S : Type} (beh : behaviour P S)
    ch (cs : list callback) (data : P) (s : S) (fuel : nat) :
  let r := subscribe_all (channel_name ch) cs widgetSubscribers_init in
  NoDup cs ->
  (forall c, quiet_on beh ch c) ->
  (length cs < fuel)%nat ->
  members (subscribers ch r) = cs
  /\ exists w',
       notifyWidgets fuel beh (channel_name ch) data (fresh_world r s)
       = Some (Normal tt, w')
       /\ invoked_by (fresh_world r s) w' = cs.
Proof.
  intros r Hnodup Hquiet Hfuel.
  assert (Hmem : members (subscribers ch r) = cs).
  { unfold r. rewrite subscribe_all_members.
    - now destruct ch.
    - now destruct ch. }
  assert (Hlen : length (subscribers ch r) = length cs).
  { transitivity (length (members (subscribers ch r))); [|now f_equal].
    apply length_members_full.
    apply subscribe_all_full. destruct ch; constructor. }
  split; [exact Hmem|].
  destruct (publish_quiet beh ch data fuel (fresh_world r s)) as (w' & Hrun & _ & Hcalls);
    [intros c _; apply Hquiet|simpl; lia|].
  exists w'. split; [exact Hrun|].
  unfold invoked_by. rewrite Hcalls, map_map. simpl. rewrite map_id. exact Hmem.
Qed.

End SubscriptionRuns.

Section LiveWalk.
Import Bus BusRuns.
Context {P S : Type}.
Implicit Types (beh : behaviour P S) (w : world P S) (ch : channel)
  (c a : callback) (s : list (option callback)).

Lemma In_members_lookup c s :
  In c (members s) <-> exists j, s !! j = Some (Some c).
Proof.
  unfold members. rewrite <- list_elem_of_In, list_elem_of_omap. split.
  - intros (e & He & Hc). simpl in Hc. subst e.
    now apply list_elem_of_lookup in He.
  - intros [j Hj]. exists (Some c). split; [|reflexivity].
    apply list_elem_of_lookup. eauto.
Qed.

Lemma Set_delete_length c s : length (Set_delete c s) = length s.
Proof.
  induction s as [|e s IH]; simpl; [reflexivity|].
  destruct (entry_is c e); simpl; [reflexivity|now f_equal].
Qed.

Lemma Set_delete_lookup_some c s (j : nat) c' :
  Set_delete c s !! j = Some (Some c') -> s !! j = Some (Some c').
Proof.
  revert j. induction s as [|e s IH]; intros j; simpl; [discriminate|].
  destruct (entry_is c e).
  - destruct j; simpl; [discriminate|auto].
  - destruct j; simpl; [auto|apply IH].
Qed.

(** A bus call leaves every existing slot of the set as it is or empties
    it, and never shortens the entry list. *)
Lemma on_set_old_slot (op : bus_call) s (j : nat) c' :
  (j < length s)%nat ->
  on_set op s !! j = Some (Some c') -> s !! j = Some (Some c').
Proof.
  intros Hj. destruct op as [ch c|ch c]; simpl.
  - unfold Set_add. destruct (Set_has c s); [auto|].
    now rewrite lookup_app_l by exact Hj.
  - apply Set_delete_lookup_some.
Qed.

Lemma on_set_length (op : bus_call) s : (length s <= length (on_set op s))%nat.
Proof.
  destruct op as [ch c|ch c]; simpl.
  - unfold Set_add. destruct (Set_has c s); [lia|]. rewrite length_app. lia.
  - now rewrite Set_delete_length.
Qed.

Lemma fold_on_set_old_slot (ops : list bus_call) :
  forall s (j : nat) c',
    (j < length s)%nat ->
    fold_left (fun s op => on_set op s) ops s !! j = Some (Some c') ->
    s !! j = Some (Some c').
Proof.
  induction ops as [|op ops IH]; intros s j c' Hj H; simpl in H; [exact H|].
  apply (on_set_old_slot op s j c' Hj).
  apply IH; [|exact H]. pose proof (on_set_length op s). lia.
Qed.

Lemma fold_on_set_length (ops : list bus_call) :
  forall s, (length s <= length (fold_left (fun s op => on_set op s) ops s))%nat.
Proof.
  induction ops as [|op ops IH]; intros s; simpl; [lia|].
  pose proof (on_set_length op s). pose proof (IH (on_set op s)). lia.
Qed.

(** The invariant of the walk: every callback in a slot the walk has
    passed has been called. *)
Lemma walk_reaches_final_set beh ch (data : P) (fuel : nat) :
  forall (i : nat) w (seen : list callback) comp w',
    Set_forEach fuel ch (notify_one beh data) i w = Some (comp, w') ->
    (i <= length (subscribers ch (widgetSubscribers w)))%nat ->
    (forall j c, (j < i)%nat ->
       subscribers ch (widgetSubscribers w) !! j = Some (Some c) -> In c seen) ->
    exists more,
      invoked w' = (invoked w ++ map (fun c => (c, data)) more)%list
      /\ forall c, In c (members (subscribers ch (widgetSubscribers w'))) ->
                   In c (seen ++ more)%list.
Proof.
  induction fuel as [|fuel IH]; intros i w seen comp w' Hrun Hi Hseen;
    [discriminate|].
  rewrite Set_forEach_step in Hrun.
  destruct (subscribers ch (widgetSubscribers w) !! i) as [[c|]|] eqn:He.
  - rewrite notify_one_normal in Hrun.
    pose proof (lookup_lt_Some _ _ _ He) as Hlt.
    destruct (IH (Datatypes.S i) (snd (call beh c data w)) (seen ++ [c])%list comp w' Hrun)
      as (more & Hinv & Hall).
    + rewrite subscribers_after_call.
      pose proof (fold_on_set_length
                    (List.filter (on_channel ch) (bus_calls (beh c data (program w))))
                    (subscribers ch (widgetSubscribers w))). lia.
    + intros j c' Hj Hc'. rewrite subscribers_after_call in Hc'.
      apply fold_on_set_old_slot in Hc'; [|lia].
      apply in_or_app. destruct (Nat.eq_dec j i) as [->|Hne].
      * right. left. congruence.
      * left. apply (Hseen j); [lia|exact Hc'].
    + exists (c :: more). split.
      * rewrite Hinv, invoked_after_call. simpl. now rewrite <- app_assoc.
      * intros c' Hc'. specialize (Hall c' Hc').
        rewrite <- app_assoc in Hall. exact Hall.
  - pose proof (lookup_lt_Some _ _ _ He) as Hlt.
    apply (IH (Datatypes.S i) w seen comp w' Hrun); [lia|].
    intros j c Hj Hc. destruct (Nat.eq_dec j i) as [->|Hne]; [congruence|].
    apply (Hseen j); [lia|exact Hc].
  - inversion Hrun; subst. exists []. split; [simpl; now rewrite app_nil_r|].
    intros c Hc. rewrite app_nil_r. apply In_members_lookup in Hc as [j Hj].
    apply (Hseen j); [|exact Hj].
    apply lookup_lt_Some in Hj. apply lookup_ge_None in He. lia.
Qed.

(** X5.  Whatever the callbacks do (subscribe, unsubscribe, throw), a
    publish that returns has called every callback that is subscribed to
    the channel when it returns; in particular one subscribed during the
    publish and still subscribed at its end. *)
Theorem publish_reaches_every_final_subscriber beh ch (data : P) (fuel : nat)
    w comp w' :
  notifyWidgets fuel beh (channel_name ch) data w = Some (comp, w') ->
  forall c, In c (members (subscribers ch (widgetSubscribers w'))) ->
            In c (invoked_by w w').
Proof.
  unfold notifyWidgets. rewrite lookup_channel_name. intros Hrun c Hc.
  destruct (walk_reaches_final_set beh ch data fuel 0 w [] comp w' Hrun)
    as (more & Hinv & Hall); [lia|intros j c' Hj; lia|].
  rewrite (invoked_by_app w w' more data Hinv). now apply Hall.
Qed.

Lemma members_replicate_none (n : nat) : members (replicate n (@None callback)) = [].
Proof. induction n as [|n IH]; [reflexivity|]. simpl. now rewrite members_cons_none. Qed.

Lemma lookup_replicate_then (n i : nat) a :
  (replicate n None ++ [Some a])%list !! i
  = if (i <? n)%nat then Some None
    else if (i =? n)%nat then Some (Some a) else None.
Proof.
  revert i. induction n as [|n IH]; intros i; simpl.
  - destruct i; simpl; [reflexivity|]. now destruct i.
  - destruct i; simpl; [reflexivity|]. rewrite IH. reflexivity.
Qed.

Lemma walk_never_ends beh ch (data : P) a :
  resubscribes_itself beh ch a ->
  forall (fuel n i : nat) w,
    (i <= n)%nat ->
    subscribers ch (widgetSubscribers w) = (replicate n None ++ [Some a])%list ->
    Set_forEach fuel ch (notify_one beh data) i w = None.
Proof.
  intros Hself. induction fuel as [|fuel IH]; intros n i w Hi Hsubs; [reflexivity|].
  rewrite Set_forEach_step, Hsubs, lookup_replicate_then.
  destruct (Nat.ltb_spec i n) as [Hlt|Hge].
  - apply (IH n); [lia|exact Hsubs].
  - assert (i = n) by lia. subst i. rewrite Nat.eqb_refl, notify_one_normal.
    apply (IH (Datatypes.S n)); [lia|].
    rewrite subscribers_after_call, Hself, Hsubs. simpl.
    rewrite Set_delete_app by (now rewrite members_replicate_none).
    simpl. rewrite Nat.eqb_refl.
    rewrite Set_add_new.
    + rewrite <- replicate_cons_app. reflexivity.
    + rewrite members_app, members_replicate_none. cbv. tauto.
Qed.

(** X6.  A subscriber that unsubscribes and re-subscribes itself every time
    it is called, alone on its channel, makes a publish on that channel
    run for ever: the walk meets the re-added entry again and again, and
    no amount of fuel lets it return. *)
Theorem resubscribing_callback_publish_never_returns beh ch (data : P) a w :
  resubscribes_itself beh ch a ->
  members (subscribers ch (widgetSubscribers w)) = [a] ->
  forall fuel, notifyWidgets fuel beh (channel_name ch) data w = None.
Proof.
  intros Hself Hmem fuel. unfold notifyWidgets. rewrite lookup_channel_name.
  assert (Hshape : exists n m,
             subscribers ch (widgetSubscribers w)
             = (replicate n None ++ [Some a] ++ replicate m None)%list).
  { revert Hmem. generalize (subscribers ch (widgetSubscribers w)).
    induction l as [|[c|] l IH]; intros Hmem.
    - discriminate.
    - rewrite members_cons_some in Hmem. inversion Hmem as [[Hc Hl]]. subst c.
      exists 0%nat, (length l). simpl. f_equal.
      clear -Hl. induction l as [|[c|] l IH]; [reflexivity| |].
      + rewrite members_cons_some in Hl. discriminate.
      + rewrite members_cons_none in Hl. simpl. f_equal. now apply IH.
    - rewrite members_cons_none in Hmem. destruct (IH Hmem) as (n & m & ->).
      now exists (Datatypes.S n), m. }
  destruct Hshape as (n & m & Hshape).
  (* the walk up to [a]'s first turn, after which the entry list ends with [a] *)
  assert (Hgen : forall fuel i w,
             (i <= n)%nat ->
             subscribers ch (widgetSubscribers w)
             = (replicate n None ++ [Some a] ++ replicate m None)%list ->
             Set_forEach fuel ch (notify_one beh data) i w = None).
  { clear w Hmem Hshape fuel.
    induction fuel as [|fuel IH]; intros i w Hi Hsubs; [reflexivity|].
    rewrite Set_forEach_step, Hsubs.
    destruct (Nat.ltb_spec i n) as [Hlt|Hge].
    - rewrite lookup_app_l by (rewrite length_replicate; lia).
      rewrite lookup_replicate_2 by lia. apply IH; [lia|exact Hsubs].
    - assert (i = n) by lia. subst i.
      rewrite lookup_app_r by (rewrite length_replicate; lia).
      rewrite length_replicate, Nat.sub_diag. simpl. rewrite notify_one_normal.
      apply (walk_never_ends beh ch data a Hself fuel (n + 1 + m)); [lia|].
      rewrite subscribers_after_call, Hself, Hsubs. simpl.
      rewrite Set_delete_app by (now rewrite members_replicate_none).
      simpl. rewrite Nat.eqb_refl. rewrite Set_add_new.
      + rewrite <- !app_assoc. simpl.
        rewrite !replicate_add. simpl. now rewrite <- !app_assoc.
      + rewrite members_app, members_replicate_none.
        change (None :: replicate m None) with (replicate (Datatypes.S m) (@None callback)).
        rewrite members_replicate_none. cbv. tauto. }
  apply Hgen; [lia|exact Hshape].
Qed.

End LiveWalk.

(** ** More of the stream cache *)

Section CacheRuns.
Context `{RT : Runtime}.

Lemma system_entry_effect (last_updated : value) (kv : string * value) (c : cache) :
  system_entry last_updated kv c
  = (Normal tt,
     if system_skips kv then c
     else set_systemData
            (dict_assign (fst kv) (system_record (fst kv) (snd kv) last_updated)) c).
Proof.
  destruct kv as [key v]. unfold system_entry, system_skips. simpl.
  destruct (String.eqb key "type" || String.eqb key "timestamp"); simpl;
    [reflexivity|].
  destruct (Array_isArray v) eqn:Harr; simpl; [reflexivity|].
  destruct (typeof_object v && negb match v with VNull => true | _ => false end);
    reflexivity.
Qed.

Lemma parseSystemMessage_run (msg : string) (c : cache) :
  snd (parseSystemMessage msg c)
  = snd (forEach (system_entry (message_timestamp msg)) (system_fields msg) c).
Proof.
  unfold parseSystemMessage. rewrite try_catch_console_state.
  unfold parseSystemMessage_try, system_fields, message_timestamp.
  destruct (JSON_parse msg) as [data|]; [|reflexivity].
  now destruct (negb (truthy data) || negb (typeof_object data)).
Qed.

Lemma system_fields_frame (last_updated : value) (k : string)
    (fields : list (string * value)) :
  Forall (fun kv => fst kv <> k \/ system_skips kv = true) fields ->
  forall c,
    own (systemData (snd (forEach (system_entry last_updated) fields c))) !! k
    = own (systemData c) !! k.
Proof.
  intros Hall c.
  apply (forEach_preserves (system_entry last_updated)
           (fun c' => own (systemData c') !! k = own (systemData c) !! k));
    [|reflexivity].
  intros kv c' Hin Hc'. rewrite system_entry_effect. simpl.
  rewrite Forall_forall in Hall. specialize (Hall kv (proj2 (list_elem_of_In _ _) Hin)).
  destruct (system_skips kv); [exact Hc'|].
  destruct Hall as [Hne|Hskip]; [|discriminate].
  simpl. rewrite dict_assign_other; assumption.
Qed.

(** X7.  The system cache is last-known-good: an entry stays exactly as it
    is while system messages are processed that do not carry its key as a
    cacheable field (messages without the key, with the key holding a
    nested object, undecodable text, non-objects); the reserved keys
    [type] and [timestamp] are never written. *)
Theorem system_last_known_good (later : list string) (c : cache) (k : string) :
  Forall (fun msg =>
            Forall (fun kv => fst kv <> k \/ system_skips kv = true)
              (system_fields msg)) later ->
  own (systemData (process System later c)) !! k = own (systemData c) !! k.
Proof.
  revert c. induction later as [|msg later IH]; intros c Hall; [reflexivity|].
  apply Forall_cons in Hall as [Hmsg Hlater]. simpl. rewrite IH by exact Hlater.
  rewrite parseSystemMessage_run. now apply system_fields_frame.
Qed.

Lemma forEach_system_cons (last_updated : value) (kv : string * value)
    (fields : list (string * value)) (c : cache) :
  snd (forEach (system_entry last_updated) (kv :: fields) c)
  = snd (forEach (system_entry last_updated) fields
           (if system_skips kv then c
            else set_systemData
                   (dict_assign (fst kv) (system_record (fst kv) (snd kv) last_updated))
                   c)).
Proof. simpl. unfold bind. now rewrite system_entry_effect. Qed.

Lemma forEach_system_app (last_updated : value) (xs ys : list (string * value)) :
  forall c,
    snd (forEach (system_entry last_updated) (xs ++ ys)%list c)
    = snd (forEach (system_entry last_updated) ys
             (snd (forEach (system_entry last_updated) xs c))).
Proof.
  induction xs as [|x xs IH]; intros c; [reflexivity|].
  change ((x :: xs) ++ ys)%list with (x :: (xs ++ ys))%list.
  rewrite !forEach_system_cons. apply IH.
Qed.

(** X8.  A system message upserts each scalar or array field: after the
    call the cache holds, under the field's key, the record
    [{name, value, last_updated}] built from the last occurrence of the
    key in the message and the message's [timestamp]. *)
Theorem system_field_is_cached (msg : string) (c : cache) (k : string) (v : value)
    (before after : list (string * value)) :
  system_fields msg = (before ++ (k, v) :: after)%list ->
  Forall (fun kv => fst kv <> k) after ->
  system_skips (k, v) = false ->
  k <> "__proto__" ->
  own (systemData (snd (parseSystemMessage msg c))) !! k
  = Some (system_record k v (message_timestamp msg)).
Proof.
  intros Hfields Hafter Hskip Hproto.
  rewrite parseSystemMessage_run, Hfields, forEach_system_app, forEach_system_cons.
  rewrite Hskip, system_fields_frame.
  - simpl. now apply dict_assign_lookup.
  - eapply Forall_impl; [exact Hafter|]. intros kv Hkv. now left.
Qed.

Lemma dict_assign_keeps (k k' : string) (v : value) (d : dict) :
  is_Some (own d !! k) -> is_Some (own (dict_assign k' v d) !! k).
Proof.
  intros H. unfold dict_assign. destruct (String.eqb k' "__proto__"); simpl;
    [exact H|].
  destruct (decide (k' = k)) as [->|Hne].
  - rewrite lookup_insert_eq. eauto.
  - now rewrite lookup_insert_ne.
Qed.

Lemma dict_assign_dom (k : string) (v : value) (d : dict) :
  dom (own d) ⊆ dom (own (dict_assign k v d)).
Proof.
  intros x Hx. apply elem_of_dom. apply dict_assign_keeps. now apply elem_of_dom.
Qed.

Lemma balance_entry_effect (last_updated balance : value) (c : cache) :
  balance_entry last_updated balance c
  = (Normal tt,
     if negb (truthy balance) || negb (truthy (get balance "asset")) then c
     else set_balanceData
            (dict_assign (String_of (get balance "asset"))
               (VObj (set_field "last_updated" last_updated (spread balance)))) c).
Proof.
  unfold balance_entry.
  now destruct (negb (truthy balance) || negb (truthy (get balance "asset"))).
Qed.

Lemma grows_refl (c : cache) : grows c c.
Proof. repeat split; reflexivity. Qed.

Lemma grows_trans (c1 c2 c3 : cache) : grows c1 c2 -> grows c2 c3 -> grows c1 c3.
Proof.
  intros (H1 & H2 & H3) (H1' & H2' & H3').
  repeat split; etransitivity; eassumption.
Qed.

Lemma telemetry_item_grows (item : value) (c : cache) :
  grows c (snd (telemetry_item item c)).
Proof.
  destruct (telemetry_item_effect item c) as [->|[v ->]]; [apply grows_refl|].
  repeat split; try reflexivity. apply dict_assign_dom.
Qed.

Lemma forEach_grows {A} (f : A -> Eff cache unit) (xs : list A) (c : cache) :
  (forall x c', grows c' (snd (f x c'))) -> grows c (snd (forEach f xs c)).
Proof.
  intros Hf.
  apply (forEach_preserves f (fun c' => grows c c')); [|apply grows_refl].
  intros x c' _ Hc'. eapply grows_trans; [exact Hc'|apply Hf].
Qed.

Lemma parse_grows (s : stream) (msg : string) (c : cache) :
  grows c (snd (parse s msg c)).
Proof.
  destruct s; simpl.
  - unfold parseTelemetryMessage. rewrite try_catch_console_state.
    unfold parseTelemetryMessage_try.
    destruct (JSON_parse msg) as [data|]; [|apply grows_refl].
    destruct (telemetry_metrics data) as [metrics|]; [|apply grows_refl].
    destruct (length metrics =? 0)%nat; [apply grows_refl|].
    apply forEach_grows, telemetry_item_grows.
  - unfold parseBalanceMessage. rewrite try_catch_console_state.
    unfold parseBalanceMessage_try.
    destruct (JSON_parse msg) as [data|]; [|apply grows_refl].
    destruct (negb (truthy data) || negb (typeof_object data)); [apply grows_refl|].
    unfold bind at 1. unfold modify at 1. unfold bind at 1.
    set (c1 := set_openOrdersData (fun _ => []) c).
    assert (H1 : grows c c1) by (repeat split; reflexivity).
    destruct (get_default data "open_orders" (VArr [])) as [| | | | |orders|];
      try (simpl; exact H1).
    simpl call_forEach at 1. rewrite forEach_balance_order.
    set (c2 := set_openOrdersData _ c1).
    assert (H2 : grows c c2) by (repeat split; reflexivity).
    destruct (get_default data "balances" (VArr [])) as [| | | | |balances|];
      try (simpl; exact H2).
    simpl. eapply grows_trans; [exact H2|].
    apply forEach_grows. intros b c'. rewrite balance_entry_effect. simpl.
    destruct (negb (truthy b) || negb (truthy (get b "asset"))); [apply grows_refl|].
    repeat split; try reflexivity. apply dict_assign_dom.
  - rewrite parseSystemMessage_run.
    apply forEach_grows. intros kv c'. rewrite system_entry_effect. simpl.
    destruct (system_skips kv); [apply grows_refl|].
    repeat split; try reflexivity. apply dict_assign_dom.
Qed.

(** X9.  No parser ever deletes a cached key: whatever messages arrive on
    whichever of the three cached streams, in whatever order, every key
    of [telemetryData], [balanceData] and [systemData] is still a key
    afterwards. *)
Theorem cache_keys_never_removed (arrivals : list (stream * string)) (c : cache) :
  let c' := fold_left (fun c a => snd (parse (fst a) (snd a) c)) arrivals c in
  telemetry_keys c ⊆ telemetry_keys c'
  /\ balance_keys c ⊆ balance_keys c'
  /\ system_keys c ⊆ system_keys c'.
Proof.
  revert c. induction arrivals as [|[s msg] arrivals IH]; intros c; simpl.
  - apply grows_refl.
  - eapply grows_trans; [apply parse_grows|apply IH].
Qed.

End CacheRuns.

Section Redelivery.
Context `{RT : Runtime}.







(** A loop whose every turn does nothing, or assigns one key of one
    dictionary, the same whatever the cache holds: the loop is one
    sequence of assignments. *)
Lemma forEach_assignments {A} (setter : (dict -> dict) -> cache -> cache)
    (f : A -> Eff cache unit) (xs : list A) :
  (forall c, setter (fun d => d) c = c) ->
  (forall g h c, setter g (setter h c) = setter (fun d => g (h d)) c) ->
  (forall x, exists comp (upd : option (string * value)),
     forall c, f x c = (comp, match upd with
                              | None => c
                              | Some kv => setter (dict_assign (fst kv) (snd kv)) c
                              end)) ->
  exists writes, forall c, snd (forEach f xs c) = setter (assign_all writes) c.
Proof.
  intros Hid Hcomp Hf. induction xs as [|x xs [writes IH]].
  - exists []. intros c. simpl. symmetry. apply Hid.
  - destruct (Hf x) as (comp & upd & Hx).
    destruct comp as [[]|e].
    + destruct upd as [kv|].
      * exists (kv :: writes). intros c. simpl. unfold bind. rewrite Hx, IH.
        rewrite Hcomp. reflexivity.
      * exists writes. intros c. simpl. unfold bind. now rewrite Hx, IH.
    + destruct upd as [kv|].
      * exists [kv]. intros c. simpl. unfold bind. now rewrite Hx.
      * exists []. intros c. simpl. unfold bind. rewrite Hx. simpl.
        symmetry. apply Hid.
Qed.

Lemma telemetry_item_uniform (item : value) :
  exists comp (upd : option (string * value)),
    forall c, telemetry_item item c
              = (comp, match upd with
                       | None => c
                       | Some kv => set_telemetryData (dict_assign (fst kv) (snd kv)) c
                       end).
Proof.
  unfold telemetry_item.
  destruct (negb (truthy item) || negb (typeof_object item));
    [exists (Normal tt), None; reflexivity|].
  destruct (negb (truthy (get item "name")) || negb (truthy (get item "metric_type")));
    [exists (Normal tt), None; reflexivity|].
  destruct (negb (is_string _ "gauge") && negb (is_string _ "counter")
            && negb (is_string _ "histogram"));
    [exists (Normal tt), None; reflexivity|].
  unfold bind, lift, modify.
  destruct (processedValue _ _) as [v|e].
  - eexists (Normal tt), (Some (_, _)). intros c. reflexivity.
  - exists (Throw e), None. reflexivity.
Qed.

Lemma telemetry_parse_assignments (msg : string) :
  exists writes,
    forall c, snd (parseTelemetryMessage msg c)
              = set_telemetryData (assign_all writes) c.
Proof.
  assert (Hnone : forall c : cache, c = set_telemetryData (assign_all []) c)
    by (now intros []).
  unfold parseTelemetryMessage.
  destruct (forEach_assignments set_telemetryData telemetry_item
              (message_metrics msg)) as [writes Hw];
    [now intros []|now intros g h []|apply telemetry_item_uniform|].
  unfold message_metrics in Hw.
  destruct (JSON_parse msg) as [data|] eqn:Hparse.
  - destruct (telemetry_metrics data) as [metrics|] eqn:Hm.
    + exists writes. intros c. rewrite try_catch_console_state.
      unfold parseTelemetryMessage_try. rewrite Hparse, Hm.
      destruct (length metrics =? 0)%nat eqn:Hlen; [|apply Hw].
      destruct metrics; [|discriminate]. apply (Hw c).
    + exists []. intros c. rewrite try_catch_console_state.
      unfold parseTelemetryMessage_try. rewrite Hparse, Hm. apply Hnone.
  - exists []. intros c. rewrite try_catch_console_state.
    unfold parseTelemetryMessage_try. rewrite Hparse. apply Hnone.
Qed.

Lemma system_parse_assignments (msg : string) :
  exists writes,
    forall c, snd (parseSystemMessage msg c) = set_systemData (assign_all writes) c.
Proof.
  destruct (forEach_assignments set_systemData
              (system_entry (message_timestamp msg)) (system_fields msg))
    as [writes Hw]; [now intros []|now intros g h []| |].
  - intros kv. exists (Normal tt).
    exists (if system_skips kv then None
            else Some (fst kv, system_record (fst kv) (snd kv) (message_timestamp msg))).
    intros c. rewrite system_entry_effect. now destruct (system_skips kv).
  - exists writes. intros c. rewrite parseSystemMessage_run. apply Hw.
Qed.

Lemma balance_parse_assignments (msg : string) :
  exists (change : option (list value * list (string * value))),
    forall c, snd (parseBalanceMessage msg c)
              = match change with
                | None => c
                | Some (orders, writes) =>
                    set_balanceData (assign_all writes)
                      (set_openOrdersData (fun _ => orders) c)
                end.
Proof.
  assert (Hnone : forall (orders : list value) (c : cache),
             set_openOrdersData (fun _ => orders) c
             = set_balanceData (assign_all [])
                 (set_openOrdersData (fun _ => orders) c))
    by (now intros ? []).
  unfold parseBalanceMessage, parseBalanceMessage_try.
  destruct (JSON_parse msg) as [data|];
    [|exists None; intros c; now rewrite try_catch_console_state].
  destruct (negb (truthy data) || negb (typeof_object data));
    [exists None; intros c; now rewrite try_catch_console_state|].
  destruct (get_default data "open_orders" (VArr [])) as [| | | | |orders|];
    try (exists (Some ([], [])); intros c; rewrite try_catch_console_state;
         apply Hnone).
  set (copies := map (fun o => VObj (spread o)) (List.filter truthy orders)).
  assert (Horders : forall c,
             set_openOrdersData (fun os => (os ++ copies)%list)
               (set_openOrdersData (fun _ => []) c)
             = set_openOrdersData (fun _ => copies) c) by (now intros []).
  destruct (get_default data "balances" (VArr [])) as [| | | | |balances|];
    try (exists (Some (copies, [])); intros c; rewrite try_catch_console_state;
         unfold bind at 1; unfold modify at 1; unfold bind at 1;
         simpl call_forEach at 1; rewrite forEach_balance_order; simpl;
         fold copies; rewrite Horders; apply Hnone).
  destruct (forEach_assignments set_balanceData
              (balance_entry (get data "timestamp")) balances)
    as [writes Hw]; [now intros []|now intros g h []| |].
  - intros b. exists (Normal tt).
    exists (if negb (truthy b) || negb (truthy (get b "asset")) then None
            else Some (String_of (get b "asset"),
                       VObj (set_field "last_updated" (get data "timestamp") (spread b)))).
    intros c. rewrite balance_entry_effect.
    now destruct (negb (truthy b) || negb (truthy (get b "asset"))).
  - exists (Some (copies, writes)). intros c. rewrite try_catch_console_state.
    unfold bind at 1. unfold modify at 1. unfold bind at 1.
    simpl call_forEach at 1. rewrite forEach_balance_order. simpl.
    fold copies. rewrite Hw, Horders. reflexivity.
Qed.


(** X11.  Each parser writes to its own part of the cache only: a
    telemetry message leaves balances, orders and system metrics alone, a
    balance message leaves telemetry and system metrics alone, and a
    system message leaves telemetry, balances and orders alone. *)
Theorem parsers_keep_to_their_stores (msg : string) (c : cache) :
  (balanceData (snd (parseTelemetryMessage msg c)) = balanceData c
   /\ openOrdersData (snd (parseTelemetryMessage msg c)) = openOrdersData c
   /\ systemData (snd (parseTelemetryMessage msg c)) = systemData c)
  /\ (telemetryData (snd (parseBalanceMessage msg c)) = telemetryData c
      /\ systemData (snd (parseBalanceMessage msg c)) = systemData c)
  /\ (telemetryData (snd (parseSystemMessage msg c)) = telemetryData c
      /\ balanceData (snd (parseSystemMessage msg c)) = balanceData c
      /\ openOrdersData (snd (parseSystemMessage msg c)) = openOrdersData c).
Proof.
  destruct (telemetry_parse_assignments msg) as [wt Ht].
  destruct (balance_parse_assignments msg) as [[[orders wb]|] Hb].
  all: destruct (system_parse_assignments msg) as [ws Hs].
  all: rewrite Ht, Hb, Hs; destruct c; repeat split.
Qed.

End Redelivery.


(** ** Runs of the further properties *)

Section FurtherExamples.
Import Examples BusSamples SystemSamples.

(** Callback 5 subscribed three times after some other traffic on the bus. *)
Lemma subscribed_callback_called_once_witness :
  exists w',
    Bus.notifyWidgets 10 calm "telemetry" tt
      (BusRuns.fresh_world
         (Nat.iter 3 (fun r => snd (Bus.subscribeToStream "telemetry" 5%nat r))
            (BusRuns.replay [Bus.Subscribe Bus.telemetry 3%nat;
                             Bus.Subscribe Bus.telemetry 5%nat;
                             Bus.Unsubscribe Bus.telemetry 3%nat])) tt)
    = Some (Normal tt, w')
    /\ count_occ Nat.eq_dec
         (Bus.invoked_by
            (BusRuns.fresh_world
               (Nat.iter 3 (fun r => snd (Bus.subscribeToStream "telemetry" 5%nat r))
                  (BusRuns.replay [Bus.Subscribe Bus.telemetry 3%nat;
                                   Bus.Subscribe Bus.telemetry 5%nat;
                                   Bus.Unsubscribe Bus.telemetry 3%nat])) tt) w') 5%nat
       = 1%nat.
Proof.
  apply (subscribed_callback_called_once calm
           [Bus.Subscribe Bus.telemetry 3%nat; Bus.Subscribe Bus.telemetry 5%nat;
            Bus.Unsubscribe Bus.telemetry 3%nat] Bus.telemetry 5%nat 2 tt tt 10).
  - intros c' data s. reflexivity.
  - vm_compute. lia.
Defined.

(** Callback 3, subscribed twice, is gone after one unsubscribe. *)
Lemma unsubscribe_takes_effect_witness :
  exists w',
    Bus.notifyWidgets 10 calm "telemetry" tt
      (BusRuns.fresh_world
         (snd (Bus.unsubscribeFromStream "telemetry" 3%nat
                 (BusRuns.replay [Bus.Subscribe Bus.telemetry 3%nat;
                                  Bus.Subscribe Bus.telemetry 5%nat;
                                  Bus.Subscribe Bus.telemetry 3%nat]))) tt)
    = Some (Normal tt, w')
    /\ ~ In 3%nat
         (Bus.invoked_by
            (BusRuns.fresh_world
               (snd (Bus.unsubscribeFromStream "telemetry" 3%nat
                       (BusRuns.replay [Bus.Subscribe Bus.telemetry 3%nat;
                                        Bus.Subscribe Bus.telemetry 5%nat;
                                        Bus.Subscribe Bus.telemetry 3%nat]))) tt) w').
Proof.
  apply (proj2 (proj2 (unsubscribe_takes_effect calm
                         [Bus.Subscribe Bus.telemetry 3%nat;
                          Bus.Subscribe Bus.telemetry 5%nat;
                          Bus.Subscribe Bus.telemetry 3%nat]
                         Bus.telemetry 3%nat tt tt 10))).
  - intros c' data s. reflexivity.
  - vm_compute. lia.
Defined.

(** Three callbacks subscribed to the balance channel as 4, 2, 9. *)
Lemma publish_follows_subscription_order_witness :
  Bus.members
    (Bus.subscribers Bus.balance
       (BusRuns.subscribe_all "balance" [4; 2; 9]%nat Bus.widgetSubscribers_init))
  = [4; 2; 9]%nat
  /\ exists w',
       Bus.notifyWidgets 4 calm "balance" tt
         (BusRuns.fresh_world
            (BusRuns.subscribe_all "balance" [4; 2; 9]%nat Bus.widgetSubscribers_init) tt)
       = Some (Normal tt, w')
       /\ Bus.invoked_by
            (BusRuns.fresh_world
               (BusRuns.subscribe_all "balance" [4; 2; 9]%nat Bus.widgetSubscribers_init)
               tt) w'
          = [4; 2; 9]%nat.
Proof.
  apply (publish_follows_subscription_order calm Bus.balance [4; 2; 9]%nat tt tt 4).
  - apply NoDup_ListNoDup. repeat constructor; simpl; intuition lia.
  - intros c data s. reflexivity.
  - simpl. lia.
Defined.

(** Subscriber 0 subscribes a new callback 7 during the publish: 7 is
    subscribed at the end, and has been called. *)
Lemma publish_reaches_every_final_subscriber_witness :
  exists comp w',
    Bus.notifyWidgets 10 (one_calls 0 (Bus.Subscribe Bus.telemetry 7)) "telemetry" tt
      (world_of three_subscribers) = Some (comp, w')
    /\ In 7%nat (Bus.members (Bus.subscribers Bus.telemetry (Bus.widgetSubscribers w')))
    /\ In 7%nat (Bus.invoked_by (world_of three_subscribers) w').
Proof.
  eexists. eexists. split; [vm_compute; reflexivity|].
  split; [vm_compute; tauto|].
  eapply (publish_reaches_every_final_subscriber
            (one_calls 0 (Bus.Subscribe Bus.telemetry 7)) Bus.telemetry tt 10
            (world_of three_subscribers)).
  - vm_compute. reflexivity.
  - vm_compute. tauto.
Defined.

(** The restless callback 0 alone on the telemetry channel. *)
Lemma resubscribing_callback_publish_never_returns_witness :
  Bus.notifyWidgets 1000 (restless 0) "telemetry" tt
    (world_of (BusRuns.replay [Bus.Subscribe Bus.telemetry 0%nat])) = None.
Proof.
  apply (resubscribing_callback_publish_never_returns (restless 0) Bus.telemetry tt 0%nat
           (world_of (BusRuns.replay [Bus.Subscribe Bus.telemetry 0%nat]))).
  - intros data s. reflexivity.
  - reflexivity.
Defined.

(** [cpu_usage], cached from one message, survives a message without it,
    text that is not JSON and a number. *)
Lemma system_last_known_good_witness :
  own (systemData
         (process (RT := runtime) System ["uptime"; "not json"; "5"]
            (process (RT := runtime) System ["system"] initial_cache)))
    !! "cpu_usage"
  = own (systemData (process (RT := runtime) System ["system"] initial_cache))
      !! "cpu_usage"
  /\ own (systemData (process (RT := runtime) System ["system"] initial_cache))
       !! "cpu_usage"
     = Some (VObj [("name", VStr "cpu_usage"); ("value", VNum 12);
                   ("last_updated", VNum 1000)]).
Proof.
  split; [|vm_compute; reflexivity].
  apply (system_last_known_good (RT := runtime) ["uptime"; "not json"; "5"]
           (process (RT := runtime) System ["system"] initial_cache) "cpu_usage").
  repeat apply List.Forall_cons; try apply List.Forall_nil; simpl; left; discriminate.
Defined.

(** The [core_usages] array of the sample message is cached as it is. *)
Lemma system_field_is_cached_witness :
  own (systemData (snd (parseSystemMessage (RT := runtime) "system" initial_cache)))
    !! "core_usages"
  = Some (VObj [("name", VStr "core_usages"); ("value", VArr [VNum 10; VNum 14]);
                ("last_updated", VNum 1000)]).
Proof.
  apply (system_field_is_cached (RT := runtime) "system" initial_cache "core_usages"
           (VArr [VNum 10; VNum 14])
           [("type", VStr "system"); ("timestamp", VNum 1000); ("cpu_usage", VNum 12)]
           [("disk", VObj [("free", VNum 5)])]).
  - reflexivity.
  - repeat constructor. vm_compute. discriminate.
  - reflexivity.
  - discriminate.
Defined.

End FurtherExamples.


(** ** More of the number formatting *)

Section FormatProperties.
Context `{RT : Runtime}.

Lemma append_assoc (a b c : string) : (a ++ b) ++ c = a ++ b ++ c.
Proof.
  induction a as [|ch a IH]; [reflexivity|].
  change (String ch ((a ++ b) ++ c) = String ch (a ++ b ++ c)). now rewrite IH.
Qed.

Lemma Qabs_opp_eq (v : Q) : Qabs (- v) = Qabs v.
Proof. destruct v as [n d]. unfold Qabs, Qopp. simpl. now rewrite Z.abs_opp. Qed.

Lemma Qeq_bool_opp_0 (v : Q) : Qeq_bool (- v) 0 = Qeq_bool v 0.
Proof.
  destruct (Qeq_bool v 0) eqn:E.
  - apply Qeq_bool_iff in E. apply Qeq_bool_iff. rewrite E. reflexivity.
  - destruct (Qeq_bool (- v) 0) eqn:E'; [|reflexivity].
    apply Qeq_bool_iff in E'. apply Qeq_bool_neq in E. exfalso. apply E.
    rewrite <- (Qopp_involutive v), E'. reflexivity.
Qed.

(** X12.  A negative value is printed as the minus sign followed by what
    its magnitude is printed as, by [formatTime] and by [formatMemory]
    alike: the unit and the digits are chosen from the magnitude. *)
Theorem negative_value_mirrors_positive (v : Q) :
  (0 < v)%Q ->
  formatTime (- v) = "-" ++ formatTime v
  /\ formatMemory (- v) = "-" ++ formatMemory v.
Proof.
  intros Hv.
  assert (Hneg : (- v < 0)%Q) by lra.
  assert (Hnz : Qeq_bool v 0 = false).
  { destruct (Qeq_bool v 0) eqn:E; [|reflexivity].
    apply Qeq_bool_iff in E. lra. }
  split.
  - unfold formatTime. rewrite Qeq_bool_opp_0, Hnz, Qabs_opp_eq.
    destruct (Qlt_le_dec (- v) 0) as [_|H]; [|lra].
    destruct (Qlt_le_dec v 0) as [H|_]; [lra|].
    destruct (if geq (Qabs v) 3600 then _ else _) as [[unit scaled] decimals].
    reflexivity.
  - unfold formatMemory, formatMemory_parts, memory_absValue.
    rewrite Qeq_bool_opp_0, Hnz, Qabs_opp_eq.
    destruct (Qlt_le_dec (- v) 0) as [_|H]; [|lra].
    destruct (Qlt_le_dec v 0) as [H|_]; [lra|].
    destruct (select_unit _ _); reflexivity.
Qed.

(** *** Whole numbers *)

Lemma string_of_revapp (l acc : Decimal.uint) :
  NilEmpty.string_of_uint (Decimal.revapp l acc)
  = NilEmpty.string_of_uint (Decimal.revapp l Decimal.Nil)
    ++ NilEmpty.string_of_uint acc.
Proof.
  revert acc. induction l; intros acc; [reflexivity|..]; cbn [Decimal.revapp];
    match goal with
    | |- context [Decimal.revapp l (?c acc)] =>
        rewrite (IHl (c acc)), (IHl (c Decimal.Nil))
    end; now rewrite append_assoc.
Qed.

(** Ten times a positive number is written with one more zero. *)
Lemma digits_tenfold (n : N) : (0 < n)%N -> digits (10 * n) = digits n ++ "0".
Proof.
  destruct n as [|p]; [lia|]. intros _. unfold digits.
  change (N.to_uint (10 * N.pos p))
    with (Decimal.rev (DecimalPos.Unsigned.to_lu (10 * N.pos p))).
  rewrite DecimalPos.Unsigned.to_ldec_tenfold.
  unfold Decimal.rev. cbn [Decimal.revapp]. rewrite string_of_revapp. reflexivity.
Qed.

Lemma digits_no_point (n : N) : includes (digits n) "." = false.
Proof.
  unfold digits. induction (N.to_uint n) as [|d IH|d IH|d IH|d IH|d IH|d IH|d IH|d IH|d IH|d IH];
    [reflexivity|..]; cbn [NilEmpty.string_of_uint includes startsWith];
    rewrite IH; reflexivity.
Qed.

Lemma digits_not_empty (n : N) : (1 <= String.length (digits n))%nat.
Proof.
  unfold digits. destruct n as [|p]; [simpl; lia|].
  pose proof (DecimalPos.Unsigned.to_uint_nonnil p) as H. cbn [N.to_uint].
  destruct (Pos.to_uint p); [contradiction|..]; simpl; lia.
Qed.

Lemma all_zeros_app_zero (s : string) : all_zeros (s ++ "0") = all_zeros s.
Proof.
  induction s as [|c s IH]; [reflexivity|].
  change (Ascii.eqb c "0" && all_zeros (s ++ "0") = Ascii.eqb c "0" && all_zeros s).
  now rewrite IH.
Qed.

Lemma no_point_cons (c : ascii) (s : string) :
  includes (String c s) "." = false ->
  Ascii.eqb c "." = false /\ includes s "." = false.
Proof.
  cbn [includes startsWith]. intros H. apply orb_false_iff in H as [H1 H2].
  split; [|exact H2]. rewrite andb_true_r in H1. now rewrite Ascii.eqb_sym.
Qed.

(** On a string without a point, the pattern removes every trailing zero. *)
Lemma strip_zero_suffix (s : string) :
  includes s "." = false ->
  strip_trailing_zeros (s ++ "0") = strip_trailing_zeros s.
Proof.
  induction s as [|c s IH]; intros Hs; [reflexivity|].
  apply no_point_cons in Hs as [Hc Hs].
  change (String c s ++ "0") with (String c (s ++ "0")).
  cbn [strip_trailing_zeros trailing_zeros_here all_zeros].
  rewrite Hc, all_zeros_app_zero, IH by exact Hs. reflexivity.
Qed.

Lemma strip_is_not_a_point (s : string) :
  includes s "." = false -> String.eqb (strip_trailing_zeros s) "." = false.
Proof.
  destruct s as [|c s]; intros Hs; [reflexivity|].
  apply no_point_cons in Hs as [Hc _].
  cbn [strip_trailing_zeros]. destruct (trailing_zeros_here (String c s)); [reflexivity|].
  cbn [String.eqb]. now rewrite Hc.
Qed.

(** [toFixed(0)] of a whole number below [10^21] is its decimal digits. *)
Lemma toFixed_whole (q : Q) (m : Z) :
  (q == inject_Z m)%Q -> (0 <= m < 10 ^ 21)%Z -> toFixed q 0 = digits (Z.to_N m).
Proof.
  intros Hq Hm. unfold toFixed.
  assert (Hpos : (0 <= q)%Q).
  { rewrite Hq. change 0%Q with (inject_Z 0). rewrite <- Zle_Qle. lia. }
  destruct (Qlt_le_dec q 0) as [H|_]; [exfalso; lra|].
  assert (Habs : (Qabs q == inject_Z m)%Q) by (now rewrite Qabs_pos).
  destruct (Qle_bool (inject_Z (10 ^ 21)) (Qabs q)) eqn:E.
  { apply Qle_bool_iff in E. rewrite Habs, <- Zle_Qle in E. lia. }
  assert (Hfloor : Qfloor (Qabs q * inject_Z (10 ^ Z.of_nat 0) + (1 # 2)) = m).
  { assert (H : (Qabs q * inject_Z (10 ^ Z.of_nat 0) + (1 # 2) == (2 * m + 1) # 2)%Q).
    { rewrite Habs. unfold Qeq, inject_Z. simpl. lia. }
    rewrite (Qfloor_comp _ _ H). cbn [Qfloor].
    symmetry. apply (Z.div_unique _ _ _ 1); lia. }
  rewrite Hfloor. pose proof (digits_not_empty (Z.to_N m)) as Hlen.
  replace (1 - String.length (digits (Z.to_N m)))%nat with 0%nat by lia.
  reflexivity.
Qed.

(** X13.  A whole number of hours, ten or more, is printed without its
    trailing zeros: the pattern meant to drop the zeros after a decimal
    point also matches the zeros of an integer.  Ten times as many hours
    are therefore printed the same. *)
Theorem whole_hours_lose_trailing_zeros (m : Z) :
  (10 <= m < 10 ^ 20)%Z ->
  formatTime (inject_Z m * 3600) = strip_trailing_zeros (digits (Z.to_N m)) ++ " h"
  /\ formatTime (inject_Z (10 * m) * 3600) = formatTime (inject_Z m * 3600).
Proof.
  assert (Hgen : forall k : Z,
             (10 <= k < 10 ^ 21)%Z ->
             formatTime (inject_Z k * 3600)
             = strip_trailing_zeros (digits (Z.to_N k)) ++ " h").
  { intros k Hk.
    assert (Hk' : (10 <= inject_Z k)%Q).
    { change 10%Q with (inject_Z 10). rewrite <- Zle_Qle. lia. }
    set (v := (inject_Z k * 3600)%Q).
    assert (Hv : (0 < v)%Q) by (unfold v; lra).
    assert (Habs : (Qabs v == v)%Q) by (apply Qabs_pos; lra).
    assert (Hscaled : (Qabs v / 3600 == inject_Z k)%Q).
    { rewrite Habs. unfold v. field. }
    unfold formatTime.
    replace (Qeq_bool v 0) with false
      by (symmetry; apply not_true_is_false; intros E; apply Qeq_bool_iff in E; lra).
    replace (geq (Qabs v) 3600) with true
      by (symmetry; apply geq_true; rewrite Habs; unfold v; lra).
    cbv beta iota zeta. unfold time_decimals.
    replace (geq (Qabs v / 3600) 10) with true
      by (symmetry; apply geq_true; rewrite Hscaled; exact Hk').
    rewrite (toFixed_whole _ k Hscaled) by lia.
    rewrite strip_is_not_a_point by apply digits_no_point.
    destruct (Qlt_le_dec v 0) as [H|_]; [exfalso; lra|]. reflexivity. }
  intros Hm. split; [apply Hgen; lia|].
  rewrite !Hgen by lia. f_equal.
  replace (Z.to_N (10 * m)) with (10 * Z.to_N m)%N by lia.
  rewrite digits_tenfold by lia. apply strip_zero_suffix, digits_no_point.
Qed.

(** X14.  [formatMemory] has the same flaw: a whole number of kibibytes
    from 100 to 1023 is printed without its trailing zeros, so that 100,
    200 and 1000 (KB) read 1 KB, 2 KB and 1 KB. *)
Theorem whole_kibibytes_lose_trailing_zeros (m : Z) :
  (100 <= m < 1024)%Z ->
  formatMemory (inject_Z m) = strip_trailing_zeros (digits (Z.to_N m)) ++ " KB".
Proof.
  intros Hm.
  assert (Hlo : (100 <= inject_Z m)%Q).
  { change 100%Q with (inject_Z 100). rewrite <- Zle_Qle. lia. }
  assert (Hhi : (inject_Z m < 1024)%Q).
  { change 1024%Q with (inject_Z 1024). rewrite <- Zlt_Qlt. lia. }
  set (v := inject_Z m) in *.
  assert (Habs : (Qabs v == v)%Q) by (apply Qabs_pos; lra).
  assert (Hscaled : (Qabs v * 1024 / 1024 == inject_Z m)%Q).
  { rewrite Habs. fold v. field. }
  unfold formatMemory, formatMemory_parts, memory_absValue, memory_units_desc.
  replace (Qeq_bool v 0) with false
    by (symmetry; apply not_true_is_false; intros E; apply Qeq_bool_iff in E; lra).
  cbn [select_unit snd fst].
  replace (geq (Qabs v * 1024) (1024 * 1024 * 1024 * 1024)) with false
    by (symmetry; apply geq_false; rewrite Habs; lra).
  replace (geq (Qabs v * 1024) (1024 * 1024 * 1024)) with false
    by (symmetry; apply geq_false; rewrite Habs; lra).
  replace (geq (Qabs v * 1024) (1024 * 1024)) with false
    by (symmetry; apply geq_false; rewrite Habs; lra).
  replace (geq (Qabs v * 1024) 1024) with true
    by (symmetry; apply geq_true; rewrite Habs; lra).
  cbn [snd fst].
  replace (geq (Qabs v * 1024 / 1024) 100) with true
    by (symmetry; apply geq_true; rewrite Hscaled; exact Hlo).
  rewrite (toFixed_whole _ m Hscaled) by lia.
  destruct (Qlt_le_dec v 0) as [H|_]; [exfalso; lra|]. reflexivity.
Qed.

End FormatProperties.

Section FormatExamples.
Import Examples.

(** A minute and a half, and a megabyte and a half, below zero. *)
Lemma negative_value_mirrors_positive_witness :
  formatTime (RT := plain) (- 90) = "-" ++ formatTime (RT := plain) 90
  /\ formatMemory (RT := plain) (- 1536) = "-" ++ formatMemory (RT := plain) 1536.
Proof.
  split.
  - apply (negative_value_mirrors_positive (RT := plain) 90). reflexivity.
  - apply (negative_value_mirrors_positive (RT := plain) 1536). reflexivity.
Defined.

(** Ten hours and a hundred hours both read [1 h]. *)
Lemma whole_hours_lose_trailing_zeros_witness :
  formatTime (RT := plain) (inject_Z 10 * 3600)
  = strip_trailing_zeros (digits (Z.to_N 10)) ++ " h"
  /\ formatTime (RT := plain) (inject_Z (10 * 10) * 3600)
     = formatTime (RT := plain) (inject_Z 10 * 3600).
Proof. apply (whole_hours_lose_trailing_zeros (RT := plain) 10). lia. Defined.

(** A hundred kibibytes read [1 KB]. *)
Lemma whole_kibibytes_lose_trailing_zeros_witness :
  formatMemory (RT := plain) (inject_Z 100)
  = strip_trailing_zeros (digits (Z.to_N 100)) ++ " KB".
Proof. apply (whole_kibibytes_lose_trailing_zeros (RT := plain) 100). lia. Defined.

Lemma trailing_zeros_printed :
  formatTime (RT := plain) 36000 = "1 h"
  /\ formatTime (RT := plain) 3600 = "1 h"
  /\ formatMemory (RT := plain) 100 = "1 KB"
  /\ formatMemory (RT := plain) 1 = "1 KB".
Proof. repeat split; vm_compute; reflexivity. Qed.

End FormatExamples.


(** ** Widgets on the grid *)

Section GridProperties.
Import Page.
Local Open Scope Q_scope.

Lemma Qfloor_unique (t : Q) (i : Z) :
  inject_Z i <= t -> t < inject_Z i + 1 -> Qfloor t = i.
Proof.
  intros Hlo Hhi.
  pose proof (Qfloor_le t) as H1. pose proof (Qlt_floor t) as H2.
  assert (Ha : (Qfloor t < i + 1)%Z).
  { rewrite Zlt_Qlt, inject_Z_plus. apply Qle_lt_trans with t; assumption. }
  assert (Hb : (i < Qfloor t + 1)%Z).
  { rewrite Zlt_Qlt. apply Qle_lt_trans with t; assumption. }
  lia.
Qed.

Lemma Math_round_whole (q : Q) (i : Z) : q == inject_Z i -> Math_round q = inject_Z i.
Proof.
  intros Hq. unfold Math_round. f_equal. apply Qfloor_unique; rewrite Hq; lra.
Qed.

Lemma Math_round_near (v : Q) : v - (1 # 2) < Math_round v /\ Math_round v <= v + (1 # 2).
Proof.
  unfold Math_round.
  pose proof (Qfloor_le (v + (1 # 2))) as H1.
  pose proof (Qlt_floor (v + (1 # 2))) as H2.
  rewrite inject_Z_plus in H2. change (inject_Z 1) with 1 in H2. split; lra.
Qed.

Lemma snap_near (v : Q) : Qabs (Math_round (v / GRID_SIZE) * GRID_SIZE - v) <= 10.
Proof.
  destruct (Math_round_near (v / GRID_SIZE)) as [Hlo Hhi].
  assert (Hv : v == v / GRID_SIZE * 20) by (unfold GRID_SIZE; field).
  unfold GRID_SIZE in *. apply Qabs_Qle_condition. split; lra.
Qed.

(** X15.  [snapToGrid] moves a point to a grid point (both coordinates
    whole multiples of the grid size) at most half a cell away in each
    direction, and snapping a snapped point changes nothing. *)
Theorem snapToGrid_nearest_grid_point (x0 y0 : Q) :
  let p := snapToGrid x0 y0 in
  (exists i j : Z, x p = inject_Z i * GRID_SIZE /\ y p = inject_Z j * GRID_SIZE)
  /\ Qabs (x p - x0) <= 10
  /\ Qabs (y p - y0) <= 10
  /\ snapToGrid (x p) (y p) = p.
Proof.
  intros p. split; [|split; [|split]].
  - eexists _, _. split; reflexivity.
  - apply snap_near.
  - apply snap_near.
  - assert (Hr : forall v, Math_round (Math_round v * GRID_SIZE / GRID_SIZE)
                          = Math_round v).
    { intros v. set (i := Qfloor (v + (1 # 2))).
      change (Math_round v) with (inject_Z i).
      apply Math_round_whole. unfold GRID_SIZE. field. }
    unfold p, snapToGrid. cbn [x y]. now rewrite !Hr.
Qed.

(** X16.  [getGridPosition] undoes the drawing at every zoom level: a
    pointer less than half a cell (before zoom) from where the origin of
    cell [(i, j)] is drawn is in cell [(i, j)]. *)
Theorem getGridPosition_finds_the_cell (canvasRect : DOMRect) (pg : page)
    (i j : Z) (dx dy : Q) :
  0 < Canvas.scale (zoom pg) ->
  - (10) <= dx < 10 ->
  - (10) <= dy < 10 ->
  getGridPosition canvasRect
    (rect_left canvasRect + (inject_Z i * GRID_SIZE + dx) * Canvas.scale (zoom pg))
    (rect_top canvasRect + (inject_Z j * GRID_SIZE + dy) * Canvas.scale (zoom pg)) pg
  = {| x := inject_Z i; y := inject_Z j |}.
Proof.
  intros Hs [Hx1 Hx2] [Hy1 Hy2]. unfold getGridPosition, Math_round.
  set (s := Canvas.scale (zoom pg)) in *.
  assert (Hne : ~ s == 0) by lra.
  f_equal; f_equal; apply Qfloor_unique.
  - assert (H : (rect_left canvasRect + (inject_Z i * GRID_SIZE + dx) * s
                 - rect_left canvasRect) / s / GRID_SIZE + (1 # 2)
                == inject_Z i + (dx + 10) / 20) by (unfold GRID_SIZE; now field).
    rewrite H. assert (0 <= (dx + 10) / 20) by (apply Qle_shift_div_l; lra). lra.
  - assert (H : (rect_left canvasRect + (inject_Z i * GRID_SIZE + dx) * s
                 - rect_left canvasRect) / s / GRID_SIZE + (1 # 2)
                == inject_Z i + (dx + 10) / 20) by (unfold GRID_SIZE; now field).
    rewrite H. assert ((dx + 10) / 20 < 1) by (apply Qlt_shift_div_r; lra). lra.
  - assert (H : (rect_top canvasRect + (inject_Z j * GRID_SIZE + dy) * s
                 - rect_top canvasRect) / s / GRID_SIZE + (1 # 2)
                == inject_Z j + (dy + 10) / 20) by (unfold GRID_SIZE; now field).
    rewrite H. assert (0 <= (dy + 10) / 20) by (apply Qle_shift_div_l; lra). lra.
  - assert (H : (rect_top canvasRect + (inject_Z j * GRID_SIZE + dy) * s
                 - rect_top canvasRect) / s / GRID_SIZE + (1 # 2)
                == inject_Z j + (dy + 10) / 20) by (unfold GRID_SIZE; now field).
    rewrite H. assert ((dy + 10) / 20 < 1) by (apply Qlt_shift_div_r; lra). lra.
Qed.

End GridProperties.

Section PageProperties.
Context `{RT : Runtime}.
Import Page.
Local Open Scope Q_scope.

Lemma Math_max_ge_r (a b : Q) : b <= Canvas.Math_max a b.
Proof.
  unfold Canvas.Math_max. destruct (Qle_bool a b) eqn:E; [apply Qle_refl|].
  apply Qlt_le_weak. now apply Qle_bool_false.
Qed.

Lemma edges_cover (objs : list widget) (ws : list (string * nat)) :
  forall m : Q * Q,
    let edges :=
      fold_left
        (fun (m : Q * Q) (e : string * nat) =>
           match objs !! snd e with
           | Some w =>
               let widgetRight := x (position w) + width (size w) in
               let widgetBottom := y (position w) + height (size w) in
               (Canvas.Math_max (fst m) widgetRight, Canvas.Math_max (snd m) widgetBottom)
           | None => m
           end) ws m in
    fst m <= fst edges /\ snd m <= snd edges
    /\ forall k r w, In (k, r) ws -> objs !! r = Some w ->
         x (position w) + width (size w) <= fst edges
         /\ y (position w) + height (size w) <= snd edges.
Proof.
  induction ws as [|[k0 r0] ws IH]; intros m; cbn [fold_left snd].
  - split; [apply Qle_refl|]. split; [apply Qle_refl|]. intros k r w [].
  - destruct (objs !! r0) as [w0|] eqn:E0.
    + match goal with
      | |- context [fold_left ?f ws ?m'] => destruct (IH m') as (H1 & H2 & H3)
      end.
      cbn [fst snd] in H1, H2.
      split; [eapply Qle_trans; [apply Math_max_ge_l|exact H1]|].
      split; [eapply Qle_trans; [apply Math_max_ge_l|exact H2]|].
      intros k r w [Hin|Hin] Hw; [|now apply (H3 k r w)].
      inversion Hin; subst. rewrite E0 in Hw. inversion Hw; subst. split.
      * eapply Qle_trans; [apply Math_max_ge_r|exact H1].
      * eapply Qle_trans; [apply Math_max_ge_r|exact H2].
    + destruct (IH m) as (H1 & H2 & H3).
      split; [exact H1|]. split; [exact H2|].
      intros k r w [Hin|Hin] Hw; [|now apply (H3 k r w)].
      inversion Hin; subst. congruence.
Qed.

Lemma refit_holds (container : size_t) (pg : page) :
  let pg' := updateCanvasToFitWidgets container pg in
  width container <= baseWidth pg'
  /\ height container <= baseHeight pg'
  /\ forall r w, on_canvas pg r w -> holds pg' w.
Proof.
  intros pg'. split; [apply Math_max_ge_r|]. split; [apply Math_max_ge_r|].
  intros r w [[k Hin] Hw]. unfold holds, pg', updateCanvasToFitWidgets. cbn [baseWidth baseHeight set_base].
  unfold calculateWidgetBounds.
  destruct (widgets pg) as [|e ws] eqn:Hws; [contradiction|].
  cbn [length Nat.eqb width height].
  match goal with
  | |- context [fold_left ?f (e :: ws) ?m] =>
      destruct (edges_cover (objects pg) (e :: ws) m) as (_ & _ & H)
  end.
  destruct (H k r w Hin Hw) as [Hx Hy]. unfold GRID_SIZE. cbv zeta in Hx, Hy |- *. split.
  - eapply Qle_trans; [|apply Math_max_ge_l]. lra.
  - eapply Qle_trans; [|apply Math_max_ge_l]. lra.
Qed.

(** *** Widgets stay in place *)

Lemma tidy_insert (pg : page) (r : nat) (w' : widget) :
  tidy pg -> in_place w' -> tidy (set_objects (<[r := w']> (objects pg)) pg).
Proof.
  intros Ht Hw' k r' Hin. destruct (Ht k r' Hin) as (w & Hw & Hplace).
  cbn [objects set_objects]. destruct (decide (r = r')) as [->|Hne].
  - exists w'. split; [|exact Hw']. apply list_lookup_insert_eq.
    now apply lookup_lt_Some in Hw.
  - exists w. split; [|exact Hplace]. now rewrite list_lookup_insert_ne.
Qed.

Lemma clamped_in_place (w : widget) :
  in_place
    {| id := id w;
       position := {| x := Canvas.Math_max 0 (x (position w));
                      y := Canvas.Math_max 0 (y (position w)) |};
       size := size w;
       element := Some {| left_px := Canvas.Math_max 0 (x (position w)) * GRID_SIZE;
                          top_px := Canvas.Math_max 0 (y (position w)) * GRID_SIZE |} |}.
Proof.
  split; [apply Math_max_ge_l|]. split; [apply Math_max_ge_l|].
  eexists. split; [reflexivity|]. split; reflexivity.
Qed.

Lemma constrain_tidy (r : nat) (pg : page) :
  tidy pg -> tidy (snd (constrainWidgetToBounds r pg)).
Proof.
  intros Ht. unfold constrainWidgetToBounds.
  destruct (objects pg !! r) as [w|] eqn:Hw; [|exact Ht].
  destruct (element w) as [style|] eqn:He; cbn [snd].
  - apply tidy_insert; [exact Ht|apply clamped_in_place].
  - intros k r' Hin. destruct (Ht k r' Hin) as (w1 & Hw1 & Hplace).
    exists w1. split; [|exact Hplace]. cbn [objects set_objects].
    rewrite list_lookup_insert_ne; [exact Hw1|]. intros ->.
    rewrite Hw in Hw1. inversion Hw1; subst.
    destruct Hplace as (_ & _ & style & Hstyle & _). congruence.
Qed.

Lemma constrain_widgets (r : nat) (pg : page) :
  widgets (snd (constrainWidgetToBounds r pg)) = widgets pg.
Proof.
  unfold constrainWidgetToBounds.
  destruct (objects pg !! r) as [w|]; [|reflexivity]. now destruct (element w).
Qed.

Lemma Map_has_In (k : string) (m : list (string * nat)) :
  Map_has k m = true <-> exists r, In (k, r) m.
Proof.
  unfold Map_has. rewrite existsb_exists. split.
  - intros ([k' r] & Hin & Heq). apply String.eqb_eq in Heq. simpl in Heq. subst.
    now exists r.
  - intros [r Hin]. exists (k, r). split; [exact Hin|]. apply String.eqb_refl.
Qed.

(** What [addWidget] does with a widget whose id is not on the canvas. *)
Lemma addWidget_new (container : size_t) (r : nat) (w : widget) (pg : page) :
  objects pg !! r = Some w ->
  Map_has (id w) (widgets pg) = false ->
  addWidget container r pg
  = (Normal tt,
     updateCanvasToFitWidgets container
       (set_objects
          (<[r := {| id := id w;
                     position := {| x := Canvas.Math_max 0 (x (position w));
                                    y := Canvas.Math_max 0 (y (position w)) |};
                     size := size w;
                     element :=
                       Some {| left_px := Canvas.Math_max 0 (x (position w)) * GRID_SIZE;
                               top_px := Canvas.Math_max 0 (y (position w)) * GRID_SIZE |} |}]>
             (objects pg))
          (set_widgets (widgets pg ++ [(id w, r)])%list pg))).
Proof.
  intros Hw Hnew. unfold addWidget. rewrite Hw, Hnew.
  unfold bind, modify, constrainWidgetToBounds, Map_set.
  pose proof (lookup_lt_Some _ _ _ Hw) as Hlt.
  destruct (element w) as [style|] eqn:He;
    cbn [objects widgets set_objects set_widgets]; rewrite Hnew.
  - rewrite Hw, He. reflexivity.
  - rewrite list_lookup_insert_eq by exact Hlt.
    cbn [element createElement id size position x y].
    rewrite list_insert_insert_eq. reflexivity.
Qed.

Lemma addWidget_tidy (container : size_t) (r : nat) (pg : page) :
  tidy pg -> tidy (snd (addWidget container r pg)).
Proof.
  intros Ht. destruct (objects pg !! r) as [w|] eqn:Hw;
    [|unfold addWidget; now rewrite Hw].
  destruct (Map_has (id w) (widgets pg)) eqn:Hhas;
    [unfold addWidget; now rewrite Hw, Hhas|].
  rewrite (addWidget_new container r w pg Hw Hhas). cbn [snd].
  intros k r' Hin.
  cbn [widgets updateCanvasToFitWidgets set_base set_objects set_widgets objects] in *.
  apply in_app_or in Hin as [Hin|[Hin|[]]].
  - destruct (tidy_insert pg r _ Ht (clamped_in_place w) k r' Hin) as (w1 & Hw1 & H1).
    now exists w1.
  - inversion Hin; subst. eexists. split; [|apply (clamped_in_place w)].
    apply list_lookup_insert_eq. now apply lookup_lt_Some in Hw.
Qed.

Lemma Map_delete_In (k k' : string) (r : nat) (m : list (string * nat)) :
  In (k', r) (Map_delete k m) -> In (k', r) m.
Proof. unfold Map_delete. rewrite filter_In. tauto. Qed.

Lemma removeWidget_tidy (container : size_t) (widgetId : string) (pg : page) :
  tidy pg -> tidy (removeWidget container widgetId pg).
Proof.
  intros Ht. unfold removeWidget. destruct (Map_get widgetId (widgets pg)); [|exact Ht].
  intros k r Hin. apply Map_delete_In in Hin. exact (Ht k r Hin).
Qed.

Lemma handleResize_tidy (container : size_t) (pg : page) :
  tidy pg -> tidy (snd (handleResize container pg)).
Proof.
  intros Ht. unfold handleResize.
  apply (forEach_preserves (fun e => constrainWidgetToBounds (snd e)) tidy);
    [|exact Ht].
  intros e s _ Hs. now apply constrain_tidy.
Qed.

Lemma snapped_in_place (v : Q) :
  let n := Canvas.Math_max 0 (Math_round (v / GRID_SIZE) * GRID_SIZE) in
  0 <= Math_round (n / GRID_SIZE) /\ n == Math_round (n / GRID_SIZE) * GRID_SIZE.
Proof.
  intros n. unfold n, Canvas.Math_max.
  set (k := Qfloor (v / GRID_SIZE + (1 # 2))).
  change (Math_round (v / GRID_SIZE)) with (inject_Z k).
  destruct (Qle_bool 0 (inject_Z k * GRID_SIZE)) eqn:E.
  - apply Qle_bool_iff in E.
    rewrite (Math_round_whole (inject_Z k * GRID_SIZE / GRID_SIZE) k)
      by (unfold GRID_SIZE; field).
    split; [unfold GRID_SIZE in E; lra|reflexivity].
  - rewrite (Math_round_whole (0 / GRID_SIZE) 0) by reflexivity.
    split; [apply Qle_refl|reflexivity].
Qed.

Lemma handleDrag_tidy (canvasRect : DOMRect) (e : pointer_event) (pg : page) :
  tidy pg -> tidy (snd (handleDrag canvasRect e pg)).
Proof.
  intros Ht. unfold handleDrag.
  destruct (isDragging (dragDropManager pg)); [|exact Ht].
  destruct (draggedWidget (dragDropManager pg)) as [r|]; [|exact Ht].
  destruct (objects pg !! r) as [w|]; [|exact Ht].
  destruct (element w); [|exact Ht]. cbn [snd].
  apply tidy_insert; [exact Ht|].
  match goal with
  | |- in_place {| id := _;
                   position := {| x := Math_round (?nx / _); y := Math_round (?ny / _) |};
                   size := _; element := _ |} =>
      match nx with
      | Canvas.Math_max 0 (Math_round (?vx / _) * _) =>
          destruct (snapped_in_place vx) as [Hx1 Hx2]
      end;
      match ny with
      | Canvas.Math_max 0 (Math_round (?vy / _) * _) =>
          destruct (snapped_in_place vy) as [Hy1 Hy2]
      end
  end.
  split; [exact Hx1|]. split; [exact Hy1|].
  eexists. split; [reflexivity|]. split; [exact Hx2|exact Hy2].
Qed.

Lemma run_listeners_preserves (Inv : page -> Prop) (listener : Eff page unit) (n : nat) :
  (forall pg, Inv pg -> Inv (snd (listener pg))) ->
  forall pg, Inv pg -> Inv (run_listeners n listener pg).
Proof.
  intros Hl pg Hpg. unfold run_listeners.
  induction n as [|n IH]; [exact Hpg|]. simpl. now apply Hl.
Qed.

Lemma endDrag_tidy (container : size_t) (saved : completion unit) (pg : page) :
  tidy pg -> tidy (snd (endDrag container saved pg)).
Proof.
  intros Ht. unfold endDrag.
  destruct (isDragging (dragDropManager pg)); [|exact Ht].
  destruct (draggedWidget (dragDropManager pg)) as [r|]; [|exact Ht].
  destruct (option_map element (objects pg !! r)) as [[style|]|];
    try destruct saved; exact Ht.
Qed.

Lemma autoSize_in_place (scrollWidth scrollHeight : Q) (w : widget) :
  in_place w -> in_place (autoSize scrollWidth scrollHeight w).
Proof.
  intros H. unfold autoSize. destruct (element w) eqn:He; [|exact H].
  destruct (negb _ || negb _); [|exact H].
  destruct H as (Hx & Hy & style & Hs & Hl & Ht).
  split; [exact Hx|]. split; [exact Hy|]. exists style. cbn [element position].
  now rewrite <- Hs.
Qed.

(** A press keeps what [startDrag] keeps: the listeners call it or do
    nothing. *)
Lemma press_preserves (Inv : page -> Prop) (onRemoveButton : bool) (canvasRect : DOMRect)
    (e : pointer_event) (r : nat) (pg : page) :
  Inv pg ->
  (forall pg', Inv pg' -> Inv (snd (startDrag canvasRect e r pg'))) ->
  Inv match e with
      | MouseEvent _ _ => snd (mousedown onRemoveButton canvasRect e r pg)
      | TouchEvent _ _ => snd (touchstart onRemoveButton canvasRect e r pg)
      end.
Proof.
  intros Hpg Hstart. unfold mousedown, touchstart.
  destruct e as [clientX clientY|touch others], onRemoveButton; cbn [snd ret];
    try exact Hpg; [now apply Hstart|].
  destruct (Canvas.isZooming (zoom pg)); [exact Hpg|].
  destruct (1 <? length (touches (TouchEvent touch others)))%nat; [exact Hpg|].
  now apply Hstart.
Qed.

Lemma step_tidy (pg : page) (ev : event) : tidy pg -> tidy (step pg ev).
Proof.
  intros Ht. destruct ev; cbn [step].
  - intros k r Hin. destruct (Ht k r Hin) as (w & Hw & Hplace).
    exists w. split; [|exact Hplace]. cbn [objects set_objects].
    now apply lookup_app_l_Some.
  - now apply addWidget_tidy.
  - now apply removeWidget_tidy.
  - now apply handleResize_tidy.
  - exact Ht.
  - intros k r' Hin. destruct (Ht k r' Hin) as (w & Hw & Hplace).
    cbn [objects set_objects]. destruct (decide (r = r')) as [->|Hne].
    + rewrite list_lookup_alter_eq, Hw. eexists. split; [reflexivity|].
      now apply autoSize_in_place.
    + rewrite list_lookup_alter_ne by exact Hne. now exists w.
  - apply press_preserves; [exact Ht|]. intros pg' Hpg'. unfold startDrag.
    destruct (objects _ !! r) as [w|]; [|exact Hpg'].
    destruct (element w); exact Hpg'.
  - apply run_listeners_preserves; [|exact Ht]. intros pg'. apply handleDrag_tidy.
  - apply run_listeners_preserves; [|exact Ht]. intros pg'. apply endDrag_tidy.
  - exact Ht.
Qed.

Lemma play_preserves_tidy (evs : list event) :
  forall pg, tidy pg -> tidy (play evs pg).
Proof.
  unfold play. induction evs as [|ev evs IH]; intros pg Hpg; [exact Hpg|].
  simpl. apply IH. now apply step_tidy.
Qed.

Lemma play_tidy (evs : list event) (objs : list widget) (container : size_t) :
  tidy (play evs (constructor objs container)).
Proof. apply play_preserves_tidy. intros k r []. Qed.

(** X18.  Whatever happens to the page (widgets made, added, removed,
    resized to their content, dragged, the window resized, the canvas
    zoomed), every widget of the canvas keeps an element, the element is
    drawn at twenty pixels per grid unit of the widget's position, and the
    position is never left of or above the origin. *)
Theorem widgets_stay_in_place (evs : list event) (objs : list widget)
    (container : size_t) :
  tidy (play evs (constructor objs container)).
Proof.
  apply play_preserves_tidy.
  (* the canvas of the constructor has no widgets *)
  intros k r Hin. cbn [widgets constructor] in Hin. contradiction.
Qed.

(** *** Refitting the canvas *)

Lemma refit_holds_all (container : size_t) (pg : page) (r : nat) (w : widget) :
  on_canvas (updateCanvasToFitWidgets container pg) r w ->
  holds (updateCanvasToFitWidgets container pg) w.
Proof. intros Hon. exact (proj2 (proj2 (refit_holds container pg)) r w Hon). Qed.

(** X17.  Whenever the canvas is refitted (directly, at the end of
    [addWidget] for a new widget, of [removeWidget] for a widget of the
    canvas, and of a drop whose position was saved), its base size is at
    least the viewport and holds every widget of the canvas with two
    cells to spare to the right and below. *)
Theorem canvas_grows_to_hold_widgets (container : size_t) (pg : page) :
  (let pg' := updateCanvasToFitWidgets container pg in
   width container <= baseWidth pg' /\ height container <= baseHeight pg'
   /\ forall r w, on_canvas pg r w -> holds pg' w)
  /\ (forall r w,
        objects pg !! r = Some w -> Map_has (id w) (widgets pg) = false ->
        let pg' := snd (addWidget container r pg) in
        (exists w', on_canvas pg' r w')
        /\ forall r' w', on_canvas pg' r' w' -> holds pg' w')
  /\ (forall widgetId,
        Map_has widgetId (widgets pg) = true ->
        let pg' := removeWidget container widgetId pg in
        Map_has widgetId (widgets pg') = false
        /\ forall r' w', on_canvas pg' r' w' -> holds pg' w')
  /\ (forall r,
        isDragging (dragDropManager pg) = true ->
        draggedWidget (dragDropManager pg) = Some r ->
        fst (endDrag container (Normal tt) pg) = Normal tt ->
        let pg' := snd (endDrag container (Normal tt) pg) in
        draggedWidget (dragDropManager pg') = None
        /\ forall r' w', on_canvas pg' r' w' -> holds pg' w').
Proof.
  split; [apply refit_holds|]. split; [|split].
  - intros r w Hw Hnew pg'. unfold pg'. rewrite (addWidget_new container r w pg Hw Hnew).
    cbn [snd]. split.
    + eexists. split; [exists (id w); cbn; apply in_or_app; right; now left|].
      cbn. apply list_lookup_insert_eq. now apply lookup_lt_Some in Hw.
    + intros r' w' Hon. exact (refit_holds_all _ _ r' w' Hon).
  - intros widgetId Hhas pg'. unfold pg', removeWidget.
    assert (Hget : exists r, Map_get widgetId (widgets pg) = Some r).
    { unfold Map_get, Map_has in *. apply existsb_exists in Hhas as (e & Hin & He).
      destruct (List.find _ (widgets pg)) as [e'|] eqn:Hf; [now eexists|].
      apply (find_none _ _ Hf) in Hin. congruence. }
    destruct Hget as [r ->]. split.
    + cbn. apply not_true_is_false. intros H. apply Map_has_In in H as [r' Hin].
      unfold Map_delete in Hin. apply filter_In in Hin as [_ Hne]. simpl in Hne.
      now rewrite String.eqb_refl in Hne.
    + intros r' w' Hon. exact (refit_holds_all _ _ r' w' Hon).
  - intros r Hdrag Hr Hnormal pg'. unfold pg'. revert Hnormal. unfold endDrag.
    rewrite Hdrag, Hr.
    destruct (option_map element (objects pg !! r)) as [[style|]|]; cbn [fst snd];
      try discriminate; intros _; (split; [reflexivity|]);
      intros r' w' Hon; exact (refit_holds_all container pg r' w' Hon).
Qed.

(** *** Dragging *)

Lemma handleDrag_twice (canvasRect : DOMRect) (e : pointer_event) (pg : page) :
  snd (handleDrag canvasRect e (snd (handleDrag canvasRect e pg)))
  = snd (handleDrag canvasRect e pg).
Proof.
  destruct (isDragging (dragDropManager pg)) eqn:Hd;
    [|unfold handleDrag; rewrite Hd; cbn [snd]; now rewrite Hd].
  destruct (draggedWidget (dragDropManager pg)) as [r|] eqn:Hr;
    [|unfold handleDrag; rewrite Hd, Hr; cbn [snd]; now rewrite Hd, Hr].
  destruct (objects pg !! r) as [w|] eqn:Hw;
    [|unfold handleDrag; rewrite Hd, Hr, Hw; cbn [snd]; now rewrite Hd, Hr, Hw].
  destruct (element w) as [style|] eqn:He;
    [|unfold handleDrag; rewrite Hd, Hr, Hw, He; cbn [snd]; now rewrite Hd, Hr, Hw, He].
  unfold handleDrag at 2. rewrite Hd, Hr, Hw, He. cbn [snd].
  unfold handleDrag. cbn [dragDropManager set_objects objects].
  rewrite Hd, Hr, Hw, He.
  rewrite list_lookup_insert_eq by (now apply lookup_lt_Some in Hw).
  cbn [element id size snd]. unfold getCanvasCoordinates. cbn [zoom set_objects].
  unfold set_objects. cbn [objects zoom widgets baseWidth baseHeight dragDropManager].
  now rewrite list_insert_insert_eq.
Qed.

Lemma run_listeners_once (listener : Eff page unit) (n : nat) (pg : page) :
  (forall pg, snd (listener (snd (listener pg))) = snd (listener pg)) ->
  run_listeners (Datatypes.S n) listener pg = snd (listener pg).
Proof.
  intros Hl. unfold run_listeners. induction n as [|n IH]; [reflexivity|].
  change (Nat.iter (Datatypes.S (Datatypes.S n)) (fun pg => snd (listener pg)) pg)
    with (snd (listener (Nat.iter (Datatypes.S n) (fun pg => snd (listener pg)) pg))).
  rewrite IH. apply Hl.
Qed.

Lemma constrain_zoom (r : nat) (pg : page) :
  zoom (snd (constrainWidgetToBounds r pg)) = zoom pg.
Proof.
  unfold constrainWidgetToBounds.
  destruct (objects pg !! r) as [w|]; [|reflexivity]. now destruct (element w).
Qed.

Lemma step_zoom_ok (pg : page) (ev : event) :
  Canvas.zoom_ok (zoom pg) -> Canvas.zoom_ok (zoom (step pg ev)).
Proof.
  intros Hz. destruct ev; cbn [step].
  - exact Hz.
  - unfold addWidget. destruct (objects pg !! r) as [w|]; [|exact Hz].
    destruct (Map_has (id w) (widgets pg)); [exact Hz|].
    unfold bind, modify.
    match goal with
    | |- context [constrainWidgetToBounds r ?p] =>
        pose proof (constrain_zoom r p) as Hc;
        destruct (constrainWidgetToBounds r p) as [[[]|err] p']
    end; cbn [snd fst zoom updateCanvasToFitWidgets set_base] in *; rewrite Hc;
      now destruct (element w).
  - unfold removeWidget. now destruct (Map_get widgetId (widgets pg)).
  - unfold handleResize.
    apply (forEach_preserves (fun e => constrainWidgetToBounds (snd e))
             (fun p => Canvas.zoom_ok (zoom p))); [|exact Hz].
    intros e s _ Hs. now rewrite constrain_zoom.
  - cbn [zoom set_zoom]. now apply dispatch_zoom_ok.
  - exact Hz.
  - apply (press_preserves (fun p => Canvas.zoom_ok (zoom p))); [exact Hz|].
    intros pg' Hpg'. unfold startDrag. destruct (objects _ !! r) as [w|]; [|exact Hpg'].
    now destruct (element w).
  - apply (run_listeners_preserves (fun p => Canvas.zoom_ok (zoom p))); [|exact Hz].
    intros p Hp. unfold handleDrag.
    destruct (isDragging (dragDropManager p)); [|exact Hp].
    destruct (draggedWidget (dragDropManager p)) as [r|]; [|exact Hp].
    destruct (objects p !! r) as [w|]; [|exact Hp]. now destruct (element w).
  - apply (run_listeners_preserves (fun p => Canvas.zoom_ok (zoom p))); [|exact Hz].
    intros p Hp. unfold endDrag.
    destruct (isDragging (dragDropManager p)); [|exact Hp].
    destruct (draggedWidget (dragDropManager p)) as [r|]; [|exact Hp].
    destruct (option_map element (objects p !! r)) as [[style|]|];
      try destruct saved; exact Hp.
  - exact Hz.
Qed.

Lemma play_zoom_ok (evs : list event) (objs : list widget) (container : size_t) :
  Canvas.zoom_ok (zoom (play evs (constructor objs container))).
Proof.
  unfold play.
  assert (H : forall pg, Canvas.zoom_ok (zoom pg) ->
                         Canvas.zoom_ok (zoom (fold_left step evs pg))).
  { induction evs as [|ev evs IH]; intros pg Hpg; [exact Hpg|].
    simpl. apply IH. now apply step_zoom_ok. }
  apply H. apply constructor_zoom_ok.
Qed.

(** One axis of a drag: the pointer goes from [a] to [b], [n] cells
    further at zoom [s]; the widget was drawn at cell [i]. *)
Lemma drag_axis (a b origin s drawn : Q) (i n : Z) :
  0 < s ->
  drawn == inject_Z i * GRID_SIZE ->
  b == a + inject_Z n * GRID_SIZE * s ->
  Math_round
    (Canvas.Math_max 0
       (Math_round (((b - origin) / s - ((a - origin) / s - drawn)) / GRID_SIZE)
        * GRID_SIZE) / GRID_SIZE)
  = inject_Z (Z.max 0 (i + n)).
Proof.
  intros Hs Hdrawn Hb.
  assert (Hne : ~ s == 0) by lra.
  rewrite (Math_round_whole
             (((b - origin) / s - ((a - origin) / s - drawn)) / GRID_SIZE) (i + n)).
  2:{ rewrite Hb, Hdrawn, inject_Z_plus. unfold GRID_SIZE. now field. }
  unfold Canvas.Math_max.
  destruct (Qle_bool 0 (inject_Z (i + n) * GRID_SIZE)) eqn:E.
  - apply Qle_bool_iff in E.
    assert (0 <= i + n)%Z.
    { rewrite Zle_Qle. unfold GRID_SIZE in E. change (inject_Z 0) with 0. lra. }
    replace (Z.max 0 (i + n)) with (i + n)%Z by lia.
    apply Math_round_whole. unfold GRID_SIZE. field.
  - apply Qle_bool_false in E.
    assert (i + n < 0)%Z.
    { rewrite Zlt_Qlt. unfold GRID_SIZE in E. change (inject_Z 0) with 0. lra. }
    replace (Z.max 0 (i + n)) with 0%Z by lia.
    now apply Math_round_whole.
Qed.

(** What a press does when the listeners let it through, and when they
    do not. *)
Lemma press_taken (canvasRect : DOMRect) (e : pointer_event) (r : nat) (pg : page) :
  (forall touch others,
     e = TouchEvent touch others -> Canvas.isZooming (zoom pg) = false /\ others = []) ->
  step pg (PointerDown false canvasRect e r) = snd (startDrag canvasRect e r pg).
Proof.
  intros Htouch. cbn [step]. unfold mousedown, touchstart.
  destruct e as [clientX clientY|touch others]; [reflexivity|].
  destruct (Htouch touch others eq_refl) as [-> ->]. reflexivity.
Qed.

Lemma press_refused (onRemoveButton : bool) (canvasRect : DOMRect) (e : pointer_event)
    (r : nat) (pg : page) :
  onRemoveButton = true
  \/ (exists touch others,
        e = TouchEvent touch others
        /\ (Canvas.isZooming (zoom pg) = true \/ others <> [])) ->
  step pg (PointerDown onRemoveButton canvasRect e r) = pg.
Proof.
  intros [->|(touch & others & -> & Hpinch)]; cbn [step]; unfold mousedown, touchstart.
  - now destruct e.
  - destruct onRemoveButton; [reflexivity|].
    destruct (Canvas.isZooming (zoom pg)); [reflexivity|].
    destruct Hpinch as [Hzoom|Hmany]; [discriminate|].
    destruct others as [|touch' others]; [contradiction|reflexivity].
Qed.

(** X19.  A drag follows the pointer at every zoom level.  On any page
    the events can lead to, take a widget of the canvas at a whole cell
    [(i, j)]; press on it (not on its remove button, and when by touch
    with one finger and while no pinch is going on) and move the pointer
    by [n] cells across and [m] cells down as the zoom shows them: the
    widget is now at cell [(i + n, j + m)], or at row or column 0 where
    that would be negative.  The listeners earlier drags left on the
    document do not change the result.  A press on the remove button, or
    a touch during a pinch or with more than one finger, changes
    nothing. *)
Theorem drag_moves_widget_by_whole_cells (evs : list event) (objs : list widget)
    (container : size_t) (canvasRect : DOMRect) (onRemoveButton : bool)
    (e e' : pointer_event) (k : string) (r : nat) (w : widget) (i j n m : Z) :
  let pg := play evs (constructor objs container) in
  let s := Canvas.scale (zoom pg) in
  In (k, r) (widgets pg) ->
  objects pg !! r = Some w ->
  position w = {| x := inject_Z i; y := inject_Z j |} ->
  fst (getEventCoordinates e')
    == fst (getEventCoordinates e) + inject_Z n * GRID_SIZE * s ->
  snd (getEventCoordinates e')
    == snd (getEventCoordinates e) + inject_Z m * GRID_SIZE * s ->
  (onRemoveButton = false ->
   (forall touch others,
      e = TouchEvent touch others ->
      Canvas.isZooming (zoom pg) = false /\ others = []) ->
   exists w',
     objects (step (step pg (PointerDown onRemoveButton canvasRect e r))
                (PointerMove canvasRect e')) !! r = Some w'
     /\ position w'
        = {| x := inject_Z (Z.max 0 (i + n)); y := inject_Z (Z.max 0 (j + m)) |})
  /\ (onRemoveButton = true
      \/ (exists touch others,
            e = TouchEvent touch others
            /\ (Canvas.isZooming (zoom pg) = true \/ others <> [])) ->
      step pg (PointerDown onRemoveButton canvasRect e r) = pg).
Proof.
  intros pg s Hin Hw Hpos Hx Hy. split; [|apply press_refused].
  intros -> Htouch. rewrite (press_taken canvasRect e r pg Htouch).
  destruct (play_tidy evs objs container k r Hin) as (w0 & Hw0 & Hplace).
  fold pg in Hw0. rewrite Hw in Hw0. inversion Hw0; subst w0. clear Hw0.
  destruct Hplace as (_ & _ & style & Hstyle & Hleft & Htop).
  rewrite Hpos in Hleft, Htop. cbn [x y] in Hleft, Htop.
  assert (Hs : 0 < s).
  { destruct (play_zoom_ok evs objs container) as (_ & _ & [Hlo _]).
    fold pg in Hlo. unfold s. lra. }
  cbn [step]. unfold startDrag. cbn [objects set_manager]. rewrite Hw, Hstyle.
  cbn [snd dragDropManager set_manager document_listeners].
  rewrite run_listeners_once by apply handleDrag_twice.
  unfold handleDrag.
  cbn [dragDropManager set_manager isDragging draggedWidget objects dragOffset x y].
  rewrite Hw, Hstyle. cbn [snd objects set_objects].
  rewrite list_lookup_insert_eq by (now apply lookup_lt_Some in Hw).
  eexists. split; [reflexivity|]. cbn [position].
  unfold getCanvasCoordinates. cbn [canvasX canvasY zoom set_manager].
  fold s. f_equal.
  - now apply drag_axis.
  - now apply drag_axis.
Qed.

End PageProperties.

Section PageExamples.
Import Page PageSamples.
Local Open Scope Q_scope.

(** At 100%, the canvas drawn at (100, 50): a pointer 4 px right of and
    10 px above the origin of cell (3, 2). *)
Lemma getGridPosition_finds_the_cell_witness :
  getGridPosition canvasRect
    (100 + (inject_Z 3 * GRID_SIZE + 4) * 1) (50 + (inject_Z 2 * GRID_SIZE + - (10)) * 1)
    (constructor [] viewport)
  = {| x := inject_Z 3; y := inject_Z 2 |}.
Proof.
  apply (getGridPosition_finds_the_cell canvasRect (constructor [] viewport) 3 2 4 (- (10))).
  - reflexivity.
  - split; [discriminate|reflexivity].
  - split; [discriminate|reflexivity].
Defined.

(** A new widget put on an empty canvas. *)
Lemma canvas_grows_to_hold_widgets_witness :
  let pg := constructor [BaseWidget "generated" config] viewport in
  let pg' := snd (addWidget viewport 0 pg) in
  (exists w', on_canvas pg' 0%nat w')
  /\ forall r' w', on_canvas pg' r' w' -> holds pg' w'.
Proof.
  intros pg.
  apply (proj1 (proj2 (canvas_grows_to_hold_widgets viewport pg))
           0%nat (BaseWidget "generated" config)); reflexivity.
Defined.

(** The widget at cell (2, 3), the canvas at 120%: touching it with one
    finger at (130, 90) and moving one cell right and five cells up (24 px
    and 120 px on the screen) leaves the widget at cell (3, 0). *)
Lemma drag_moves_widget_by_whole_cells_witness :
  exists w',
    objects
      (step (RT := Examples.plain)
         (step (RT := Examples.plain)
            (play (RT := Examples.plain) history (constructor [] viewport))
            (PointerDown false canvasRect (TouchEvent (130, 90) []) 0))
         (PointerMove canvasRect (TouchEvent (154, - (30)) []))) !! 0%nat = Some w'
    /\ position w' = {| x := inject_Z (Z.max 0 (2 + 1)); y := inject_Z (Z.max 0 (3 + - 5)) |}.
Proof.
  pose proof (fun w Hin Hw Hpos Hx Hy =>
                proj1 (drag_moves_widget_by_whole_cells (RT := Examples.plain) history []
                         viewport canvasRect false (TouchEvent (130, 90) [])
                         (TouchEvent (154, - (30)) []) "w1" 0%nat w 2 3 1 (- 5)
                         Hin Hw Hpos Hx Hy)) as Hdrag.
  eapply Hdrag.
  - left. reflexivity.
  - reflexivity.
  - reflexivity.
  - vm_compute. reflexivity.
  - vm_compute. reflexivity.
  - reflexivity.
  - intros touch others Hone. inversion Hone; subst. split; reflexivity.
Defined.

(** The same touch with a second finger down starts no drag. *)
Example second_finger_starts_no_drag :
  step (RT := Examples.plain)
    (play (RT := Examples.plain) history (constructor [] viewport))
    (PointerDown false canvasRect (TouchEvent (130, 90) [(200, 90)]) 0)
  = play (RT := Examples.plain) history (constructor [] viewport).
Proof. reflexivity. Qed.

End PageExamples.


(** ** More of the auto-layout *)

Section LayoutRuns.
Import AutoLayout.
Local Open Scope Z_scope.

Lemma place_appends (cw chh : Z) (st : cursor) (w : widget) :
  exists p, positions (place cw chh st w) = (positions st ++ [p])%list.
Proof.
  unfold place. destruct (cw <? currentX st + width (size w));
    match goal with |- context [chh <? ?a] => destruct (chh <? a) end;
    eexists; reflexivity.
Qed.

Lemma fold_place_extends (cw chh : Z) (widgets : list widget) :
  forall st,
    exists more,
      positions (fold_left (place cw chh) widgets st) = (positions st ++ more)%list.
Proof.
  induction widgets as [|w widgets IH]; intros st; simpl.
  - exists []. now rewrite app_nil_r.
  - destruct (IH (place cw chh st w)) as [more Hmore].
    destruct (place_appends cw chh st w) as [p Hp].
    exists (p :: more). rewrite Hmore, Hp, <- app_assoc. reflexivity.
Qed.

(** The columns a row can use, and where the loop stands. *)
Lemma place_in_columns (cw chh : Z) (st : cursor) (w : widget) :
  0 <= currentX st -> 0 <= currentY st -> 0 <= maxHeightInRow st -> positive w ->
  exists p,
    positions (place cw chh st w) = (positions st ++ [p])%list
    /\ 0 <= currentX (place cw chh st w)
    /\ 0 <= currentY (place cw chh st w)
    /\ 0 <= maxHeightInRow (place cw chh st w)
    /\ 0 <= x p /\ 0 <= y p
    /\ (width (size w) <= cw -> x p + width (size w) <= cw)
    /\ (cw < width (size w) -> x p = 0).
Proof.
  intros HX HY HH [Hw Hh]. unfold place, margin.
  destruct (cw <? currentX st + width (size w)) eqn:Hrow;
    match goal with |- context [chh <? ?a] => destruct (chh <? a) eqn:Hpage end;
    eexists; (split; [reflexivity|]); cbn [currentX currentY maxHeightInRow x y];
    repeat split; lia.
Qed.

Lemma fold_place_in_columns (cw chh : Z) (widgets : list widget) :
  forall st placed,
    0 <= currentX st -> 0 <= currentY st -> 0 <= maxHeightInRow st ->
    length (positions st) = length placed ->
    Forall positive widgets ->
    (forall i p w, positions st !! i = Some p -> placed !! i = Some w ->
       0 <= x p /\ 0 <= y p
       /\ (width (size w) <= cw -> x p + width (size w) <= cw)
       /\ (cw < width (size w) -> x p = 0)) ->
    forall i p w,
      positions (fold_left (place cw chh) widgets st) !! i = Some p ->
      (placed ++ widgets)%list !! i = Some w ->
      0 <= x p /\ 0 <= y p
      /\ (width (size w) <= cw -> x p + width (size w) <= cw)
      /\ (cw < width (size w) -> x p = 0).
Proof.
  induction widgets as [|w0 widgets IH]; intros st placed HX HY HH Hlen Hall Hst i p w.
  - simpl. rewrite app_nil_r. apply Hst.
  - apply Forall_cons in Hall as [Hw0 Hall]. simpl.
    destruct (place_in_columns cw chh st w0 HX HY HH Hw0)
      as (p0 & Hpos & HX' & HY' & HH' & Hp0).
    replace (placed ++ w0 :: widgets)%list with ((placed ++ [w0]) ++ widgets)%list
      by (now rewrite <- app_assoc).
    apply IH; try assumption.
    + rewrite Hpos, !length_app. simpl. lia.
    + intros j q v Hq Hv. rewrite Hpos in Hq.
      apply lookup_snoc_Some in Hq as [[Hq Hj]|[Hj ->]];
        apply lookup_snoc_Some in Hv as [[Hv Hj']|[Hj' ->]];
        [now apply (Hst j)|lia|lia|exact Hp0].
Qed.

(** X20.  The layout keeps to the columns of the canvas: every widget (of
    positive size) is placed at a column and row that are not negative; a
    widget no wider than the canvas lies wholly within its columns, and a
    wider one starts at column 0. *)
Theorem layout_keeps_to_the_columns (clientWidth clientHeight : Z)
    (widgets : list widget) (i : nat) (p : position) (w : widget) :
  Forall positive widgets ->
  calculateLayout clientWidth clientHeight widgets !! i = Some p ->
  widgets !! i = Some w ->
  0 <= x p /\ 0 <= y p
  /\ (width (size w) <= clientWidth / GRID_SIZE ->
      x p + width (size w) <= clientWidth / GRID_SIZE)
  /\ (clientWidth / GRID_SIZE < width (size w) -> x p = 0).
Proof.
  intros Hall Hp Hw. unfold calculateLayout in Hp.
  apply (fold_place_in_columns (clientWidth / GRID_SIZE) (clientHeight / GRID_SIZE)
           widgets start [] ltac:(reflexivity) ltac:(reflexivity) ltac:(reflexivity)
           eq_refl Hall) with (i := i); [|exact Hp|exact Hw].
  intros j q v Hq. discriminate Hq.
Qed.

(** X21.  The layout looks at the batch it is given and at nothing else:
    widgets appended to a batch never move the earlier ones, and the
    first widget of every batch that fits the canvas goes to the origin,
    so that the first widgets of two batches laid out one after the other
    lie on top of each other. *)
Theorem layout_starts_every_batch_at_the_origin (clientWidth clientHeight : Z)
    (batch more : list widget) :
  (forall i p,
     calculateLayout clientWidth clientHeight batch !! i = Some p ->
     calculateLayout clientWidth clientHeight (batch ++ more) !! i = Some p)
  /\ (forall w w',
        positive w -> positive w' ->
        width (size w) <= clientWidth / GRID_SIZE ->
        height (size w) <= clientHeight / GRID_SIZE ->
        width (size w') <= clientWidth / GRID_SIZE ->
        height (size w') <= clientHeight / GRID_SIZE ->
        calculateLayout clientWidth clientHeight (w :: batch) !! 0%nat
        = Some {| x := 0; y := 0 |}
        /\ calculateLayout clientWidth clientHeight (w' :: more) !! 0%nat
           = Some {| x := 0; y := 0 |}
        /\ ~ disjoint {| x := 0; y := 0 |} (size w) {| x := 0; y := 0 |} (size w')).
Proof.
  split.
  - intros i p Hp. unfold calculateLayout in *. rewrite fold_left_app.
    destruct (fold_place_extends (clientWidth / GRID_SIZE) (clientHeight / GRID_SIZE) more
                (fold_left (place (clientWidth / GRID_SIZE) (clientHeight / GRID_SIZE))
                   batch start)) as [tail ->].
    now apply lookup_app_l_Some.
  - assert (Hfirst : forall v rest,
               positive v ->
               width (size v) <= clientWidth / GRID_SIZE ->
               height (size v) <= clientHeight / GRID_SIZE ->
               calculateLayout clientWidth clientHeight (v :: rest) !! 0%nat
               = Some {| x := 0; y := 0 |}).
    { intros v rest [Hv1 Hv2] Hwid Hhei. unfold calculateLayout. cbn [fold_left].
      destruct (fold_place_extends (clientWidth / GRID_SIZE) (clientHeight / GRID_SIZE) rest
                  (place (clientWidth / GRID_SIZE) (clientHeight / GRID_SIZE) start v))
        as [tail ->].
      unfold place, start. cbn [currentX currentY maxHeightInRow positions].
      replace (clientWidth / GRID_SIZE <? 0 + width (size v)) with false
        by (symmetry; apply Z.ltb_ge; lia).
      replace (clientHeight / GRID_SIZE <? 0 + height (size v)) with false
        by (symmetry; apply Z.ltb_ge; lia).
      reflexivity. }
    intros w w' Hw Hw' H1 H2 H3 H4.
    split; [now apply Hfirst|]. split; [now apply Hfirst|].
    destruct Hw as [? ?], Hw' as [? ?]. unfold disjoint. cbn [x y]. lia.
Qed.

End LayoutRuns.

Section LayoutExamples.
Import AutoLayout Examples.
Local Open Scope Z_scope.

(** Three widgets of four columns on a canvas of ten: the third starts a
    new row. *)
Lemma layout_keeps_to_the_columns_witness :
  calculateLayout 200 1000 [widget_4x3; widget_4x3; widget_4x3] !! 2%nat
  = Some {| x := 0; y := 4 |}
  /\ 0 <= 0 /\ 0 <= 4
  /\ (4 <= 200 / GRID_SIZE -> 0 + 4 <= 200 / GRID_SIZE)
  /\ (200 / GRID_SIZE < 4 -> 0 = 0).
Proof.
  split; [reflexivity|].
  apply (layout_keeps_to_the_columns 200 1000 [widget_4x3; widget_4x3; widget_4x3] 2%nat
           {| x := 0; y := 4 |} widget_4x3).
  - repeat apply List.Forall_cons; try apply List.Forall_nil; split; simpl; lia.
  - reflexivity.
  - reflexivity.
Defined.

(** Two batches of one widget each on the same canvas. *)
Lemma layout_starts_every_batch_at_the_origin_witness :
  calculateLayout 200 1000 [widget_4x3] !! 0%nat = Some {| x := 0; y := 0 |}
  /\ calculateLayout 200 1000 [widget_4x3] !! 0%nat = Some {| x := 0; y := 0 |}
  /\ ~ disjoint {| x := 0; y := 0 |} (size widget_4x3)
         {| x := 0; y := 0 |} (size widget_4x3).
Proof.
  apply (proj2 (layout_starts_every_batch_at_the_origin 200 1000 [] [])
           widget_4x3 widget_4x3);
    first [split; simpl; lia | vm_compute; discriminate].
Defined.

End LayoutExamples.


(** ** More of the log widget *)

Section LogRunProperties.
Context `{RT : Runtime}.
Import LogStreamWidget LogRuns.









End LogRunProperties.

Section LogRunExamples.
Import LogStreamWidget LogRuns Examples.


End LogRunExamples.


(** ** The telemetry metric widget *)

Section MetricWidgetProperties.
Context `{RT : Runtime}.
Import TelemetryMetricWidget.
Variable Object_values : dict -> list value.

Lemma show_template (metric : value) (w : t) :
  show metric w
  = (template metric,
     match template metric with
     | Normal _ => set_innerHTML (metric_card metric) w
     | Throw _ => w
     end).
Proof. unfold show. now destruct (template metric) as [[]|e]. Qed.

(** What a refresh does to a widget without a target key that has
    selected [m] before, on a cache that is not empty. *)
Lemma refresh_latched (d : dict) (w : t) (c : content) (m : value) :
  element w = Some c ->
  truthy (targetKey w) = false ->
  selectedMetric w = m ->
  truthy m = true ->
  Object_values d <> [] ->
  updateContent Object_values d w
  = (template m,
     match template m with
     | Normal _ => set_innerHTML (metric_card m) w
     | Throw _ => w
     end).
Proof.
  intros He Hkey Hsel Hm Hd. unfold updateContent, target_metric.
  rewrite He, Hkey, Hsel, Hm.
  destruct (Object_values d) as [|v vs]; [contradiction|]. cbn [length Nat.eqb].
  replace (set_selectedMetric m w) with w
    by (destruct w; cbn in Hsel; subst; reflexivity).
  apply show_template.
Qed.

(** The template cannot be filled in from an entry whose labels are
    [null] or missing, or whose name is no string. *)
Lemma template_fails (metric : value) :
  get metric "labels" = VNull \/ get metric "labels" = VUndef
  \/ (forall name, get metric "name" <> VStr name) ->
  exists error, template metric = Throw error.
Proof.
  unfold template. intros [->|[->|Hname]]; [now eexists|now eexists|].
  destruct (labelsStr (get metric "labels")); [|now eexists].
  destruct (get metric "name") as [| | | |name| |]; try (now eexists).
  now destruct (Hname name).
Qed.

(** X23.  A metric widget without a target key latches on the first
    metric it selects: on every later refresh it selects that same entry,
    with the value it had then, whatever the cache holds by that time
    (the parsers replace the entries of the cache, they do not update
    them in place).  Every refresh completes as the template does for
    that entry: if the template can be filled in, the widget shows the
    entry after every refresh; if not (labels that are [null], a name
    that is no string), every refresh throws and the widget keeps the
    content it had before the first one. *)
Theorem fallback_widget_shows_first_metric_for_ever (first : dict) (later : list dict)
    (w : t) (c : content) :
  element w = Some c ->
  truthy (targetKey w) = false ->
  truthy (selectedMetric w) = false ->
  truthy (nth 0 (Object_values first) VUndef) = true ->
  Forall (fun d => Object_values d <> []) later ->
  Forall
    (fun r =>
       fst r = template (nth 0 (Object_values first) VUndef)
       /\ selectedMetric (snd r) = nth 0 (Object_values first) VUndef
       /\ element (snd r)
          = Some match template (nth 0 (Object_values first) VUndef) with
                 | Normal _ => metric_card (nth 0 (Object_values first) VUndef)
                 | Throw _ => c
                 end)
    (refreshes Object_values (first :: later) w)
  /\ (get (nth 0 (Object_values first) VUndef) "labels" = VNull
      \/ get (nth 0 (Object_values first) VUndef) "labels" = VUndef
      \/ (forall name, get (nth 0 (Object_values first) VUndef) "name" <> VStr name) ->
      exists error, template (nth 0 (Object_values first) VUndef) = Throw error).
Proof.
  intros He Hkey Hsel Hfirst Hlater. split; [|apply template_fails].
  set (m := nth 0 (Object_values first) VUndef) in *.
  set (shown := match template m with Normal _ => metric_card m | Throw _ => c end).
  assert (Hlatched : forall ds w',
             element w' = Some shown ->
             truthy (targetKey w') = false -> selectedMetric w' = m ->
             Forall (fun d => Object_values d <> []) ds ->
             Forall (fun r => fst r = template m
                              /\ selectedMetric (snd r) = m
                              /\ element (snd r) = Some shown)
               (refreshes Object_values ds w')).
  { induction ds as [|d ds IH]; intros w' He' Hk Hs Hall; [apply List.Forall_nil|].
    apply Forall_cons in Hall as [Hd Hall]. cbn [refreshes].
    rewrite (refresh_latched d w' shown m He' Hk Hs Hfirst Hd). cbn [fst snd].
    assert (Hsame : element (match template m with
                             | Normal _ => set_innerHTML (metric_card m) w'
                             | Throw _ => w'
                             end) = Some shown).
    { unfold shown in *. now destruct (template m). }
    apply List.Forall_cons.
    - split; [reflexivity|]. split; [now destruct (template m)|exact Hsame].
    - apply IH; [exact Hsame|now destruct (template m)|now destruct (template m)|exact Hall]. }
  cbn [refreshes].
  assert (Hstep : updateContent Object_values first w
                  = (template m,
                     match template m with
                     | Normal _ => set_innerHTML (metric_card m) (set_selectedMetric m w)
                     | Throw _ => set_selectedMetric m w
                     end)).
  { unfold updateContent, target_metric. rewrite He, Hkey, Hsel. fold m.
    destruct (Object_values first) as [|v vs] eqn:Hvals.
    - subst m. simpl in Hfirst. discriminate.
    - cbn [length Nat.eqb]. apply show_template. }
  rewrite Hstep. cbn [fst snd].
  assert (Hshown : element (match template m with
                            | Normal _ => set_innerHTML (metric_card m) (set_selectedMetric m w)
                            | Throw _ => set_selectedMetric m w
                            end) = Some shown).
  { unfold shown. destruct (template m); [reflexivity|exact He]. }
  apply List.Forall_cons.
  - split; [reflexivity|]. split; [now destruct (template m)|exact Hshown].
  - apply Hlatched; [exact Hshown|now destruct (template m)|now destruct (template m)|
                     exact Hlater].
Qed.

End MetricWidgetProperties.

Section MetricWidgetExamples.
Import TelemetryMetricWidget MetricSamples.

(** The gauge reads 42.5, then 43.5: the cache holds the second reading,
    the widget shows the first one after both refreshes. *)
Lemma fallback_widget_shows_first_metric_for_ever_witness :
  Forall
    (fun r =>
       fst r = Normal tt
       /\ selectedMetric (snd r) = nth 0 (values_by_key after_first) VUndef
       /\ element (snd r) = Some (metric_card (nth 0 (values_by_key after_first) VUndef)))
    (refreshes (RT := runtime) values_by_key [after_first; after_second] keyless)
  /\ get (nth 0 (values_by_key after_first) VUndef) "value" = VNum (85 # 2)
  /\ option_map (fun m => get m "value") (own after_second !! "cpu_temp|{}")
     = Some (VNum (87 # 2)).
Proof.
  split; [|split; vm_compute; reflexivity].
  pose proof (fallback_widget_shows_first_metric_for_ever (RT := runtime) values_by_key
                after_first [after_second] keyless remove_button) as Hlatch.
  replace (template (RT := runtime) (nth 0 (values_by_key after_first) VUndef))
    with (@Normal unit tt) in Hlatch by (vm_compute; reflexivity).
  apply Hlatch.
  - reflexivity.
  - reflexivity.
  - reflexivity.
  - vm_compute. reflexivity.
  - apply List.Forall_cons; [|apply List.Forall_nil]. vm_compute. discriminate.
Defined.

(** An entry cached with labels that are [null] is selected and never
    shown: every refresh throws, and the widget keeps the content it was
    made with. *)
Example null_labels_never_shown :
  map (fun r => (fst r, selectedMetric (snd r), element (snd r)))
    (refreshes (RT := runtime) values_by_key [after_null_labels; after_null_labels]
       keyless)
  = replicate 2 (Throw "TypeError: Cannot convert undefined or null to object",
                 nth 0 (values_by_key after_null_labels) VUndef, Some remove_button)
  /\ get (nth 0 (values_by_key after_null_labels) VUndef) "labels" = VNull.
Proof. split; vm_compute; reflexivity. Qed.

End MetricWidgetExamples.


(** ** The message handler *)

Section MessageHandler.
Context `{RT : Runtime} {S : Type}.
Import WebSocketStream.

(** X24.  On the three structured streams every message that is not
    blank is parsed first and published after: each subscriber of the
    stream is called once, in subscription order, with the stores as the
    parser left them, also when the parser rejected the message and left
    the cache as it was (the subscribers leaving the stream's
    subscriptions alone).  A blank message changes nothing and calls
    nobody. *)
Theorem message_is_parsed_then_published (fuel : nat) (beh : Bus.behaviour payload S)
    (s : stream) (msg : string) (st : state S) :
  (forall c, Bus.quiet_on beh (stream_channel s) c) ->
  (length (Bus.subscribers (stream_channel s) (Bus.widgetSubscribers (bus st))) < fuel)%nat ->
  if is_blank msg
  then onmessage fuel beh (Bus.channel_name (stream_channel s)) msg st = Some st
  else
    exists st',
      onmessage fuel beh (Bus.channel_name (stream_channel s)) msg st = Some st'
      /\ data st' = snd (parse s msg (data st))
      /\ Bus.new_calls (bus st) (bus st')
         = map (fun c => (c, update_of s (data st')))
             (Bus.members
                (Bus.subscribers (stream_channel s) (Bus.widgetSubscribers (bus st)))).
Proof.
  intros Hquiet Hfuel. unfold onmessage.
  destruct (is_blank msg); [reflexivity|].
  replace (String.eqb (Bus.channel_name (stream_channel s)) "log") with false
    by (now destruct s).
  replace (structured (Bus.channel_name (stream_channel s))) with (Some s)
    by (now destruct s).
  destruct (publish_quiet beh (stream_channel s)
              (update_of s (snd (parse s msg (data st)))) fuel (bus st))
    as (w' & Hrun & _ & Hcalls); [intros c _; apply Hquiet|exact Hfuel|].
  rewrite Hrun. eexists. split; [reflexivity|]. split; [reflexivity|exact Hcalls].
Qed.

Lemma not_blank_not_empty (msg : string) : is_blank msg = false -> msg <> "".
Proof. intros H ->. discriminate H. Qed.

(** X25.  On the log stream a message that is not blank is delivered to
    every subscriber once, decoded when it is JSON and as the raw text
    when it is not, and the cache is not touched.  A log widget appends
    the raw text of a message that is not JSON, but a message that is
    JSON for a falsy value (0, false, null, an empty string) leaves the
    widget as it was: that line is never shown. *)
Theorem log_message_reaches_the_widgets (fuel : nat) (beh : Bus.behaviour payload S)
    (msg : string) (st : state S) (w : LogStreamWidget.t) :
  (forall c, Bus.quiet_on beh Bus.log c) ->
  (length (Bus.subscribers Bus.log (Bus.widgetSubscribers (bus st))) < fuel)%nat ->
  is_blank msg = false ->
  let logData := match JSON_parse msg with Some v => v | None => VStr msg end in
  (exists st',
     onmessage fuel beh "log" msg st = Some st'
     /\ data st' = data st
     /\ Bus.new_calls (bus st) (bus st')
        = map (fun c => (c, log_entry logData))
            (Bus.members (Bus.subscribers Bus.log (Bus.widgetSubscribers (bus st)))))
  /\ (JSON_parse msg = None ->
      LogStreamWidget.update logData w = LogStreamWidget.addLogEntry (VStr msg) w)
  /\ (truthy logData = false -> LogStreamWidget.update logData w = (Normal tt, w)).
Proof.
  intros Hquiet Hfuel Hblank logData. split; [|split].
  - unfold onmessage. rewrite Hblank. cbn [String.eqb Ascii.eqb Bool.eqb].
    fold logData.
    destruct (publish_quiet beh Bus.log (log_entry logData) fuel (bus st))
      as (w' & Hrun & _ & Hcalls); [intros c _; apply Hquiet|exact Hfuel|].
    change (Bus.channel_name Bus.log) with "log" in Hrun. rewrite Hrun.
    eexists. split; [reflexivity|]. split; [reflexivity|exact Hcalls].
  - intros Hparse. unfold logData. rewrite Hparse. unfold LogStreamWidget.update.
    cbn [truthy]. apply not_blank_not_empty in Hblank.
    apply String.eqb_neq in Hblank. now rewrite Hblank.
  - intros Hfalsy. unfold LogStreamWidget.update. now rewrite Hfalsy.
Qed.

End MessageHandler.

Section MessageHandlerExamples.
Import WebSocketStream Examples.

(** Text that is not JSON on the balance stream, with three subscribers:
    the cache is as before, and the three are called. *)
Lemma message_is_parsed_then_published_witness :
  exists st',
    onmessage (RT := plain) 4 StreamSamples.calm "balance" "not json"
      {| data := cache_with_order; bus := StreamSamples.balance_subscribers |} = Some st'
    /\ data st' = snd (parse (RT := plain) Balance "not json" cache_with_order)
    /\ Bus.new_calls StreamSamples.balance_subscribers (bus st')
       = map (fun c => (c, update_of Balance (data st'))) [0; 1; 2]%nat.
Proof.
  apply (message_is_parsed_then_published (RT := plain) 4 StreamSamples.calm Balance
           "not json" {| data := cache_with_order; bus := StreamSamples.balance_subscribers |}).
  - intros c data s. reflexivity.
  - simpl. lia.
Defined.

(** A log line that is not JSON, to one subscriber. *)
Lemma log_message_reaches_the_widgets_witness :
  (exists st',
     onmessage (RT := plain) 4 StreamSamples.calm "log" "disk full"
       {| data := cache_with_order; bus := StreamSamples.log_subscriber |} = Some st'
     /\ data st' = cache_with_order
     /\ Bus.new_calls StreamSamples.log_subscriber (bus st')
        = map (fun c => (c, log_entry (VStr "disk full"))) [7%nat])
  /\ (JSON_parse (Runtime := plain) "disk full" = None ->
      LogStreamWidget.update (RT := plain) (VStr "disk full")
        (LogStreamWidget.created (RT := plain))
      = LogStreamWidget.addLogEntry (RT := plain) (VStr "disk full")
          (LogStreamWidget.created (RT := plain)))
  /\ (truthy (VStr "disk full") = false ->
      LogStreamWidget.update (RT := plain) (VStr "disk full")
        (LogStreamWidget.created (RT := plain))
      = (Normal tt, LogStreamWidget.created (RT := plain))).
Proof.
  apply (log_message_reaches_the_widgets (RT := plain) 4 StreamSamples.calm "disk full"
           {| data := cache_with_order; bus := StreamSamples.log_subscriber |}
           (LogStreamWidget.created (RT := plain))).
  - intros c data s. reflexivity.
  - simpl. lia.
  - reflexivity.
Defined.

(** The line [0] is JSON for a falsy value: delivered, never shown. *)
Example log_line_zero_is_dropped :
  LogStreamWidget.update (RT := plain) (VNum 0) (LogStreamWidget.created (RT := plain))
  = (Normal tt, LogStreamWidget.created (RT := plain)).
Proof. reflexivity. Qed.

End MessageHandlerExamples.


(** ** The storage manager *)

Section StorageProperties.
Context `{RT : Runtime}.
Import StorageManager.

Lemma array_at_alter (f : list value -> list value) (arrays : list (list value))
    (ref : nat) :
  (ref < length arrays)%nat ->
  array_at (alter f ref arrays) ref = f (array_at arrays ref).
Proof.
  intros Hlt. unfold array_at. rewrite list_lookup_alter_eq.
  destruct (lookup_lt_is_Some_2 arrays ref Hlt) as [ws ->]. reflexivity.
Qed.

Lemma array_at_new (arrays : list (list value)) (ws : list value) :
  array_at (arrays ++ [ws]) (length arrays) = ws.
Proof.
  unfold array_at. rewrite lookup_app_r by lia. now rewrite Nat.sub_diag.
Qed.

Lemma array_at_old (arrays : list (list value)) (ws : list value) (ref : nat) :
  (ref < length arrays)%nat -> array_at (arrays ++ [ws]) ref = array_at arrays ref.
Proof. intros Hlt. unfold array_at. now rewrite lookup_app_l. Qed.

(** X26.  [addWidget] pushes onto the array that the configuration in
    memory already points at, so the widget is in the list whether or
    not the save succeeds; when the save fails nothing is stored, and
    the list in memory is ahead of the storage.  [removeWidget] builds a
    new array instead: when its save fails the list in memory is as
    before. *)
Theorem failed_save_keeps_the_added_widget (m : t) (widgetConfig : value)
    (widgetId : string) (stored : bool) :
  (widgets (config m) < length (arrays m))%nat ->
  getWidgets (addWidget stored widgetConfig m) = (getWidgets m ++ [widgetConfig])%list
  /\ localStorage (addWidget false widgetConfig m) = localStorage m
  /\ localStorage (addWidget true widgetConfig m)
     = Some (in_memory (addWidget true widgetConfig m))
  /\ getWidgets (snd (removeWidget false widgetId m)) = getWidgets m
  /\ localStorage (snd (removeWidget false widgetId m)) = localStorage m.
Proof.
  intros Href. split; [|split; [|split; [|split]]].
  - unfold getWidgets, addWidget, saveConfig.
    destruct stored; cbn [arrays config widgets]; now rewrite array_at_alter.
  - reflexivity.
  - reflexivity.
  - unfold getWidgets, removeWidget, saveConfig.
    destruct (filter_out widgetId _); cbn [snd arrays config widgets]; [|reflexivity].
    now apply array_at_old.
  - unfold removeWidget, saveConfig. now destruct (filter_out widgetId _).
Qed.

Lemma do_call_well_formed (m : t) (c : call) :
  (widgets (config m) < length (arrays m))%nat ->
  (widgets (config (do_call m c)) < length (arrays (do_call m c)))%nat.
Proof.
  intros Href. destruct c as [stored w|stored k u|stored k|stored|stored json];
    cbn [do_call].
  - unfold addWidget, saveConfig. destruct stored; cbn [arrays config widgets];
      now rewrite length_alter.
  - unfold updateWidget, saveConfig. destruct (findIndex k _ 0) as [[i|]|e];
      cbn [snd]; try exact Href.
    destruct stored; cbn [arrays config widgets]; now rewrite length_alter.
  - unfold removeWidget, saveConfig. destruct (filter_out k _) as [kept|e];
      cbn [snd]; [|exact Href].
    destruct stored; cbn [arrays config widgets]; rewrite length_app; simpl; lia.
  - unfold clearAll, saveConfig.
    destruct stored; cbn [arrays config widgets]; rewrite length_app; simpl; lia.
  - unfold importConfig, saveConfig. destruct (JSON_parse json) as [[| | | | | |fields]|];
      cbn [snd]; try exact Href.
    destruct (truthy _); [|exact Href].
    destruct (get (VObj fields) "widgets"); cbn [snd]; try exact Href.
    destruct stored; cbn [arrays config widgets]; rewrite length_app; simpl; lia.
Qed.

Lemma after_calls_well_formed (calls : list call) :
  (widgets (config (after_calls calls)) < length (arrays (after_calls calls)))%nat.
Proof.
  unfold after_calls.
  assert (H : forall m, (widgets (config m) < length (arrays m))%nat ->
                        (widgets (config (fold_left do_call calls m))
                         < length (arrays (fold_left do_call calls m)))%nat).
  { induction calls as [|c calls IH]; intros m Hm; [exact Hm|].
    simpl. apply IH. now apply do_call_well_formed. }
  apply H. simpl. lia.
Qed.

(** Every save of the call succeeds. *)
Lemma saved_call_mirrors (m : t) (c : call) :
  match c with
  | AddWidget stored _ | UpdateWidget stored _ _ | RemoveWidget stored _
  | ClearAll stored | ImportConfig stored _ => stored = true
  end ->
  (widgets (config m) < length (arrays m))%nat ->
  match localStorage m with
  | Some text => text = in_memory m
  | None => getWidgets m = []
  end ->
  match localStorage (do_call m c) with
  | Some text => text = in_memory (do_call m c)
  | None => getWidgets (do_call m c) = []
  end.
Proof.
  intros Hsaved Href Hm.
  destruct c as [stored w|stored k u|stored k|stored|stored json];
    subst stored; cbn [do_call].
  - reflexivity.
  - unfold updateWidget. destruct (findIndex k _ 0) as [[i|]|e]; cbn [snd];
      [reflexivity|exact Hm|exact Hm].
  - unfold removeWidget. destruct (filter_out k _) as [kept|e]; cbn [snd];
      [reflexivity|exact Hm].
  - reflexivity.
  - unfold importConfig. destruct (JSON_parse json) as [[| | | | | |fields]|];
      cbn [snd]; try exact Hm.
    destruct (truthy _); [|exact Hm].
    destruct (get (VObj fields) "widgets"); cbn [snd]; try exact Hm. reflexivity.
Qed.

(** X27.  As long as every save succeeds, the storage mirrors the
    memory: after any calls of [addWidget], [updateWidget],
    [removeWidget], [clearAll] and [importConfig] on a new manager, the
    stored text is the serialization of the configuration in memory (and
    while nothing has been stored the list of widgets is empty). *)
Theorem storage_mirrors_memory (calls : list call) :
  Forall (fun c =>
            match c with
            | AddWidget stored _ | UpdateWidget stored _ _ | RemoveWidget stored _
            | ClearAll stored | ImportConfig stored _ => stored = true
            end) calls ->
  match localStorage (after_calls calls) with
  | Some text => text = in_memory (after_calls calls)
  | None => getWidgets (after_calls calls) = []
  end.
Proof.
  intros Hall. unfold after_calls.
  assert (H : forall m,
             (widgets (config m) < length (arrays m))%nat ->
             match localStorage m with
             | Some text => text = in_memory m
             | None => getWidgets m = []
             end ->
             match localStorage (fold_left do_call calls m) with
             | Some text => text = in_memory (fold_left do_call calls m)
             | None => getWidgets (fold_left do_call calls m) = []
             end).
  { induction calls as [|c calls IH]; intros m Href Hm; [exact Hm|].
    apply Forall_cons in Hall as [Hc Hall]. simpl.
    apply IH; [exact Hall|now apply do_call_well_formed|now apply saved_call_mirrors]. }
  apply H; [simpl; lia|reflexivity].
Qed.

Lemma has_id_other (widgetId other : string) (w : value) :
  has_id widgetId w = Normal true -> other <> widgetId ->
  has_id other w = Normal false.
Proof.
  unfold has_id. set (v := get w "id"). intros Hw Hne.
  assert (Hv : is_string v widgetId = true) by (destruct w; congruence).
  assert (Hother : is_string v other = false).
  { unfold is_string in *. destruct v; try reflexivity.
    apply String.eqb_eq in Hv. subst. apply String.eqb_neq. congruence. }
  rewrite Hother. destruct w; try reflexivity; discriminate Hw.
Qed.

Lemma find_filter_out (widgetId other : string) (ws kept : list value) :
  filter_out widgetId ws = Normal kept ->
  find widgetId kept = Normal VUndef
  /\ (other <> widgetId -> find other kept = find other ws).
Proof.
  revert kept. induction ws as [|w ws IH]; intros kept Hkept; simpl in Hkept.
  - inversion Hkept. split; reflexivity.
  - destruct (has_id widgetId w) as [found|e] eqn:Hw; [|discriminate].
    destruct (filter_out widgetId ws) as [kept'|e]; [|discriminate].
    inversion Hkept; subst kept. destruct (IH kept' eq_refl) as [IH1 IH2].
    destruct found.
    + split; [exact IH1|]. intros Hne. rewrite (IH2 Hne). cbn [find].
      now rewrite (has_id_other widgetId other w Hw Hne).
    + split.
      * cbn [find]. now rewrite Hw.
      * intros Hne. cbn [find]. rewrite (IH2 Hne). reflexivity.
Qed.

(** X28.  After a saved [removeWidget] that completes, no widget of that
    id is left ([getWidgetById] gives [undefined], however many widgets
    had the id), and looking up any other id gives what it gave before. *)
Theorem removed_widget_is_gone (m : t) (widgetId other : string) :
  fst (removeWidget true widgetId m) = Normal tt ->
  getWidgetById widgetId (snd (removeWidget true widgetId m)) = Normal VUndef
  /\ (other <> widgetId ->
      getWidgetById other (snd (removeWidget true widgetId m)) = getWidgetById other m).
Proof.
  intros Hdone. unfold removeWidget in *.
  destruct (filter_out widgetId (array_at (arrays m) (widgets (config m))))
    as [kept|e] eqn:Hkept; [|discriminate].
  cbn [snd]. unfold getWidgetById, saveConfig. cbn [arrays config widgets].
  rewrite array_at_new. now apply find_filter_out.
Qed.

End StorageProperties.

Section StorageExamples.
Import StorageManager StorageSamples Examples.

(** A third widget added to two while the quota is exhausted, and the
    first one removed under the same condition. *)
Lemma failed_save_keeps_the_added_widget_witness :
  getWidgets (addWidget (RT := plain) false meter two_widgets)
  = (getWidgets two_widgets ++ [meter])%list
  /\ localStorage (addWidget (RT := plain) false meter two_widgets)
     = localStorage two_widgets
  /\ localStorage (addWidget (RT := plain) true meter two_widgets)
     = Some (in_memory (RT := plain) (addWidget (RT := plain) true meter two_widgets))
  /\ getWidgets (snd (removeWidget (RT := plain) false "clock" two_widgets))
     = getWidgets two_widgets
  /\ localStorage (snd (removeWidget (RT := plain) false "clock" two_widgets))
     = localStorage two_widgets.
Proof.
  apply (failed_save_keeps_the_added_widget (RT := plain) two_widgets meter "clock" false).
  vm_compute. lia.
Defined.

Lemma storage_mirrors_memory_witness :
  match localStorage two_widgets with
  | Some text => text = in_memory (RT := plain) two_widgets
  | None => getWidgets two_widgets = []
  end.
Proof.
  apply (storage_mirrors_memory (RT := plain) [AddWidget true clock; AddWidget true gauge]).
  repeat apply List.Forall_cons; try apply List.Forall_nil; reflexivity.
Defined.

Lemma removed_widget_is_gone_witness :
  getWidgetById "clock" (snd (removeWidget (RT := plain) true "clock" two_widgets))
  = Normal VUndef
  /\ ("gauge" <> "clock" ->
      getWidgetById "gauge" (snd (removeWidget (RT := plain) true "clock" two_widgets))
      = getWidgetById "gauge" two_widgets).
Proof.
  apply (removed_widget_is_gone (RT := plain) two_widgets "clock" "gauge").
  reflexivity.
Defined.

End StorageExamples.


(** ** Balances and histograms *)

Section BalanceRuns.
Context `{RT : Runtime}.

Lemma balances_frame (last_updated : value) (k : string) (balances : list value) :
  ~ In k (omap (fun balance =>
                  if negb (truthy balance) || negb (truthy (get balance "asset"))
                  then None
                  else Some (String_of (get balance "asset"))) balances) ->
  forall c,
    own (balanceData (snd (forEach (balance_entry last_updated) balances c))) !! k
    = own (balanceData c) !! k.
Proof.
  intros Hk c.
  apply (forEach_preserves (balance_entry last_updated)
           (fun c' => own (balanceData c') !! k = own (balanceData c) !! k));
    [|reflexivity].
  intros b c' Hin Hc'. rewrite balance_entry_effect. cbn [snd].
  destruct (negb (truthy b) || negb (truthy (get b "asset"))) eqn:Hskip; [exact Hc'|].
  cbn [balanceData set_balanceData]. rewrite dict_assign_other; [exact Hc'|].
  intros Heq. apply Hk. apply list_elem_of_In. apply list_elem_of_omap.
  exists b. split; [now apply list_elem_of_In|]. now rewrite Hskip, Heq.
Qed.

Lemma parseBalanceMessage_frame (msg : string) (k : string) (c : cache) :
  ~ In k (balance_assets msg) ->
  own (balanceData (snd (parseBalanceMessage msg c))) !! k = own (balanceData c) !! k.
Proof.
  unfold balance_assets, parseBalanceMessage. rewrite try_catch_console_state.
  unfold parseBalanceMessage_try.
  destruct (JSON_parse msg) as [data|]; [|reflexivity].
  destruct (negb (truthy data) || negb (typeof_object data)); [reflexivity|].
  intros Hk. unfold bind at 1. unfold modify at 1. unfold bind at 1.
  destruct (get_default data "open_orders" (VArr [])) as [| | | | |orders|];
    try reflexivity.
  simpl call_forEach at 1. rewrite forEach_balance_order.
  destruct (get_default data "balances" (VArr [])) as [| | | | |balances|];
    try reflexivity.
  cbn [call_forEach]. now rewrite balances_frame.
Qed.

(** X30.  Balances are last-known-good, unlike the open orders: the entry
    of an asset stays exactly as it is while balance messages are
    processed that carry no balance for that asset (also messages that
    are faulty, or whose list of balances is empty). *)
Theorem balance_last_known_good (later : list string) (c : cache) (k : string) :
  Forall (fun msg => ~ In k (balance_assets msg)) later ->
  own (balanceData (process Balance later c)) !! k = own (balanceData c) !! k.
Proof.
  revert c. induction later as [|msg later IH]; intros c Hall; [reflexivity|].
  apply Forall_cons in Hall as [Hmsg Hlater]. simpl. rewrite IH by exact Hlater.
  now apply parseBalanceMessage_frame.
Qed.

(** X29.  A histogram whose name can be written in the key (a string, or
    any value that converts to one) is cached like a gauge or a counter,
    with [null] for a value when the message gives none, whatever else
    its [metric_type] holds: the test for histograms the server did not
    serialize sits in the branch for the other types, which a histogram
    never takes. *)
Theorem histogram_without_value_is_cached (fields metric_type : list (string * value))
    (c : cache) :
  truthy (assoc "name" fields) = true ->
  converts (assoc "name" fields) = true ->
  assoc "metric_type" fields = VObj metric_type ->
  assoc "type" metric_type = VStr "histogram" ->
  assoc "value" metric_type = VUndef ->
  own (telemetryData (snd (telemetry_item (VObj fields) c))) !! item_key (VObj fields)
  = Some (VObj [("name", assoc "name" fields);
                ("labels", get_default (VObj fields) "labels" (VObj []));
                ("value", VNull);
                ("cached_rate", get_default (VObj fields) "cached_rate" (VNum 0));
                ("last_updated", assoc "last_updated" fields);
                ("metric_type", VObj metric_type);
                ("key", VStr (item_key (VObj fields)))]).
Proof.
  intros Hname _ Hmt Htype Hvalue.
  rewrite (telemetry_item_stores (VObj fields) VNull c).
  - cbn [get]. now rewrite Hmt.
  - unfold accepted. cbn [truthy typeof_object get andb]. rewrite Hname, Hmt.
    cbn [truthy get andb]. rewrite Htype. reflexivity.
  - unfold processedValue. cbn [get]. rewrite Hmt. cbn [get]. now rewrite Hvalue.
Qed.

End BalanceRuns.

Section BalanceRunExamples.
Import Examples.

(** The BTC balance cached from one message survives a message without
    balances and text that is not JSON; the orders do not. *)
Lemma balance_last_known_good_witness :
  own (balanceData
         (process (RT := plain) Balance ["bad_orders"; "not json"]
            (process (RT := plain) Balance ["balance"] initial_cache))) !! "BTC"
  = own (balanceData (process (RT := plain) Balance ["balance"] initial_cache)) !! "BTC"
  /\ is_Some (own (balanceData (process (RT := plain) Balance ["balance"] initial_cache))
              !! "BTC")
  /\ openOrdersData
       (process (RT := plain) Balance ["bad_orders"; "not json"]
          (process (RT := plain) Balance ["balance"] initial_cache)) = [].
Proof.
  split; [|split; [vm_compute; eexists; reflexivity|reflexivity]].
  apply (balance_last_known_good (RT := plain) ["bad_orders"; "not json"]
           (process (RT := plain) Balance ["balance"] initial_cache) "BTC").
  repeat apply List.Forall_cons; try apply List.Forall_nil; intros H; exact H.
Defined.

Lemma histogram_without_value_is_cached_witness :
  own (telemetryData
         (snd (telemetry_item (RT := plain) HistogramSamples.latency initial_cache)))
    !! item_key (RT := plain) HistogramSamples.latency
  = Some (VObj [("name", VStr "latency");
                ("labels", VObj []);
                ("value", VNull);
                ("cached_rate", VNum 0);
                ("last_updated", VNum 1000);
                ("metric_type",
                 VObj [("type", VStr "histogram");
                       ("data", VStr "histogram_data_not_serialized")]);
                ("key", VStr (item_key (RT := plain) HistogramSamples.latency))]).
Proof.
  apply (histogram_without_value_is_cached (RT := plain)
           [("name", VStr "latency"); ("labels", VObj []);
            ("metric_type",
             VObj [("type", VStr "histogram");
                   ("data", VStr "histogram_data_not_serialized")]);
            ("last_updated", VNum 1000)]
           [("type", VStr "histogram"); ("data", VStr "histogram_data_not_serialized")]
           initial_cache); reflexivity.
Defined.

End BalanceRunExamples.
